(** * Constructure AI - Project Brain: retrieval and caching engine

    A shallow embedding of the Python backend (document chunking and
    keyword search of [document_processor_simple.py], the query cache of
    [main.py], the conversation handling of [rag_pipeline.py], the
    response parsing of [structured_extractor.py] and the summary of
    [evaluation.py]) together with the properties the specification
    states about them and further properties of the same code.

    Conventions.
    - A Python [str] is a [list ascii]; a character is a code point in
      the range 0..255 (the Latin-1 part of Unicode).
    - A Python [int] is a [Z].
    - Python dictionaries with string keys are [gmap]s where only lookup
      matters, and association lists where the order of the items is
      visible (JSON objects, the [filters] of a request).
    - A [while] loop whose termination depends on its arguments takes a
      fuel argument and returns [None] when the fuel runs out. *)

From Stdlib Require Import ZArith List Ascii String DecimalString Lia.
From Stdlib Require Import Permutation Sorted DecimalZ Floats.
From Stdlib Require Uint63.
From stdpp Require Import base list gmap strings sorting.

Local Open Scope Z_scope.
#[local] Set Warnings "-register-all,-inexact-float".

Abbreviation text := (list ascii) (only parsing).

(** The text of a string literal. *)
Definition str (s : string) : text := list_ascii_of_string s.

(* ===================================================================== *)
(** * Python builtins used by the backend *)
(* ===================================================================== *)

Module Py.

(** [len(s)] *)
Definition len {A} (l : list A) : Z := Z.of_nat (length l).

(** Normalisation of one bound of a slice [l[start:stop]]: a negative
    bound counts from the end, and every bound is clamped to
    [0 .. len]. *)
Definition slice_index (n i : Z) : Z :=
  if i <? 0 then Z.max 0 (i + n) else Z.min i n.

(** [l[start:stop]] *)
Definition slice {A} (l : list A) (start stop : Z) : list A :=
  let lo := slice_index (len l) start in
  let hi := slice_index (len l) stop in
  firstn (Z.to_nat (hi - lo)) (skipn (Z.to_nat lo) l).

(** [c.isspace()] for a code point below 256. *)
Definition isspace (c : ascii) : bool :=
  let n := nat_of_ascii c in
  ((9 <=? n)%nat && (n <=? 13)%nat) || ((28 <=? n)%nat && (n <=? 32)%nat)
  || (n =? 133)%nat || (n =? 160)%nat.

(** [c.lower()] for a code point below 256: A-Z and the accented
    capitals 192..222 (but not the multiplication sign 215) move up by
    32. *)
Definition lower_char (c : ascii) : ascii :=
  let n := nat_of_ascii c in
  if ((65 <=? n)%nat && (n <=? 90)%nat)
     || ((192 <=? n)%nat && (n <=? 222)%nat && negb (n =? 215)%nat)
  then ascii_of_nat (n + 32) else c.

(** [s.lower()] *)
Definition lower (s : text) : text := map lower_char s.

(** [s.lstrip()], [s.rstrip()], [s.strip()] *)
Fixpoint lstrip (s : text) : text :=
  match s with
  | c :: s' => if isspace c then lstrip s' else s
  | [] => []
  end.

Definition rstrip (s : text) : text := rev (lstrip (rev s)).

Definition strip (s : text) : text := rstrip (lstrip s).

(** [s.startswith(w)] *)
Fixpoint startswith (s w : text) : bool :=
  match w, s with
  | [], _ => true
  | _ :: _, [] => false
  | a :: w', b :: s' => if ascii_dec a b then startswith s' w' else false
  end.

(** [w in s] *)
Fixpoint contains (s w : text) : bool :=
  startswith s w ||
  match s with
  | [] => false
  | _ :: s' => contains s' w
  end.

(** [s.count(w)] for a non-empty [w]: the occurrences are counted from
    the left and do not overlap. [skip] is the number of characters of
    the last occurrence that are still to be passed. For the empty
    [w] Python answers [len(s) + 1]. *)
Fixpoint count_from (s w : text) (skip : nat) : Z :=
  match s with
  | [] => 0
  | _ :: s' =>
      match skip with
      | S k => count_from s' w k
      | O => if startswith s w
             then 1 + count_from s' w (length w - 1)
             else count_from s' w 0
      end
  end.

Definition count (s w : text) : Z :=
  match w with
  | [] => len s + 1
  | _ => count_from s w 0
  end.

(** [s.split()]: the maximal runs of characters that are not white
    space. [cur] is the run being read, in reverse. *)
Fixpoint split_from (s : text) (cur : text) : list text :=
  match s with
  | [] => match cur with [] => [] | _ => [rev cur] end
  | c :: s' =>
      if isspace c
      then match cur with
           | [] => split_from s' []
           | _ => rev cur :: split_from s' []
           end
      else split_from s' (c :: cur)
  end.

Definition split (s : text) : list text := split_from s [].

(** [str(n)] for an [int]. *)
Definition str_of_int (n : Z) : text :=
  str (NilZero.string_of_int (Z.to_int n)).

(** [sep.join(parts)] *)
Fixpoint join (sep : text) (parts : list text) : text :=
  match parts with
  | [] => []
  | [p] => p
  | p :: ps => p ++ sep ++ join sep ps
  end.

(** [s.encode()]: UTF-8; a code point from 128 to 255 takes two
    bytes. *)
Definition encode_char (c : ascii) : list Z :=
  let n := Z.of_nat (nat_of_ascii c) in
  if n <? 128 then [n]
  else [Z.lor 192 (Z.shiftr n 6); Z.lor 128 (Z.land n 63)].

Definition encode (s : text) : list Z := flat_map encode_char s.

(** Comparison of two strings: lexicographic, by code point. *)
Fixpoint compare (s1 s2 : text) : comparison :=
  match s1, s2 with
  | [], [] => Eq
  | [], _ :: _ => Lt
  | _ :: _, [] => Gt
  | a :: s1', b :: s2' =>
      match Nat.compare (nat_of_ascii a) (nat_of_ascii b) with
      | Eq => compare s1' s2'
      | o => o
      end
  end.

(** [s1 < s2] *)
Definition ltb (s1 s2 : text) : bool :=
  match compare s1 s2 with Lt => true | _ => false end.

(** [sorted(l)] and [l.sort()] are stable. [before y x] says that [y]
    sorts strictly before [x]; an element is inserted in front of the
    first one that does not sort strictly before it, so elements that
    compare equal keep the order they had in [l]. With
    [reverse=True] the order of the keys is reversed and equal
    elements still keep their order. *)
Section Sorted.
Context {A : Type} (before : A -> A -> bool).

Fixpoint insert (x : A) (l : list A) : list A :=
  match l with
  | [] => [x]
  | y :: l' => if before y x then y :: insert x l' else x :: l
  end.

Fixpoint sorted (l : list A) : list A :=
  match l with
  | [] => []
  | x :: l' => insert x (sorted l')
  end.
End Sorted.

End Py.


(* ===================================================================== *)
(** * [hashlib.md5]: the MD5 message digest (RFC 1321) *)
(* ===================================================================== *)

Module MD5.

Definition mask32 : Z := 0xffffffff.

Definition add32 (a b : Z) : Z := Z.land (a + b) mask32.

Definition not32 (a : Z) : Z := Z.lxor a mask32.

Definition rotl32 (x c : Z) : Z :=
  Z.land (Z.lor (Z.shiftl x c) (Z.shiftr x (32 - c))) mask32.

(** The per-round shift amounts. *)
Definition shifts : list Z :=
  [7; 12; 17; 22; 7; 12; 17; 22; 7; 12; 17; 22; 7; 12; 17; 22;
   5; 9; 14; 20; 5; 9; 14; 20; 5; 9; 14; 20; 5; 9; 14; 20;
   4; 11; 16; 23; 4; 11; 16; 23; 4; 11; 16; 23; 4; 11; 16; 23;
   6; 10; 15; 21; 6; 10; 15; 21; 6; 10; 15; 21; 6; 10; 15; 21].

(** The sine table: [floor (2^32 * abs (sin (i + 1)))]. *)
Definition sines : list Z :=
  [0xd76aa478; 0xe8c7b756; 0x242070db; 0xc1bdceee;
   0xf57c0faf; 0x4787c62a; 0xa8304613; 0xfd469501;
   0x698098d8; 0x8b44f7af; 0xffff5bb1; 0x895cd7be;
   0x6b901122; 0xfd987193; 0xa679438e; 0x49b40821;
   0xf61e2562; 0xc040b340; 0x265e5a51; 0xe9b6c7aa;
   0xd62f105d; 0x02441453; 0xd8a1e681; 0xe7d3fbc8;
   0x21e1cde6; 0xc33707d6; 0xf4d50d87; 0x455a14ed;
   0xa9e3e905; 0xfcefa3f8; 0x676f02d9; 0x8d2a4c8a;
   0xfffa3942; 0x8771f681; 0x6d9d6122; 0xfde5380c;
   0xa4beea44; 0x4bdecfa9; 0xf6bb4b60; 0xbebfbc70;
   0x289b7ec6; 0xeaa127fa; 0xd4ef3085; 0x04881d05;
   0xd9d4d039; 0xe6db99e5; 0x1fa27cf8; 0xc4ac5665;
   0xf4292244; 0x432aff97; 0xab9423a7; 0xfc93a039;
   0x655b59c3; 0x8f0ccc92; 0xffeff47d; 0x85845dd1;
   0x6fa87e4f; 0xfe2ce6e0; 0xa3014314; 0x4e0811a1;
   0xf7537e82; 0xbd3af235; 0x2ad7d2bb; 0xeb86d391].

Record state := State { sa : Z; sb : Z; sc : Z; sd : Z }.

Definition init : state :=
  State 0x67452301 0xefcdab89 0x98badcfe 0x10325476.

(** The message with its padding: a byte 128, zero bytes up to 56
    modulo 64, and the length in bits as eight little-endian bytes. *)
Definition le_bytes (n : nat) (w : Z) : list Z :=
  map (fun i => Z.land (Z.shiftr w (8 * Z.of_nat i)) 255) (seq 0 n).

Definition pad (msg : list Z) : list Z :=
  let n := Py.len msg in
  msg ++ [128] ++ repeat 0 (Z.to_nat ((55 - n) mod 64))
      ++ le_bytes 8 (Z.land (8 * n) 0xffffffffffffffff).

(** The sixteen little-endian words of a 64-byte block. *)
Definition word_at (block : list Z) (g : Z) : Z :=
  let b := fun k => nth (Z.to_nat (4 * g + k)) block 0 in
  Z.lor (b 0) (Z.lor (Z.shiftl (b 1) 8)
                     (Z.lor (Z.shiftl (b 2) 16) (Z.shiftl (b 3) 24))).

Definition round (block : list Z) (s : state) (i : Z) : state :=
  let '(State a b c d) := s in
  let '(f, g) :=
    if i <? 16 then (Z.lor (Z.land b c) (Z.land (not32 b) d), i)
    else if i <? 32 then
      (Z.lor (Z.land d b) (Z.land (not32 d) c), (5 * i + 1) mod 16)
    else if i <? 48 then (Z.lxor b (Z.lxor c d), (3 * i + 5) mod 16)
    else (Z.lxor c (Z.lor b (not32 d)), (7 * i) mod 16) in
  let f' := add32 (add32 (add32 f a) (nth (Z.to_nat i) sines 0))
                  (word_at block g) in
  State d (add32 b (rotl32 f' (nth (Z.to_nat i) shifts 0))) b c.

Definition compress (s : state) (block : list Z) : state :=
  let s' := fold_left (round block) (map Z.of_nat (seq 0 64)) s in
  State (add32 (sa s) (sa s')) (add32 (sb s) (sb s'))
        (add32 (sc s) (sc s')) (add32 (sd s) (sd s')).

Fixpoint blocks (n : nat) (s : state) (bytes : list Z) : state :=
  match n with
  | O => s
  | S n' => blocks n' (compress s (firstn 64 bytes)) (skipn 64 bytes)
  end.

Definition digest (msg : list Z) : list Z :=
  let padded := pad msg in
  let s := blocks (length padded / 64) init padded in
  le_bytes 4 (sa s) ++ le_bytes 4 (sb s) ++ le_bytes 4 (sc s)
    ++ le_bytes 4 (sd s).

Definition hex_digit (d : Z) : ascii :=
  nth (Z.to_nat d) (str "0123456789abcdef") "0"%char.

Definition hex_byte (b : Z) : text :=
  [hex_digit (Z.shiftr b 4); hex_digit (Z.land b 15)].

(** [hashlib.md5(msg).hexdigest()] *)
Definition hexdigest (msg : list Z) : text := flat_map hex_byte (digest msg).

End MD5.

(* ===================================================================== *)
(** * Python values and [json.dumps] *)
(* ===================================================================== *)

(** The values that [json.loads] returns and [json.dumps] accepts. A
    [float] is carried as its [repr]. The items of a dictionary are in
    insertion order and their keys are distinct. *)
Inductive pyval :=
| PNone
| PBool (b : bool)
| PInt (n : Z)
| PFloat (repr : text)
| PStr (s : text)
| PList (l : list pyval)
| PDict (items : list (text * pyval)).

Module Json.

Definition quote : ascii := ascii_of_nat 34.
Definition backslash : ascii := ascii_of_nat 92.

(** One character of a string literal, with [ensure_ascii=True]:
    everything outside the printable ASCII range is escaped. *)
Definition escape_char (c : ascii) : text :=
  let n := nat_of_ascii c in
  if (n =? 34)%nat then [backslash; quote]
  else if (n =? 92)%nat then [backslash; backslash]
  else if (n =? 10)%nat then backslash :: str "n"
  else if (n =? 13)%nat then backslash :: str "r"
  else if (n =? 9)%nat then backslash :: str "t"
  else if (n =? 12)%nat then backslash :: str "f"
  else if (n =? 8)%nat then backslash :: str "b"
  else if ((32 <=? n) && (n <=? 126))%nat then [c]
  else backslash :: str "u00" ++ MD5.hex_byte (Z.of_nat n).

Definition dump_str (s : text) : text :=
  quote :: flat_map escape_char s ++ [quote].

(** The order of the items of a dictionary under [sort_keys=True]. *)
Definition key_before {V} (y x : text * V) : bool := Py.ltb (fst y) (fst x).

Definition render_item (kv : text * text) : text :=
  dump_str (fst kv) ++ str ": " ++ snd kv.

(** [json.dumps(v, sort_keys=True)]. The values of a dictionary are
    rendered before its items are sorted: the order depends on the
    keys only. *)
Fixpoint dumps (v : pyval) : text :=
  match v with
  | PNone => str "null"
  | PBool true => str "true"
  | PBool false => str "false"
  | PInt n => Py.str_of_int n
  | PFloat r => r
  | PStr s => dump_str s
  | PList l => str "[" ++ Py.join (str ", ") (map dumps l) ++ str "]"
  | PDict items =>
      str "{"
      ++ Py.join (str ", ")
           (map render_item
              (Py.sorted key_before
                 (map (fun kv => (fst kv, dumps (snd kv))) items)))
      ++ str "}"
  end.

End Json.

(* ===================================================================== *)
(** * Exceptions *)
(* ===================================================================== *)

Inductive exn :=
| KeyError
| TypeError
| ValueError
| AttributeError
| JSONDecodeError
| APIError
| OSError.

Inductive res (A : Type) :=
| Ok (a : A)
| Raise (e : exn).
Arguments Ok {A} a.
Arguments Raise {A} e.

Definition bind {A B} (m : res A) (k : A -> res B) : res B :=
  match m with
  | Ok a => k a
  | Raise e => Raise e
  end.

Notation "x <- m ;; k" := (bind m (fun x => k))
  (at level 100, m at next level, right associativity).

(** [try: body except E: handler] for the exceptions that [catches]
    accepts. *)
Definition try_except {A} (body : res A) (catches : exn -> bool)
    (handler : res A) : res A :=
  match body with
  | Ok a => Ok a
  | Raise e => if catches e then handler else Raise e
  end.

(* ===================================================================== *)
(** * [document_processor_simple.py]: ingestion, chunking, keyword search *)
(* ===================================================================== *)

Module DocumentProcessor.

(** A chunk record, the dictionary built in [_extract_and_chunk_pdf]. *)
Record chunk := Chunk {
  id : text;
  document_id : text;
  filename : text;
  page_number : Z;
  chunk_index : Z;
  content : text
}.

(** A search result: the chunk with its ["relevance_score"]. *)
Record scored := Scored {
  scored_chunk : chunk;
  relevance_score : Z
}.

(** An entry of [self.documents] and of [self.documents_metadata]. *)
Record document := Document {
  doc_filename : text;
  doc_path : text;
  doc_chunks : list chunk
}.

Record metadata := Metadata {
  meta_filename : text;
  meta_path : text;
  chunks_count : Z
}.

(** The state of a [DocumentProcessor]. *)
Record t := Make {
  upload_dir : text;
  documents : gmap (list ascii) document;
  chunks : list chunk;
  documents_metadata : gmap (list ascii) metadata
}.

(** An uploaded file. [pages] is what [PdfReader] makes of the bytes:
    the text of each page in order, [None] where reading raises (a
    file that cannot be opened at all is [[None]]). The bytes
    themselves play no other role. *)
Record upload := Upload {
  upload_filename : text;
  pages : list (option text)
}.

(** The result of [process_document]. *)
Record receipt := Receipt {
  receipt_document_id : text;
  receipt_filename : text;
  receipt_chunks_count : Z
}.

(** The [while] loop of [_chunk_text]. *)
Fixpoint chunk_loop (fuel : nat) (text : text) (chunk_size overlap : Z)
    (start : Z) (chunks : list (list ascii)) : option (list (list ascii)) :=
  if start <? Py.len text then
    match fuel with
    | O => None
    | S fuel' =>
        let end_ := start + chunk_size in
        let chunk := Py.slice text start end_ in
        chunk_loop fuel' text chunk_size overlap
          (start + (chunk_size - overlap)) (chunks ++ [Py.strip chunk])
    end
  else Some chunks.

Definition _chunk_text (fuel : nat) (text : text) (chunk_size overlap : Z)
    : option (list (list ascii)) :=
  chunk_loop fuel text chunk_size overlap 0 [].

(** [enumerate(page_chunks)] turned into chunk records. *)
Fixpoint page_records (doc_id filename : text) (page_num chunk_idx : Z)
    (page_chunks : list (list ascii)) : list chunk :=
  match page_chunks with
  | [] => []
  | chunk_text :: rest =>
      let chunk_id :=
        doc_id ++ str "_page" ++ Py.str_of_int page_num
               ++ str "_chunk" ++ Py.str_of_int chunk_idx in
      Chunk chunk_id doc_id filename page_num chunk_idx chunk_text
      :: page_records doc_id filename page_num (chunk_idx + 1) rest
  end.

(** The loop over the pages. An exception leaves the loop and the
    chunks collected so far are returned. The loop of [_chunk_text]
    runs on one page at most once per character. *)
Fixpoint pages_loop (doc_id filename : text) (pages : list (option text))
    (page_num : Z) (chunks : list chunk) : option (list chunk) :=
  match pages with
  | [] => Some chunks
  | None :: _ => Some chunks
  | Some text :: rest =>
      match Py.strip text with
      | _ :: _ =>
          match _chunk_text (length text) text 1000 200 with
          | Some page_chunks =>
              pages_loop doc_id filename rest (page_num + 1)
                (chunks ++ page_records doc_id filename page_num 0 page_chunks)
          | None => None
          end
      | [] => pages_loop doc_id filename rest (page_num + 1) chunks
      end
  end.

Definition _extract_and_chunk_pdf (pages : list (option text))
    (doc_id filename : text) : option (list chunk) :=
  pages_loop doc_id filename pages 1 [].

Section Disk.
(** The file system is outside the program and is taken as it comes:
    a state of some type [disk]. [joinpath dir name] is
    [str(dir / name)] of [pathlib]. [write_upload d path file] is the
    outcome of [aiofiles.open(path, 'wb')] and [f.write(content)] on
    the disk [d]: whether they succeed (they raise [OSError] when the
    directory of [path] is missing, when [path] is a directory, ...)
    and the disk afterwards. [write_metadata d path metadata] is the
    same for [open(path, 'w')] and [json.dump(metadata, f, indent=2)]. *)
Variable disk : Type.
Variable joinpath : text -> text -> text.
Variable write_upload : disk -> text -> upload -> bool * disk.
Variable write_metadata :
  disk -> text -> gmap (list ascii) metadata -> bool * disk.

(** [self.metadata_file], set in [__init__]. *)
Definition metadata_file (self : t) : text :=
  joinpath (upload_dir self) (str "documents_metadata.json").

Definition _save_metadata (self : t) (d : disk) : bool * disk :=
  write_metadata d (metadata_file self) (documents_metadata self).

(** [process_document]: what it returns or raises, the processor and
    the disk afterwards. The file is read back by [PdfReader] from the
    path it was written to. An exception of [_save_metadata] leaves
    the stores as they were updated. *)
Definition process_document (self : t) (d : disk) (file : upload)
    : option (res receipt * t * disk) :=
  let file_path := joinpath (upload_dir self) (upload_filename file) in
  let '(written, d) := write_upload d file_path file in
  if (written : bool) then
    let doc_id := MD5.hexdigest (Py.encode (upload_filename file)) in
    match _extract_and_chunk_pdf (pages file) doc_id (upload_filename file)
    with
    | None => None
    | Some text_chunks =>
        let self :=
          {| upload_dir := upload_dir self;
             documents :=
               <[doc_id :=
                   Document (upload_filename file) file_path text_chunks]>
                 (documents self);
             chunks := chunks self ++ text_chunks;
             documents_metadata :=
               <[doc_id := Metadata (upload_filename file) file_path
                             (Py.len text_chunks)]>
                 (documents_metadata self) |} in
        let '(saved, d) := _save_metadata self d in
        if (saved : bool)
        then Some (Ok (Receipt doc_id (upload_filename file)
                         (Py.len text_chunks)), self, d)
        else Some (Raise OSError, self, d)
    end
  else Some (Raise OSError, self, d).
End Disk.
Arguments _save_metadata {disk} joinpath write_metadata self d.
Arguments process_document {disk} joinpath write_upload write_metadata
  self d file.

(** The score of one chunk: for each word of the query that occurs in
    the content, the number of its occurrences. *)
Definition score_chunk (query_lower : text) (c : chunk) : Z :=
  let content_lower := Py.lower (content c) in
  fold_left
    (fun score word =>
       if Py.contains content_lower word
       then score + Py.count content_lower word
       else score)
    (Py.split query_lower) 0.

(** The loop over [self.chunks]. *)
Fixpoint scan (query_lower : text) (chunks : list chunk) : list scored :=
  match chunks with
  | [] => []
  | c :: rest =>
      let score := score_chunk query_lower c in
      if 0 <? score
      then Scored c score :: scan query_lower rest
      else scan query_lower rest
  end.

(** [key=lambda x: x["relevance_score"], reverse=True] *)
Definition by_score_desc (y x : scored) : bool :=
  relevance_score x <? relevance_score y.

Definition search_documents (self : t) (query : text) (top_k : Z)
    : list scored :=
  let query_lower := Py.lower query in
  let results := scan query_lower (chunks self) in
  let results := Py.sorted by_score_desc results in
  Py.slice results 0 top_k.

(** A fresh processor with nothing uploaded. *)
Definition new : t := Make (str "data/uploads") ∅ [] ∅.

End DocumentProcessor.

(* ===================================================================== *)
(** * [main.py]: the query cache *)
(* ===================================================================== *)

Module Main.

Definition CACHE_TTL_SECONDS : Z := 3600.

(** The ["timestamp"] of a cache entry is an ISO string. [Iso t] is
    [isoformat()] of the instant [t], counted in microseconds (the
    resolution of [datetime]); [NotIso] is any string that
    [datetime.fromisoformat] rejects, such as the empty string that
    [.get] falls back to when the key is missing. *)
Inductive isotime :=
| Iso (t : Z)
| NotIso.

(** What [rag_pipeline.process_query] returns, as [chat] reads it. *)
Record result := Result {
  result_answer : text;
  result_sources : list pyval;
  result_conversation_id : option (list ascii);
  result_confidence : option (list ascii);
  result_structured_data : option pyval
}.

(** An entry of [query_cache]. *)
Record entry := Entry {
  answer : text;
  sources : list pyval;
  confidence : option (list ascii);
  structured_data : option pyval;
  timestamp : isotime
}.

Record ChatRequest := Request {
  message : text;
  conversation_id : option (list ascii);
  filters : option (list (list ascii * pyval))
}.

Record ChatResponse := Response {
  response_answer : text;
  response_sources : list pyval;
  response_conversation_id : option (list ascii);
  response_confidence : option (list ascii)
}.

Definition get_query_hash (query : text)
    (filters : option (list (list ascii * pyval))) : text :=
  let cache_key := Py.strip (Py.lower query) in
  let cache_key :=
    match filters with
    | Some ((_ :: _) as items) => cache_key ++ Json.dumps (PDict items)
    | _ => cache_key
    end in
  MD5.hexdigest (Py.encode cache_key).

(** [total_seconds()] is the age in microseconds divided by [10^6];
    it is below the whole number [CACHE_TTL_SECONDS] exactly when the
    age in microseconds is below [CACHE_TTL_SECONDS * 10^6]. *)
Definition is_cache_valid (now : Z) (timestamp : isotime) : bool :=
  match timestamp with
  | Iso cached_time =>
      let age := now - cached_time in
      age <? CACHE_TTL_SECONDS * 1000000
  | NotIso => false
  end.

(** The test at the head of [chat]:
    [query_hash in query_cache and is_cache_valid(...)]. The cache is
    read and not changed. *)
Definition cache_lookup (query_cache : gmap (list ascii) entry)
    (query_hash : text) (now : Z) : option entry :=
  match query_cache !! query_hash with
  | Some cached_result =>
      if is_cache_valid now (timestamp cached_result)
      then Some cached_result else None
  | None => None
  end.

(** The assignment [query_cache[query_hash] = {...}] at the end of
    [chat]. *)
Definition cache_store (query_cache : gmap (list ascii) entry)
    (query_hash : text) (r : result) (now : Z) : gmap (list ascii) entry :=
  <[query_hash :=
      Entry (result_answer r) (result_sources r) (result_confidence r)
            (result_structured_data r) (Iso now)]> query_cache.

(** [query_cache.clear()] in [clear_cache]. *)
Definition clear_cache (query_cache : gmap (list ascii) entry)
    : gmap (list ascii) entry := ∅.

(** ["total_cached_queries"] and ["valid_cache_entries"] of
    [cache_stats]. *)
Definition cache_stats (query_cache : gmap (list ascii) entry) (now : Z)
    : Z * Z :=
  (Z.of_nat (size query_cache),
   Z.of_nat (size (filter (fun kv => is_cache_valid now (timestamp kv.2) = true)
                     query_cache))).

Inductive outcome :=
| Reply (r : ChatResponse)
| HTTP500.

(** A value that can be the key of a dictionary: lists and
    dictionaries are not hashable. *)
Definition hashable (v : pyval) : bool :=
  match v with
  | PList _ | PDict _ => false
  | _ => true
  end.

(** [source.get("filename", "unknown")] on a dictionary. *)
Definition filename_of (items : list (list ascii * pyval)) : pyval :=
  match List.find (fun kv => bool_decide (fst kv = str "filename")) items with
  | Some kv => snd kv
  | None => PStr (str "unknown")
  end.

(** The loop
    [for source in result.get("sources", []):
         document_usage[source.get("filename", "unknown")] += 1]:
    the keys counted, in order, or the exception that ends the loop. A
    source that is no dictionary has no [get], and a key that is not
    hashable is refused by [document_usage]. *)
Fixpoint count_sources (sources : list pyval) : res (list pyval) :=
  match sources with
  | [] => Ok []
  | PDict items :: rest =>
      if hashable (filename_of items)
      then keys <- count_sources rest ;; Ok (filename_of items :: keys)
      else Raise TypeError
  | _ :: _ => Raise AttributeError
  end.

(** [ChatResponse(answer=..., sources=..., ...)]: the validation of
    the model. The other fields have their types already; [sources] is
    a [List[Dict[str, Any]]]. [None] is the [ValidationError]. *)
Definition validate (answer : text) (sources : list pyval)
    (conversation_id confidence : option (list ascii))
    : option ChatResponse :=
  if forallb (fun source => match source with
                            | PDict _ => true
                            | _ => false
                            end) sources
  then Some (Response answer sources conversation_id confidence)
  else None.

(** [return ChatResponse(...)] inside the [try]: an exception becomes
    the answer with status 500. *)
Definition respond (response : option ChatResponse) : outcome :=
  match response with
  | Some r => Reply r
  | None => HTTP500
  end.

Section Chat.
(** [rag_pipeline.process_query]; [None] when it raises. *)
Variable process_query :
  text -> option (list ascii) -> option (list (list ascii * pyval))
  -> option result.

(** The [/chat] handler, for a request with a valid token. [now] is
    the clock when the cache is consulted and [later] the clock when
    the result is stored. Every exception between the cache test and
    the return is answered with status 500; the cache is a module
    variable and keeps what was stored before the exception. The lists
    [query_history] and [document_usage] are written and not read
    here: of their bookkeeping, the exceptions are kept. *)
Definition chat (query_cache : gmap (list ascii) entry)
    (request : ChatRequest) (now later : Z)
    : outcome * gmap (list ascii) entry :=
  let query_hash := get_query_hash (message request) (filters request) in
  match cache_lookup query_cache query_hash now with
  | Some cached_result =>
      (respond (validate (answer cached_result) (sources cached_result)
                  None (confidence cached_result)),
       query_cache)
  | None =>
      match process_query (message request) (conversation_id request)
              (filters request) with
      | Some r =>
          match count_sources (result_sources r) with
          | Ok _ =>
              (respond (validate (result_answer r) (result_sources r)
                          (result_conversation_id r) (result_confidence r)),
               cache_store query_cache query_hash r later)
          | Raise _ => (HTTP500, query_cache)
          end
      | None => (HTTP500, query_cache)
      end
  end.
End Chat.

End Main.

(* ===================================================================== *)
(** * Search hits and sources *)
(* ===================================================================== *)

Definition newline : ascii := ascii_of_nat 10.

(** A hit of the vector search [DocumentProcessor.search]: the text of
    the chunk and the ["filename"] and ["page"] of its metadata. *)
Record retrieved := Retrieved {
  hit_text : text;
  hit_filename : text;
  hit_page : Z
}.

(** An item of a ["sources"] list. *)
Record source := Source {
  source_filename : text;
  source_page : Z;
  text_preview : option (list ascii)
}.

(* ===================================================================== *)
(** * [structured_extractor.py] *)
(* ===================================================================== *)

Module StructuredExtractor.

(** What the generation service answers: the call raises, or the
    message has a content, which may be [None]. *)
Inductive completion :=
| ApiFailure
| Content (c : option (list ascii)).

Inductive extraction_type :=
| door_schedule
| room_summary
| equipment_list.

(** [re.search(r'\[.*\]', s, re.DOTALL)]: from the first opening
    bracket to the last closing bracket after it. *)
Fixpoint from_first (c : ascii) (s : text) : option (list ascii) :=
  match s with
  | [] => None
  | a :: s' => if ascii_dec a c then Some s else from_first c s'
  end.

Definition json_match (s : text) : option (list ascii) :=
  match from_first "["%char s with
  | Some (open :: rest) =>
      match from_first "]"%char (rev rest) with
      | Some r => Some (open :: rev r)
      | None => None
      end
  | _ => None
  end.

Definition is_list (v : pyval) : bool :=
  match v with PList _ => true | _ => false end.

(** [key in data] *)
Definition py_in (key : text) (data : pyval) : res bool :=
  match data with
  | PDict items => Ok (bool_decide (key ∈ map fst items))
  | PStr s => Ok (Py.contains s key)
  | PList l =>
      Ok (existsb (fun x => match x with
                            | PStr s => bool_decide (s = key)
                            | _ => false
                            end) l)
  | _ => Raise TypeError
  end.

Fixpoint assoc {V} (key : text) (items : list (list ascii * V)) : option V :=
  match items with
  | [] => None
  | (k, v) :: rest => if decide (k = key) then Some v else assoc key rest
  end.

(** [data[key]] for a string [key] *)
Definition py_getitem (data : pyval) (key : text) : res pyval :=
  match data with
  | PDict items =>
      match assoc key items with
      | Some v => Ok v
      | None => Raise KeyError
      end
  | _ => Raise TypeError
  end.

Definition common_keys : list (list ascii) :=
  [str "data"; str "items"; str "results"; str "doors"; str "rooms";
   str "equipment"].

(** The loop [for key in [...]] over the common keys. *)
Fixpoint scan_keys (data : pyval) (keys : list (list ascii)) : res pyval :=
  match keys with
  | [] => Ok (PList [])
  | key :: rest =>
      found <- py_in key data ;;
      if (found : bool) then
        v <- py_getitem data key ;;
        if is_list v then Ok v else scan_keys data rest
      else scan_keys data rest
  end.

(** [set]-free rendering of [_extract_sources]: the keys seen so far
    are kept in a list. *)
Fixpoint sources_loop (docs : list retrieved) (seen : list (list ascii))
    : list source :=
  match docs with
  | [] => []
  | doc :: rest =>
      let source_key :=
        hit_filename doc ++ str "_" ++ Py.str_of_int (hit_page doc) in
      if bool_decide (source_key ∈ seen)
      then sources_loop rest seen
      else Source (hit_filename doc) (hit_page doc) None
           :: sources_loop rest (source_key :: seen)
  end.

Definition _extract_sources (docs : list retrieved) : list source :=
  Py.slice (sources_loop docs []) 0 10.

Definition _build_extraction_context (docs : list retrieved) : text :=
  Py.join [newline; newline]
    (map (fun doc =>
            str "[" ++ hit_filename doc ++ str ", Page "
            ++ Py.str_of_int (hit_page doc) ++ str "]" ++ [newline]
            ++ hit_text doc)
         (Py.slice docs 0 15)).

(** [{doc['text']: doc for doc in all_docs}]: a text keeps the place
    of its first hit and the value of its last. *)
Fixpoint dict_set {V} (key : text) (v : V) (items : list (list ascii * V))
    : list (list ascii * V) :=
  match items with
  | [] => [(key, v)]
  | (k, v') :: rest =>
      if decide (k = key) then (k, v) :: rest
      else (k, v') :: dict_set key v rest
  end.

Definition unique_docs (all_docs : list retrieved) : list retrieved :=
  map snd (fold_left (fun d doc => dict_set (hit_text doc) doc d) all_docs []).

Section Extractor.
(** [self.doc_processor.search(query, n_results)] *)
Variable search : text -> Z -> list retrieved.
(** [self.client.chat.completions.create] on the user prompt. *)
Variable create : text -> completion.
(** [json.loads]; [None] is [json.JSONDecodeError]. *)
Variable json_loads : text -> option pyval.
(** The three prompt templates, applied to the context. *)
Variable prompt : extraction_type -> text -> text.

(** The inner [try] of [_extract_with_gpt]. *)
Definition parse_direct (result_text : text) : res pyval :=
  match json_loads result_text with
  | None => Raise JSONDecodeError
  | Some data =>
      if is_list data then Ok data else scan_keys data common_keys
  end.

(** The handler of [json.JSONDecodeError]. *)
Definition parse_recover (result_text : text) : res pyval :=
  match json_match result_text with
  | Some m =>
      match json_loads m with
      | Some v => Ok v
      | None => Raise JSONDecodeError
      end
  | None => Ok (PList [])
  end.

Definition is_decode_error (e : exn) : bool :=
  match e with JSONDecodeError => true | _ => false end.

Definition _extract_with_gpt (prompt : text) : res pyval :=
  try_except
    (match create prompt with
     | ApiFailure => Raise APIError
     | Content None => Raise TypeError
     | Content (Some result_text) =>
         try_except (parse_direct result_text) is_decode_error
           (parse_recover result_text)
     end)
    (fun _ => true)
    (Ok (PList [])).

Definition queries (t : extraction_type) : list (list ascii) :=
  match t with
  | door_schedule =>
      [str "door schedule specifications";
       str "door types fire rating dimensions";
       str "door hardware requirements"]
  | room_summary =>
      [str "room schedule area floor finish";
       str "room types specifications ceiling";
       str "space planning room dimensions"]
  | equipment_list =>
      [str "mechanical equipment HVAC specifications";
       str "electrical equipment MEP systems";
       str "plumbing fixtures equipment schedule"]
  end.

(** The common body of [_extract_door_schedule],
    [_extract_room_summary] and [_extract_equipment_list]. *)
Definition run (t : extraction_type) : res (pyval * list source) :=
  let all_docs := flat_map (fun query => search query 10) (queries t) in
  let docs := unique_docs all_docs in
  let context := _build_extraction_context docs in
  data <- _extract_with_gpt (prompt t context) ;;
  Ok (data, _extract_sources docs).

Definition type_of_name (name : text) : option extraction_type :=
  if decide (name = str "door_schedule") then Some door_schedule
  else if decide (name = str "room_summary") then Some room_summary
  else if decide (name = str "equipment_list") then Some equipment_list
  else None.

Definition extract (name : text) : res (pyval * list source) :=
  match type_of_name name with
  | Some t => run t
  | None => Raise ValueError
  end.
End Extractor.

End StructuredExtractor.

(* ===================================================================== *)
(** * [rag_pipeline.py] *)
(* ===================================================================== *)

Module RAGPipeline.

(** A turn of a conversation, and a message of a prompt. *)
Record turn := Turn {
  role : text;
  turn_content : text
}.

(** The dictionary that [process_query] returns. A key that the
    dictionary does not have is [None]: none of the dictionaries built
    in this file has a ["confidence"]. *)
Record response := Response {
  answer : text;
  sources : list source;
  conversation_id : text;
  structured_data : option pyval;
  confidence : option (list ascii)
}.

(** What the chat model answers: the call raises with a message, or
    the reply has a content. *)
Inductive chat_completion :=
| ChatFailure (message : text)
| ChatContent (c : text).

Definition no_information : text :=
  str "I couldn't find any relevant information in the documents. Please make sure documents have been uploaded.".

Definition system_prompt : text :=
  str "You are an expert AI assistant for construction project management. "
  ++ [newline]
  ++ str "Your role is to answer questions about construction documents accurately and concisely."
  ++ [newline; newline]
  ++ str "Guidelines:" ++ [newline]
  ++ str "- Base your answers ONLY on the provided context from the documents"
  ++ [newline]
  ++ str "- If information is not in the context, say so clearly" ++ [newline]
  ++ str "- Cite specific sources when making claims" ++ [newline]
  ++ str "- Be precise about technical specifications (materials, dimensions, ratings)"
  ++ [newline]
  ++ str "- If asked about conflicting information, highlight the discrepancies"
  ++ [newline]
  ++ str "- Keep answers concise but complete".

Definition extraction_keywords : list (list ascii) :=
  [str "door schedule"; str "generate a door schedule";
   str "room summary"; str "list all rooms";
   str "equipment list"; str "mep equipment"].

Definition _is_extraction_request (query : text) : bool :=
  let query_lower := Py.lower query in
  existsb (fun keyword => Py.contains query_lower keyword) extraction_keywords.

Definition _build_context (retrieved_docs : list retrieved) : text :=
  Py.join [newline; newline]
    (map (fun doc =>
            str "[" ++ hit_filename doc ++ str ", Page "
            ++ Py.str_of_int (hit_page doc) ++ str "]" ++ [newline]
            ++ hit_text doc)
         retrieved_docs).

Fixpoint sources_loop (docs : list retrieved) (seen : list (list ascii))
    : list source :=
  match docs with
  | [] => []
  | doc :: rest =>
      let source_key :=
        hit_filename doc ++ str "_" ++ Py.str_of_int (hit_page doc) in
      if bool_decide (source_key ∈ seen)
      then sources_loop rest seen
      else
        let preview :=
          if 200 <? Py.len (hit_text doc)
          then Py.slice (hit_text doc) 0 200 ++ str "..."
          else hit_text doc in
        Source (hit_filename doc) (hit_page doc) (Some preview)
        :: sources_loop rest (source_key :: seen)
  end.

Definition _format_sources (retrieved_docs : list retrieved) : list source :=
  sources_loop retrieved_docs [].

(** [item.get(key, default)] on an item of the extracted data. *)
Definition get (item : pyval) (key default : text) : res pyval :=
  match item with
  | PDict items =>
      Ok (match StructuredExtractor.assoc key items with
          | Some v => v
          | None => PStr default
          end)
  | _ => Raise AttributeError
  end.

(** [extraction_type.replace('_', ' ')] *)
Definition spaced (s : text) : text :=
  map (fun c => if ascii_dec c "_"%char then " "%char else c) s.

Section Pipeline.
(** [self.doc_processor.search(query, n_results)] *)
Variable search : text -> Z -> list retrieved.
(** [str(uuid.uuid4())] *)
Variable uuid4 : text.
(** [self.client.chat.completions.create] on the messages. *)
Variable chat_create : list turn -> chat_completion.
(** The generation service, [json.loads] and the prompt templates of
    the structured extractor. *)
Variable create : text -> StructuredExtractor.completion.
Variable json_loads : text -> option pyval.
Variable prompt : StructuredExtractor.extraction_type -> text -> text.
(** The bullet that starts a line of an extraction answer (U+2022),
    and the [str()] of a list or dictionary inside an f-string. *)
Variable bullet : text.
Variable repr : pyval -> text.

Definition _generate_answer (query context : text) (history : list turn)
    : text :=
  let messages := [Turn (str "system") system_prompt] in
  let messages := messages ++ Py.slice history (-10) (Py.len history) in
  let user_message :=
    str "Context from project documents:" ++ [newline; newline]
    ++ context ++ [newline; newline]
    ++ str "Question: " ++ query ++ [newline; newline]
    ++ str "Please answer based on the context above." in
  let messages := messages ++ [Turn (str "user") user_message] in
  match chat_create messages with
  | ChatContent c => c
  | ChatFailure e => str "Error generating answer: " ++ e
  end.

(** A value inside an f-string. *)
Definition format_value (v : pyval) : text :=
  match v with
  | PNone => str "None"
  | PBool true => str "True"
  | PBool false => str "False"
  | PInt n => Py.str_of_int n
  | PFloat r => r
  | PStr s => s
  | _ => repr v
  end.

Definition field (item : pyval) (key : text) : res (list ascii) :=
  v <- get item key (str "N/A") ;; Ok (format_value v).

Definition format_item (extraction_type : text) (item : pyval)
    : res (list ascii) :=
  if decide (extraction_type = str "door_schedule") then
    mark <- field item (str "mark") ;;
    width <- field item (str "width_mm") ;;
    height <- field item (str "height_mm") ;;
    rating <- field item (str "fire_rating") ;;
    material <- field item (str "material") ;;
    Ok (bullet ++ str " " ++ mark ++ str ": " ++ width ++ str "mm "
        ++ [ascii_of_nat 215] ++ str " " ++ height ++ str "mm, "
        ++ str "Fire Rating: " ++ rating ++ str ", "
        ++ str "Material: " ++ material ++ [newline])
  else if decide (extraction_type = str "room_summary") then
    name <- field item (str "name") ;;
    area <- field item (str "area_sqm") ;;
    finish <- field item (str "floor_finish") ;;
    Ok (bullet ++ str " " ++ name ++ str ": " ++ str "Area: " ++ area
        ++ str "m" ++ [ascii_of_nat 178] ++ str ", "
        ++ str "Finish: " ++ finish ++ [newline])
  else
    type <- field item (str "type") ;;
    description <- field item (str "description") ;;
    Ok (bullet ++ str " " ++ type ++ str ": " ++ description ++ [newline]).

Fixpoint format_items (extraction_type : text) (data : list pyval)
    (text : text) : res (list ascii) :=
  match data with
  | [] => Ok text
  | item :: rest =>
      line <- format_item extraction_type item ;;
      format_items extraction_type rest (text ++ line)
  end.

Definition _format_extraction_as_text (data : list pyval)
    (extraction_type : text) : res (list ascii) :=
  match data with
  | [] =>
      Ok (str "No " ++ spaced extraction_type
          ++ str " data found in the documents.")
  | _ =>
      let found := str "I found " ++ Py.str_of_int (Py.len data) in
      let text :=
        if decide (extraction_type = str "door_schedule") then
          found ++ str " doors in the documents:" ++ [newline; newline]
        else if decide (extraction_type = str "room_summary") then
          found ++ str " rooms in the documents:" ++ [newline; newline]
        else found ++ str " equipment items:" ++ [newline; newline] in
      format_items extraction_type data text
  end.

(** [_extract_with_gpt] returns a list; the other values are not
    reached and stand for a [TypeError]. *)
Definition _handle_extraction_request (query conversation_id : text)
    : res response :=
  let query_lower := Py.lower query in
  let extraction_type :=
    if Py.contains query_lower (str "door") then str "door_schedule"
    else if Py.contains query_lower (str "room") then str "room_summary"
    else str "equipment_list" in
  result <- StructuredExtractor.extract search create json_loads prompt
              extraction_type ;;
  match fst result with
  | PList data =>
      answer <- _format_extraction_as_text data extraction_type ;;
      Ok (Response answer (snd result) conversation_id
            (Some (PList data)) None)
  | _ => Raise TypeError
  end.

(** [process_query]: the outcome and the conversations afterwards. *)
Definition process_query (conversations : gmap (list ascii) (list turn))
    (query : text) (conversation_id : option (list ascii))
    : res response * gmap (list ascii) (list turn) :=
  let '(conversation_id, conversations) :=
    match conversation_id with
    | Some (c :: cs) => (c :: cs, conversations)
    | _ => (uuid4, <[uuid4 := []]> conversations)
    end in
  if _is_extraction_request query then
    (_handle_extraction_request query conversation_id, conversations)
  else
    let retrieved_docs := search query 5 in
    match retrieved_docs with
    | [] => (Ok (Response no_information [] conversation_id None None),
             conversations)
    | _ :: _ =>
        let context := _build_context retrieved_docs in
        let history := default [] (conversations !! conversation_id) in
        let answer := _generate_answer query context history in
        let sources := _format_sources retrieved_docs in
        match conversations !! conversation_id with
        | None => (Raise KeyError, conversations)
        | Some turns =>
            (Ok (Response answer sources conversation_id None None),
             <[conversation_id :=
                 turns ++ [Turn (str "user") query;
                           Turn (str "assistant") answer]]> conversations)
        end
    end.
End Pipeline.

End RAGPipeline.

(* ===================================================================== *)
(** * [evaluation.py] *)
(* ===================================================================== *)

Module Evaluation.

(** A test case of [self.test_queries]. *)
Record test_case := TestCase {
  query : list ascii;
  expected_keywords : list (list ascii);
  category : list ascii
}.

(** The result of a test case. The keys ["answer"] (for a failure it
    carries the text of the exception) and ["keyword_score"] (the score
    rounded to two decimals) are written for the report and read by no
    code; they are left out. *)
Record result := Result {
  result_query : list ascii;
  result_category : list ascii;
  sources_count : Z;
  correctness : list ascii;
  has_sources : bool
}.

(** The test cases that [__init__] sets. *)
Definition test_queries : list test_case :=
  [TestCase (str "What is the fire rating for corridor partitions?")
     [str "fire"; str "rating"; str "corridor"; str "partition"; str "hour";
      str "hr"]
     (str "specifications");
   TestCase (str "What flooring material is specified for the lobby?")
     [str "floor"; str "lobby"; str "material"; str "finish"]
     (str "materials");
   TestCase (str "Are there any accessibility requirements for doors?")
     [str "accessibility"; str "door"; str "ada"; str "requirement";
      str "clearance"]
     (str "compliance");
   TestCase (str "What are the door dimensions?")
     [str "door"; str "dimension"; str "width"; str "height"; str "mm";
      str "size"]
     (str "dimensions");
   TestCase (str "What types of HVAC systems are specified?")
     [str "hvac"; str "system"; str "mechanical"; str "air";
      str "conditioning"]
     (str "mep");
   TestCase (str "What is the ceiling height in the main corridor?")
     [str "ceiling"; str "height"; str "corridor"; str "meter"; str "mm"]
     (str "dimensions");
   TestCase (str "What is the wall construction specification?")
     [str "wall"; str "construction"; str "partition"; str "specification"]
     (str "specifications");
   TestCase (str "Are there fire safety systems specified?")
     [str "fire"; str "safety"; str "system"; str "alarm"; str "sprinkler";
      str "suppression"]
     (str "safety")].

(** An [int] as a [float]; exact below [2^53]. *)
Definition float_of_int (n : Z) : float :=
  PrimFloat.of_uint63 (Uint63.of_Z n).

(** [a / b] on two counts: the binary64 quotient, or [None] for the
    [ZeroDivisionError]. *)
Definition true_div (a b : Z) : option float :=
  if b =? 0 then None
  else Some (PrimFloat.div (float_of_int a) (float_of_int b)).

(** The result of a test case whose query failed. *)
Definition failed (test_case : test_case) : result :=
  Result (query test_case) (category test_case) 0 (str "error") false.

(** The [try] block of [_evaluate_query], from the response on. *)
Definition judge (test_case : test_case) (response : RAGPipeline.response)
    : result :=
  let answer := Py.lower (RAGPipeline.answer response) in
  let sources := RAGPipeline.sources response in
  let keyword_matches :=
    Py.len (List.filter (fun keyword => Py.contains answer keyword)
              (expected_keywords test_case)) in
  match true_div keyword_matches (Py.len (expected_keywords test_case)) with
  | None => failed test_case
  | Some keyword_score =>
      let has_sources := 0 <? Py.len sources in
      let has_answer :=
        (20 <? Py.len answer)
        && negb (Py.contains (Py.lower answer) (str "error")) in
      let correctness :=
        if PrimFloat.leb 0.3 keyword_score && has_sources && has_answer
        then str "correct"
        else if PrimFloat.leb 0.2 keyword_score && has_answer
        then str "partially_correct"
        else str "incorrect" in
      Result (query test_case) (category test_case) (Py.len sources)
        correctness has_sources
  end.

Section Evaluation.
(** The services of the pipeline, as in [RAGPipeline]. *)
Variable search : list ascii -> Z -> list retrieved.
Variable chat_create : list RAGPipeline.turn -> RAGPipeline.chat_completion.
Variable create : list ascii -> StructuredExtractor.completion.
Variable json_loads : list ascii -> option pyval.
Variable prompt :
  StructuredExtractor.extraction_type -> list ascii -> list ascii.
Variable bullet : list ascii.
Variable repr : pyval -> list ascii.

(** [_evaluate_query]: the result, and the conversations of the
    pipeline afterwards. [uuid4] is the identifier that the pipeline
    draws for this query. *)
Definition _evaluate_query (uuid4 : list ascii)
    (conversations : gmap (list ascii) (list RAGPipeline.turn))
    (test_case : test_case)
    : result * gmap (list ascii) (list RAGPipeline.turn) :=
  let '(outcome, conversations) :=
    RAGPipeline.process_query search uuid4 chat_create create json_loads
      prompt bullet repr conversations (query test_case) None in
  match outcome with
  | Ok response => (judge test_case response, conversations)
  | Raise _ => (failed test_case, conversations)
  end.

(** The loop of [run_evaluation]. [uuids] gives the identifier that
    the pipeline draws in each round. *)
Fixpoint evaluation_loop (uuids : nat -> list ascii) (round : nat)
    (test_queries : list test_case)
    (conversations : gmap (list ascii) (list RAGPipeline.turn))
    (results : list result)
    : list result * gmap (list ascii) (list RAGPipeline.turn) :=
  match test_queries with
  | [] => (results, conversations)
  | test_case :: rest =>
      let '(result, conversations) :=
        _evaluate_query (uuids round) conversations test_case in
      evaluation_loop uuids (S round) rest conversations (results ++ [result])
  end.
End Evaluation.

(** The dictionary that [_calculate_summary] starts from. *)
Definition empty_summary : gmap (list ascii) Z :=
  <[str "correct" := 0]>
    (<[str "partially_correct" := 0]>
       (<[str "incorrect" := 0]>
          (<[str "error" := 0]>
             (<[str "total_with_sources" := 0]> ∅)))).

(** [summary[key] += 1] *)
Definition increment (key : list ascii) (summary : gmap (list ascii) Z)
    : res (gmap (list ascii) Z) :=
  match summary !! key with
  | Some n => Ok (<[key := n + 1]> summary)
  | None => Raise KeyError
  end.

(** The body of the loop over the results. *)
Definition count_result (summary : gmap (list ascii) Z) (result : result)
    : res (gmap (list ascii) Z) :=
  summary <-
    match summary !! correctness result with
    | Some _ => increment (correctness result) summary
    | None => Ok summary
    end ;;
  if has_sources result
  then increment (str "total_with_sources") summary
  else Ok summary.

Fixpoint summary_loop (results : list result)
    (summary : gmap (list ascii) Z) : res (gmap (list ascii) Z) :=
  match results with
  | [] => Ok summary
  | result :: rest =>
      summary <- count_result summary result ;;
      summary_loop rest summary
  end.

Definition _calculate_summary (results : list result)
    : res (gmap (list ascii) Z) :=
  summary_loop results empty_summary.

(** What [run_evaluation] returns: ["total_queries"], ["results"] and
    ["summary"]. *)
Record report := Report {
  total_queries : Z;
  results : list result;
  summary : gmap (list ascii) Z
}.

Section Run.
Variable search : list ascii -> Z -> list retrieved.
Variable chat_create : list RAGPipeline.turn -> RAGPipeline.chat_completion.
Variable create : list ascii -> StructuredExtractor.completion.
Variable json_loads : list ascii -> option pyval.
Variable prompt :
  StructuredExtractor.extraction_type -> list ascii -> list ascii.
Variable bullet : list ascii.
Variable repr : pyval -> list ascii.

(** [run_evaluation] over the test cases of [self.test_queries]. *)
Definition run_evaluation (uuids : nat -> list ascii)
    (test_queries : list test_case)
    (conversations : gmap (list ascii) (list RAGPipeline.turn))
    : res report * gmap (list ascii) (list RAGPipeline.turn) :=
  let '(results, conversations) :=
    evaluation_loop search chat_create create json_loads prompt bullet repr
      uuids 0 test_queries conversations [] in
  (summary <- _calculate_summary results ;;
   Ok (Report (Py.len results) results summary),
   conversations).
End Run.

End Evaluation.

(* ===================================================================== *)
(** * Sample data *)
(* ===================================================================== *)

Module Examples.
Import DocumentProcessor.

(** A one-page document. *)
Definition spec_pdf : upload :=
  Upload (str "spec.pdf")
    [Some (str "Fire rating: 1 HR for corridor partitions.")].

(** A store with three chunks. *)
Definition store : t :=
  Make (str "data/uploads") ∅
    [Chunk (str "d_page1_chunk0") (str "d") (str "spec.pdf") 1 0
       (str "Fire rating: 1 HR for corridor partitions.");
     Chunk (str "d_page2_chunk0") (str "d") (str "spec.pdf") 2 0
       (str "Floor finish: carpet.");
     Chunk (str "d_page3_chunk0") (str "d") (str "spec.pdf") 3 0
       (str "Door D-101: fire rating 1 HR, hollow metal.")]
    ∅.

(** A vector search that always finds one passage, and one that
    finds nothing. *)
Definition one_hit (query : text) (n_results : Z) : list retrieved :=
  [Retrieved (str "Fire rating: 1 HR for corridor partitions.")
     (str "spec.pdf") 1].

Definition no_hit (query : text) (n_results : Z) : list retrieved := [].

(** A chat model that always gives the same reply. *)
Definition chat_reply (messages : list RAGPipeline.turn)
    : RAGPipeline.chat_completion :=
  RAGPipeline.ChatContent (str "1 HR").

(** A generation service that answers with an empty array, and a
    parser that reads nothing but the empty array. *)
Definition create_empty (prompt : text) : StructuredExtractor.completion :=
  StructuredExtractor.Content (Some (str "[]")).

Definition loads_empty (s : text) : option pyval :=
  if decide (s = str "[]") then Some (PList []) else None.

Definition prompt_context (t : StructuredExtractor.extraction_type)
    (context : text) : list ascii :=
  context.

Definition repr_none (v : pyval) : list ascii := [].

(** The third chunk of [store]. *)
Definition door_chunk : chunk :=
  Chunk (str "d_page3_chunk0") (str "d") (str "spec.pdf") 3 0
    (str "Door D-101: fire rating 1 HR, hollow metal.").

(** A pipeline that always gives the same result, with one source,
    and one that always fails. *)
Definition page_one : pyval :=
  PDict [(str "filename", PStr (str "spec.pdf")); (str "page", PInt 1)].

Definition answered (query : text) (conversation_id : option (list ascii))
    (filters : option (list (list ascii * pyval))) : option Main.result :=
  Some (Main.Result (str "1 HR") [page_one] (Some (str "id-1"))
          (Some (str "high")) None).

Definition unavailable (query : text) (conversation_id : option (list ascii))
    (filters : option (list (list ascii * pyval))) : option Main.result :=
  None.

(** A cache whose only entry was stored at the instant 0. *)
Definition stale_cache : gmap (list ascii) Main.entry :=
  <[Main.get_query_hash (str "Fire rating") None :=
      Main.Entry (str "2 HR") [] None None (Main.Iso 0)]> ∅.



(** A store of conversations with one conversation. *)
Definition earlier : list RAGPipeline.turn :=
  [RAGPipeline.Turn (str "user") (str "door width?");
   RAGPipeline.Turn (str "assistant") (str "900 mm")].

Definition talk : gmap (list ascii) (list RAGPipeline.turn) :=
  <[str "c1" := earlier]> ∅.

(** A generation service that answers with an object, and a parser
    that reads nothing but that object. *)
Definition object_text : text :=
  str "{" ++ [Json.quote] ++ str "doors" ++ [Json.quote] ++ str ": [{}]}".

Definition create_object (prompt : text) : StructuredExtractor.completion :=
  StructuredExtractor.Content (Some object_text).

Definition loads_object (s : text) : option pyval :=
  if decide (s = object_text)
  then Some (PDict [(str "doors", PList [PDict []])])
  else None.

(** A chat model that is out of service. *)
Definition chat_down (messages : list RAGPipeline.turn)
    : RAGPipeline.chat_completion :=
  RAGPipeline.ChatFailure (str "Connection error.").

(** A disk that takes every write, kept as the list of the paths
    written, with path names joined by a slash; and a disk that takes
    no write. *)
Definition joinpath (dir name : text) : text := dir ++ str "/" ++ name.

Definition write_upload (d : list (list ascii)) (path : text) (file : upload)
    : bool * list (list ascii) :=
  (true, d ++ [path]).

Definition write_metadata (d : list (list ascii)) (path : text)
    (metadata : gmap (list ascii) metadata) : bool * list (list ascii) :=
  (true, d ++ [path]).

Definition refuse_upload (d : list (list ascii)) (path : text) (file : upload)
    : bool * list (list ascii) :=
  (false, d).






End Examples.

(* ===================================================================== *)
(** * Notions used to state the properties *)
(* ===================================================================== *)

Module Notions.

(** [ceil (a / b)] for a positive [b]. *)
Definition ceil_div (a b : Z) : Z := - (- a / b).

(** A text of white space only. *)
Definition blank (s : text) : Prop :=
  Forall (fun c => Py.isspace c = true) s.

(** A text is trimmed when it neither starts nor ends with white
    space. *)
Definition trimmed (s : text) : Prop :=
  (forall c s', s = c :: s' -> Py.isspace c = false)
  /\ (forall c s', s = s' ++ [c] -> Py.isspace c = false).

(** The [i]-th window of the chunker: [chunk_size] characters from
    position [i * (chunk_size - overlap)], before they are stripped. *)
Definition window (text : text) (chunk_size overlap : Z) (i : nat)
    : list ascii :=
  Py.slice text (Z.of_nat i * (chunk_size - overlap))
    (Z.of_nat i * (chunk_size - overlap) + chunk_size).

(** The search results with a given relevance score. *)
Definition has_score (s : Z) (r : DocumentProcessor.scored) : bool :=
  DocumentProcessor.relevance_score r =? s.

(** A list of results is ranked when no result has a lower relevance
    score than a later one. *)
Definition ranked (results : list DocumentProcessor.scored) : Prop :=
  StronglySorted
    (fun a b => DocumentProcessor.relevance_score b
                <= DocumentProcessor.relevance_score a)
    results.


(** A chunk matches a query when a word of the query occurs in its
    content, letter case apart. *)
Definition matches (query : text) (c : DocumentProcessor.chunk) : bool :=
  existsb
    (fun word => Py.contains (Py.lower (DocumentProcessor.content c)) word)
    (Py.split (Py.lower query)).

(** What a chunk of an extraction looks like. [first] is the number of
    the first page of [pages]. *)
Definition extracted (doc_id fn : text) (first : Z)
    (pages : list (option (list ascii))) (c : DocumentProcessor.chunk)
    : Prop :=
  DocumentProcessor.document_id c = doc_id
  /\ DocumentProcessor.filename c = fn
  /\ DocumentProcessor.id c
     = doc_id ++ str "_page"
       ++ Py.str_of_int (DocumentProcessor.page_number c)
       ++ str "_chunk" ++ Py.str_of_int (DocumentProcessor.chunk_index c)
  /\ 0 <= DocumentProcessor.chunk_index c
  /\ first <= DocumentProcessor.page_number c
  /\ trimmed (DocumentProcessor.content c)
  /\ Py.len (DocumentProcessor.content c) <= 1000
  /\ exists text before after,
       nth_error pages (Z.to_nat (DocumentProcessor.page_number c - first))
       = Some (Some text)
       /\ text = before ++ DocumentProcessor.content c ++ after.

(** The file and page that a source names, and that a hit comes from. *)
Definition cited (s : source) : list ascii * Z :=
  (source_filename s, source_page s).

Definition origin (doc : retrieved) : list ascii * Z :=
  (hit_filename doc, hit_page doc).

(** The key [f"{filename}_{page}"] under which a hit is remembered. *)
Definition source_key (doc : retrieved) : list ascii :=
  hit_filename doc ++ str "_" ++ Py.str_of_int (hit_page doc).

(** An item of extracted data that is a JSON object. *)
Definition is_object (item : pyval) : bool :=
  match item with PDict _ => true | _ => false end.

(** The number of items of a list that pass a test. *)
Definition tally {A} (p : A -> bool) (l : list A) : Z :=
  Py.len (List.filter p l).

(** The results of an evaluation with a given verdict. *)
Definition judged (verdict : text) (r : Evaluation.result) : bool :=
  bool_decide (Evaluation.correctness r = verdict).

(** What one result adds to the counter under [key]. *)
Definition added (key : text) (r : Evaluation.result) : Z :=
  (if judged key r then 1 else 0)
  + (if bool_decide (key = str "total_with_sources")
        && Evaluation.has_sources r
     then 1 else 0).

(** A source that [chat] can count and return: a dictionary whose
    ["filename"], if it has one, is hashable. *)
Definition countable (source : pyval) : bool :=
  match source with
  | PDict items => Main.hashable (Main.filename_of items)
  | _ => false
  end.

(** A result is well judged when its verdict is one of the four, it is
    correct only with sources, it has no sources when the query failed,
    and it has sources exactly when it counts some. *)
Definition judged_well (r : Evaluation.result) : Prop :=
  In (Evaluation.correctness r)
    [str "correct"; str "partially_correct"; str "incorrect"; str "error"]
  /\ (Evaluation.correctness r = str "correct" ->
      Evaluation.has_sources r = true)
  /\ (Evaluation.correctness r = str "error" ->
      Evaluation.has_sources r = false)
  /\ (Evaluation.has_sources r = true <-> 0 < Evaluation.sources_count r).

End Notions.

(* ===================================================================== *)
(** * Properties of the builtins *)
(* ===================================================================== *)

Module PyFacts.
Import Py Notions.

(** ** Rounding up *)

Lemma ceil_div_nonpos a b : 0 < b -> a <= 0 -> ceil_div a b <= 0.
Proof.
  intros Hb Ha. unfold ceil_div.
  assert (0 <= - a / b) by (apply Z.div_pos; lia). lia.
Qed.

Lemma ceil_div_pos a b : 0 < b -> 0 < a -> 1 <= ceil_div a b.
Proof.
  intros Hb Ha. unfold ceil_div.
  assert (- a / b < 0) by (apply Z.div_lt_upper_bound; lia). lia.
Qed.

Lemma ceil_div_step a b : 0 < b -> ceil_div (a - b) b = ceil_div a b - 1.
Proof.
  intros Hb. unfold ceil_div.
  replace (- (a - b)) with (- a + 1 * b) by lia.
  rewrite Z.div_add by lia. lia.
Qed.

Lemma ceil_div_le a b : 0 < b -> 0 <= a -> ceil_div a b <= a.
Proof.
  intros Hb Ha. unfold ceil_div.
  pose proof (Z.div_mod (- a) b ltac:(lia)) as E.
  pose proof (Z.mod_pos_bound (- a) b Hb) as B. nia.
Qed.

(** The usual way to compute it with a floor division. *)
Lemma ceil_div_floor a b : 0 < b -> ceil_div a b = (a + b - 1) / b.
Proof.
  intros Hb. unfold ceil_div.
  pose proof (Z.div_mod (- a) b ltac:(lia)) as E.
  pose proof (Z.mod_pos_bound (- a) b Hb) as B.
  apply Z.div_unique with (r := (b - 1 - (- a) mod b)); lia.
Qed.

(** Case analysis on the integer comparison that the goal branches
    on. *)
Ltac case_ltb :=
  match goal with
  | |- context [Z.ltb ?a ?b] => destruct (Z.ltb_spec a b)
  end.

(** ** Slices *)

Lemma len_nonneg {A} (l : list A) : 0 <= len l.
Proof. unfold len. lia. Qed.

Lemma len_app {A} (l1 l2 : list A) : len (l1 ++ l2) = len l1 + len l2.
Proof. unfold len. rewrite length_app. lia. Qed.

(** A slice between two bounds that are not negative. *)
Lemma slice_nonneg {A} (l : list A) start stop :
  0 <= start -> 0 <= stop ->
  slice l start stop
  = firstn (Z.to_nat (Z.min stop (len l) - Z.min start (len l)))
      (skipn (Z.to_nat (Z.min start (len l))) l).
Proof.
  intros H1 H2. unfold slice, slice_index.
  destruct (Z.ltb_spec start 0); [lia|].
  destruct (Z.ltb_spec stop 0); [lia|]. reflexivity.
Qed.

(** A window that starts inside the list: the characters from
    [start], [size] of them or as many as are left. *)
Lemma slice_window {A} (l : list A) start size :
  0 <= start < len l -> 0 <= size ->
  slice l start (start + size)
  = firstn (Z.to_nat size) (skipn (Z.to_nat start) l).
Proof.
  intros H1 H2. rewrite slice_nonneg by lia.
  rewrite (Z.min_l start) by lia.
  destruct (Z.le_gt_cases (start + size) (len l)).
  - rewrite Z.min_l by lia. f_equal. lia.
  - rewrite Z.min_r by lia.
    rewrite !firstn_all2; [reflexivity| |];
      rewrite length_skipn; unfold len in *; lia.
Qed.

Lemma slice_window_length {A} (l : list A) start size :
  0 <= start < len l -> 0 <= size ->
  len (slice l start (start + size)) = Z.min size (len l - start).
Proof.
  intros H1 H2. rewrite slice_window by lia.
  unfold len in *. rewrite length_firstn, length_skipn. lia.
Qed.

(** The first [k] elements. *)
Lemma slice_prefix {A} (l : list A) k :
  0 <= k -> slice l 0 k = firstn (Z.to_nat k) l.
Proof.
  intros Hk. rewrite slice_nonneg by lia.
  rewrite (Z.min_l 0) by apply len_nonneg.
  rewrite Z.sub_0_r, Z2Nat.inj_0, skipn_O.
  destruct (Z.le_gt_cases k (len l)).
  - rewrite Z.min_l by lia. reflexivity.
  - rewrite Z.min_r by lia. unfold len in *.
    rewrite !firstn_all2 by lia. reflexivity.
Qed.

Lemma slice_prefix_length {A} (l : list A) k :
  0 <= k -> len (slice l 0 k) <= k.
Proof.
  intros Hk. rewrite slice_prefix by lia. unfold len.
  rewrite length_firstn. lia.
Qed.

(** ** White space and [strip] *)

Lemma lstrip_split s :
  exists ws, s = ws ++ lstrip s /\ blank ws
             /\ forall c s', lstrip s = c :: s' -> isspace c = false.
Proof.
  induction s as [|c s IH]; simpl.
  - exists []. repeat split; [constructor | discriminate].
  - destruct (isspace c) eqn:Hc.
    + destruct IH as (ws & E & B & H).
      exists (c :: ws). repeat split.
      * simpl. congruence.
      * constructor; assumption.
      * exact H.
    + exists []. repeat split; [constructor|].
      intros c' s' E. congruence.
Qed.

Lemma rstrip_split s :
  exists ws, s = rstrip s ++ ws /\ blank ws
             /\ forall c s', rstrip s = s' ++ [c] -> isspace c = false.
Proof.
  unfold rstrip. destruct (lstrip_split (rev s)) as (ws & E & B & H).
  exists (rev ws). repeat split.
  - rewrite <- rev_app_distr, <- E, rev_involutive. reflexivity.
  - apply List.Forall_rev, B.
  - intros c s' E'. apply (H c (rev s')).
    rewrite <- (rev_involutive (lstrip (rev s))), E', rev_app_distr.
    reflexivity.
Qed.

(** [strip] removes a blank prefix and a blank suffix and leaves a
    trimmed text. *)
Lemma strip_split s :
  exists ws1 ws2, s = ws1 ++ strip s ++ ws2 /\ blank ws1 /\ blank ws2
                  /\ trimmed (strip s).
Proof.
  unfold strip.
  destruct (lstrip_split s) as (ws1 & E1 & B1 & H1).
  destruct (rstrip_split (lstrip s)) as (ws2 & E2 & B2 & H2).
  exists ws1, ws2. repeat split; try assumption.
  - rewrite <- E2. exact E1.
  - intros c s' E. destruct (lstrip s) as [|c0 t] eqn:Et.
    + unfold rstrip in E. simpl in E. discriminate.
    + rewrite E in E2. simpl in E2. injection E2 as Ec _.
      rewrite <- Ec. apply (H1 c0 t). reflexivity.
Qed.

Lemma strip_trimmed s : trimmed (strip s).
Proof. destruct (strip_split s) as (? & ? & _ & _ & _ & H). exact H. Qed.

Lemma strip_length s : len (strip s) <= len s.
Proof.
  destruct (strip_split s) as (ws1 & ws2 & E & _).
  rewrite E at 2. rewrite !len_app.
  pose proof (len_nonneg ws1). pose proof (len_nonneg ws2). lia.
Qed.

Lemma lstrip_blank_app ws s : blank ws -> lstrip (ws ++ s) = lstrip s.
Proof.
  induction 1 as [|c ws Hc _ IH]; simpl; [reflexivity|].
  rewrite Hc. exact IH.
Qed.

Lemma lstrip_blank ws : blank ws -> lstrip ws = [].
Proof.
  intros B. rewrite <- (app_nil_r ws), lstrip_blank_app by exact B.
  reflexivity.
Qed.

Lemma blank_rev ws : blank ws -> blank (rev ws).
Proof.
  apply List.Forall_rev.
Qed.

Lemma rstrip_app_blank s ws : blank ws -> rstrip (s ++ ws) = rstrip s.
Proof.
  intros B. unfold rstrip.
  rewrite rev_app_distr, lstrip_blank_app by (apply blank_rev, B).
  reflexivity.
Qed.

Lemma lstrip_app_blank s ws :
  blank ws -> rstrip (lstrip (s ++ ws)) = rstrip (lstrip s).
Proof.
  intros B. induction s as [|c s IH]; simpl.
  - rewrite lstrip_blank by exact B. reflexivity.
  - destruct (isspace c); [exact IH|].
    apply (rstrip_app_blank (c :: s)), B.
Qed.

(** White space around a text does not change its [strip]. *)
Lemma strip_blank_around ws1 s ws2 :
  blank ws1 -> blank ws2 -> strip (ws1 ++ s ++ ws2) = strip s.
Proof.
  intros B1 B2. unfold strip.
  rewrite lstrip_blank_app by exact B1.
  apply lstrip_app_blank, B2.
Qed.

(** ** [lower] *)

Lemma isspace_lower_char c : isspace (lower_char c) = isspace c.
Proof. destruct c as [[] [] [] [] [] [] [] []]; reflexivity. Qed.

Lemma lower_char_idem c : lower_char (lower_char c) = lower_char c.
Proof. destruct c as [[] [] [] [] [] [] [] []]; reflexivity. Qed.

Lemma lower_app s1 s2 : lower (s1 ++ s2) = lower s1 ++ lower s2.
Proof. apply map_app. Qed.

Lemma lower_blank ws : blank ws -> lower ws = ws.
Proof.
  induction 1 as [|c ws Hc _ IH]; simpl; [reflexivity|].
  f_equal; [|exact IH]. clear -Hc.
  destruct c as [[] [] [] [] [] [] [] []]; solve [reflexivity | discriminate].
Qed.

End PyFacts.

(* ===================================================================== *)
(** * The chunker *)
(* ===================================================================== *)

Module ChunkerFacts.
Import Py Notions PyFacts DocumentProcessor.

Lemma chunk_loop_eq fuel text chunk_size overlap start chunks :
  chunk_loop fuel text chunk_size overlap start chunks
  = if start <? len text then
      match fuel with
      | O => None
      | S fuel' =>
          chunk_loop fuel' text chunk_size overlap
            (start + (chunk_size - overlap))
            (chunks ++ [strip (slice text start (start + chunk_size))])
      end
    else Some chunks.
Proof. destruct fuel; reflexivity. Qed.

Section Stride.
Variables (text : list ascii) (chunk_size overlap : Z).
Hypothesis stride_pos : overlap < chunk_size.

Let stride := chunk_size - overlap.

(** The number of windows that start at or after the [k]-th. *)
Let remaining (k : nat) : nat :=
  Z.to_nat (ceil_div (len text - Z.of_nat k * stride) stride).

(** From the [k]-th window on, the loop appends the stripped
    windows one after the other, as long as the fuel lasts. *)
Lemma chunk_loop_windows n : forall fuel k chunks,
  remaining k = n -> (n <= fuel)%nat ->
  chunk_loop fuel text chunk_size overlap (Z.of_nat k * stride) chunks
  = Some (chunks
          ++ map (fun i => strip (window text chunk_size overlap i))
               (seq k n)).
Proof.
  subst remaining stride.
  induction n as [|n IH]; intros fuel k chunks Hn Hfuel;
    rewrite chunk_loop_eq.
  - destruct (Z.ltb_spec (Z.of_nat k * (chunk_size - overlap)) (len text))
      as [Hlt|Hge].
    + pose proof (ceil_div_pos
                    (len text - Z.of_nat k * (chunk_size - overlap))
                    (chunk_size - overlap)). lia.
    + simpl. rewrite app_nil_r. reflexivity.
  - destruct (Z.ltb_spec (Z.of_nat k * (chunk_size - overlap)) (len text))
      as [Hlt|Hge].
    + destruct fuel as [|fuel]; [lia|].
      replace (Z.of_nat k * (chunk_size - overlap) + (chunk_size - overlap))
        with (Z.of_nat (S k) * (chunk_size - overlap)) by lia.
      rewrite IH.
      * rewrite <- app_assoc. reflexivity.
      * replace (len text - Z.of_nat (S k) * (chunk_size - overlap))
          with (len text - Z.of_nat k * (chunk_size - overlap)
                - (chunk_size - overlap)) by lia.
        rewrite ceil_div_step by lia. lia.
      * lia.
    + pose proof (ceil_div_nonpos
                    (len text - Z.of_nat k * (chunk_size - overlap))
                    (chunk_size - overlap)). lia.
Qed.

(** With one unit of fuel per character the loop returns. *)
Lemma chunk_text_returns fuel :
  (length text <= fuel)%nat ->
  _chunk_text fuel text chunk_size overlap
  = Some (map (fun i => strip (window text chunk_size overlap i))
            (seq 0 (Z.to_nat (ceil_div (len text) stride)))).
Proof.
  intros Hfuel. unfold _chunk_text.
  change 0 with (Z.of_nat 0 * stride).
  rewrite (chunk_loop_windows (Z.to_nat (ceil_div (len text) stride))).
  - reflexivity.
  - subst remaining. simpl. f_equal. f_equal. lia.
  - pose proof (ceil_div_le (len text) stride ltac:(subst stride; lia)
                  (len_nonneg text)).
    unfold len in *. lia.
Qed.

(** Every window that the loop visits starts inside the text. *)
Lemma window_starts_inside i :
  (i < Z.to_nat (ceil_div (len text) stride))%nat ->
  0 <= Z.of_nat i * stride < len text.
Proof.
  intros Hi. assert (0 < stride) by (subst stride; lia).
  rewrite ceil_div_floor in Hi by lia.
  pose proof (Z.mul_div_le (len text + stride - 1) stride ltac:(lia)).
  split; [lia|]. nia.
Qed.
End Stride.

(** A loop whose window does not advance never ends. *)
Lemma chunk_loop_diverges text chunk_size overlap :
  chunk_size <= overlap ->
  forall fuel start chunks, start < len text ->
  chunk_loop fuel text chunk_size overlap start chunks = None.
Proof.
  intros Hs. induction fuel as [|fuel IH]; intros start chunks Hlt;
    rewrite chunk_loop_eq;
    destruct (Z.ltb_spec start (len text)); try lia; [reflexivity|].
  apply IH. lia.
Qed.

(** A page of white space only is skipped. *)
Lemma blank_page_skipped doc_id filename text rest page_num chunks :
  blank text ->
  pages_loop doc_id filename (Some text :: rest) page_num chunks
  = pages_loop doc_id filename rest (page_num + 1) chunks.
Proof.
  intros B. simpl. unfold strip.
  rewrite lstrip_blank by exact B. reflexivity.
Qed.

(** C4, as stated, fails: the text ["abc"] with chunk size 2 and
    overlap 1 gives the three chunks ["ab"], ["bc"], ["c"], and
    [ceil ((3 - 1) / (2 - 1))] is 2. *)
Lemma chunk_count_formula_fails :
  exists chunks,
    _chunk_text 3 (str "abc") 2 1 = Some chunks
    /\ len chunks <> ceil_div (len (str "abc") - 1) (2 - 1).
Proof. eexists. split; [reflexivity|]. vm_compute. discriminate. Qed.

(** C4 (amended): for a text of length [L] and [overlap < chunk_size]
    the chunker returns exactly [ceil (L / (chunk_size - overlap))]
    chunks, which is zero for the empty text only; a page whose text is
    white space only yields no chunk, because
    [_extract_and_chunk_pdf] skips it before it is chunked. *)
Theorem chunk_count (text : list ascii) (chunk_size overlap : Z)
    (fuel : nat) :
  overlap < chunk_size -> (length text <= fuel)%nat ->
  (exists chunks,
      _chunk_text fuel text chunk_size overlap = Some chunks
      /\ len chunks = ceil_div (len text) (chunk_size - overlap)
      /\ (chunks = [] <-> text = []))
  /\ (blank text ->
      forall doc_id filename,
        _extract_and_chunk_pdf [Some text] doc_id filename = Some []).
Proof.
  intros Hs Hfuel. split.
  - eexists. split; [apply chunk_text_returns; assumption|].
    assert (len (map (fun i => strip (window text chunk_size overlap i))
                   (seq 0 (Z.to_nat (ceil_div (len text)
                                       (chunk_size - overlap)))))
            = ceil_div (len text) (chunk_size - overlap)) as Hlen.
    { unfold len at 1. rewrite length_map, length_seq.
      destruct (Z.le_gt_cases (len text) 0).
      + pose proof (len_nonneg text).
        replace (len text) with 0 by lia. reflexivity.
      + pose proof (ceil_div_pos (len text) (chunk_size - overlap)). lia. }
    split; [exact Hlen|]. split.
    + intros E. rewrite E in Hlen. destruct text as [|c text]; [reflexivity|].
      pose proof (ceil_div_pos (len (c :: text)) (chunk_size - overlap)
                    ltac:(lia) ltac:(unfold len; simpl; lia)).
      unfold len at 1 in Hlen. simpl in Hlen. lia.
    + intros ->. reflexivity.
  - intros B doc_id filename. unfold _extract_and_chunk_pdf.
    rewrite blank_page_skipped by exact B. reflexivity.
Qed.

Lemma chunk_count_witness :
  (exists chunks,
      _chunk_text 3 (str "abc") 2 1 = Some chunks
      /\ len chunks = ceil_div (len (str "abc")) (2 - 1)
      /\ (chunks = [] <-> str "abc" = []))
  /\ (blank (str "abc") ->
      forall doc_id filename,
        _extract_and_chunk_pdf [Some (str "abc")] doc_id filename = Some []).
Proof. apply (chunk_count (str "abc") 2 1 3); [lia | simpl; lia]. Defined.

(** C10, as stated, fails: the text ["abcd"] with chunk size 4 and
    overlap 3 gives ["abcd"], ["bcd"], ["cd"], ["d"]; the second chunk
    is shorter than the chunk size and is not the last one. *)
Lemma short_chunk_before_the_last :
  exists chunks c,
    _chunk_text 4 (str "abcd") 4 3 = Some chunks
    /\ chunks !! 1%nat = Some c
    /\ (1 + 1 < length chunks)%nat
    /\ len c < 4.
Proof.
  eexists. eexists. split; [reflexivity|]. split; [reflexivity|].
  split; [simpl; lia|]. vm_compute. reflexivity.
Qed.

(** C10 (amended): for [0 < chunk_size] and [overlap < chunk_size]
    the chunker returns (one unit of fuel per character is enough).
    Its [i]-th chunk is the stripped [i]-th window, the window starts
    at [i * (chunk_size - overlap)] and holds the [chunk_size]
    characters from there, or the characters that are left when the
    text ends before; every chunk is trimmed and no chunk is longer
    than [chunk_size]. *)
Theorem chunk_text_windows_trimmed (text : list ascii)
    (chunk_size overlap : Z) (fuel : nat) :
  0 < chunk_size -> overlap < chunk_size -> (length text <= fuel)%nat ->
  let stride := chunk_size - overlap in
  let n := Z.to_nat (ceil_div (len text) stride) in
  _chunk_text fuel text chunk_size overlap
  = Some (map (fun i => strip (window text chunk_size overlap i)) (seq 0 n))
  /\ forall i, (i < n)%nat ->
       window text chunk_size overlap i
       = firstn (Z.to_nat chunk_size)
           (skipn (Z.to_nat (Z.of_nat i * stride)) text)
       /\ len (window text chunk_size overlap i)
          = Z.min chunk_size (len text - Z.of_nat i * stride)
       /\ trimmed (strip (window text chunk_size overlap i))
       /\ len (strip (window text chunk_size overlap i)) <= chunk_size.
Proof.
  intros Hc Hs Hfuel stride n. split.
  - apply chunk_text_returns; assumption.
  - intros i Hi.
    pose proof (window_starts_inside text chunk_size overlap Hs i Hi) as Hin.
    fold stride in Hin. unfold window. fold stride.
    split; [apply slice_window; lia|].
    split; [apply slice_window_length; lia|].
    split; [apply strip_trimmed|].
    etransitivity; [apply strip_length|].
    rewrite slice_window_length by lia. lia.
Qed.

Lemma chunk_text_windows_trimmed_witness :
  _chunk_text 4 (str "abcd") 4 3
  = Some [str "abcd"; str "bcd"; str "cd"; str "d"].
Proof.
  apply (chunk_text_windows_trimmed (str "abcd") 4 3 4);
    [lia | lia | simpl; lia].
Defined.

End ChunkerFacts.

(* ===================================================================== *)
(** * Stable sorting *)
(* ===================================================================== *)

Module SortedFacts.
Import Py.

Section Order.
Context {A : Type} (before : A -> A -> bool).

Lemma insert_perm x l : insert before x l ≡ₚ x :: l.
Proof.
  induction l as [|y l IH]; simpl; [reflexivity|].
  destruct (before y x); [|reflexivity].
  rewrite IH. apply perm_swap.
Qed.

Lemma sorted_perm l : sorted before l ≡ₚ l.
Proof.
  induction l as [|x l IH]; simpl; [reflexivity|].
  rewrite insert_perm, IH. reflexivity.
Qed.

(** Stability. Take a class [P] of elements such that nothing that
    sorts strictly before a member is a member. Sorting keeps the
    members of [P] in the order they had. *)
Section Stable.
Variable P : A -> bool.
Hypothesis P_class :
  forall y x, before y x = true -> P x = true -> P y = false.

Lemma filter_insert x l :
  List.filter P (insert before x l) = List.filter P (x :: l).
Proof.
  induction l as [|y l IH]; [reflexivity|].
  simpl insert. destruct (before y x) eqn:Hyx; [|reflexivity].
  simpl. simpl in IH. rewrite IH.
  destruct (P x) eqn:Px; [|reflexivity].
  rewrite (P_class y x Hyx Px). reflexivity.
Qed.

Lemma filter_sorted l :
  List.filter P (sorted before l) = List.filter P l.
Proof.
  induction l as [|x l IH]; [reflexivity|].
  simpl sorted. rewrite filter_insert. simpl. rewrite IH. reflexivity.
Qed.
End Stable.

(** Sortedness, for an order that comes from comparing keys. *)
Section Ordered.
Hypothesis before_asym :
  forall a b, before a b = true -> before b a = false.
Hypothesis before_cotrans :
  forall a b c, before a c = true ->
                before a b = true \/ before b c = true.

Let le (a b : A) : Prop := before b a = false.

Lemma insert_sorted x l :
  StronglySorted le l -> StronglySorted le (insert before x l).
Proof.
  induction 1 as [|y l Hl IH Hy]; simpl.
  - repeat constructor.
  - destruct (before y x) eqn:Hyx.
    + constructor; [exact IH|].
      rewrite (insert_perm x l). constructor; [|exact Hy].
      apply before_asym, Hyx.
    + constructor; [constructor; assumption|].
      constructor; [exact Hyx|].
      rewrite Forall_forall in Hy |- *. intros z Hz.
      specialize (Hy z Hz). unfold le in *.
      destruct (before z x) eqn:Hzx; [|reflexivity].
      destruct (before_cotrans z y x Hzx); congruence.
Qed.

Lemma sorted_sorted l : StronglySorted le (sorted before l).
Proof.
  induction l as [|x l IH]; simpl; [constructor|].
  apply insert_sorted, IH.
Qed.
End Ordered.
End Order.

(** A prefix of a list, filtered, is a prefix of the filtered list. *)
Lemma filter_firstn_prefix {A} (P : A -> bool) n l :
  exists rest,
    List.filter P l = List.filter P (firstn n l) ++ rest.
Proof.
  exists (List.filter P (skipn n l)).
  rewrite <- List.filter_app, firstn_skipn. reflexivity.
Qed.

Lemma StronglySorted_firstn {A} (R : A -> A -> Prop) n l :
  StronglySorted R l -> StronglySorted R (firstn n l).
Proof.
  intros H. revert n. induction H as [|x l Hl IH Hx]; intros [|n]; simpl;
    try constructor.
  - apply IH.
  - apply Forall_take, Hx.
Qed.

(** A slice from the start is a prefix. *)
Lemma slice_from_start {A} (l : list A) stop :
  exists n, slice l 0 stop = firstn n l.
Proof.
  unfold slice, slice_index. change (0 <? 0) with false. cbv iota.
  rewrite (Z.min_l 0) by (unfold len; lia).
  rewrite Z2Nat.inj_0, skipn_O. eexists. reflexivity.
Qed.

End SortedFacts.

(* ===================================================================== *)
(** * Keyword search *)
(* ===================================================================== *)

Module SearchFacts.
Import Py Notions PyFacts SortedFacts DocumentProcessor.

Lemma by_score_desc_asym a b :
  by_score_desc a b = true -> by_score_desc b a = false.
Proof. unfold by_score_desc. lia. Qed.

Lemma by_score_desc_cotrans a b c :
  by_score_desc a c = true ->
  by_score_desc a b = true \/ by_score_desc b c = true.
Proof. unfold by_score_desc. lia. Qed.

Lemma has_score_class s y x :
  by_score_desc y x = true -> has_score s x = true -> has_score s y = false.
Proof. unfold by_score_desc, has_score. lia. Qed.

Lemma sorted_ranked l : ranked (sorted by_score_desc l).
Proof.
  pose proof (sorted_sorted by_score_desc by_score_desc_asym
                by_score_desc_cotrans l) as H.
  unfold ranked. induction H as [|x l' Hl IH Hx]; constructor.
  - exact IH.
  - eapply Forall_impl; [exact Hx|]. intros y. unfold by_score_desc. lia.
Qed.

(** What the scan keeps: the chunks of the store whose score is
    positive, with that score, in the order of the store. *)
Lemma scan_in query_lower cs r :
  In r (scan query_lower cs) ->
  0 < relevance_score r
  /\ In (scored_chunk r) cs
  /\ relevance_score r = score_chunk query_lower (scored_chunk r).
Proof.
  induction cs as [|c cs IH]; simpl; [tauto|].
  case_ltb.
  - intros [<-|Hin]; simpl; [auto|]. destruct (IH Hin) as (?&?&?). auto.
  - intros Hin. destruct (IH Hin) as (?&?&?). auto.
Qed.

Lemma scan_filter query_lower cs s :
  0 < s ->
  map scored_chunk (List.filter (has_score s) (scan query_lower cs))
  = List.filter (fun c => score_chunk query_lower c =? s) cs.
Proof.
  intros Hs. induction cs as [|c cs IH]; simpl; [reflexivity|].
  destruct (Z.ltb_spec 0 (score_chunk query_lower c)) as [Hpos|Hle]; simpl.
  - unfold has_score at 1. simpl.
    destruct (score_chunk query_lower c =? s); simpl; rewrite IH; reflexivity.
  - destruct (Z.eqb_spec (score_chunk query_lower c) s); [lia|]. exact IH.
Qed.

(** A positive score comes from a word of the query that occurs in
    the content. *)
Lemma score_word content_lower words : forall score,
  fold_left
    (fun score word =>
       if contains content_lower word
       then score + count content_lower word else score)
    words score <> score ->
  exists word, In word words /\ contains content_lower word = true.
Proof.
  induction words as [|w words IH]; simpl; intros score H; [congruence|].
  destruct (contains content_lower w) eqn:Hw.
  - exists w. auto.
  - destruct (IH score H) as (word & Hin & Hc). exists word. auto.
Qed.

Lemma score_positive_word query_lower c :
  0 < score_chunk query_lower c ->
  exists word,
    In word (split query_lower)
    /\ contains (lower (content c)) word = true.
Proof.
  intros H. apply (score_word _ _ 0). unfold score_chunk in H. lia.
Qed.

Lemma has_score_refl r : has_score (relevance_score r) r = true.
Proof. unfold has_score. lia. Qed.

(** Two ranked lists with the same results of every score, in the
    same order, are the same list. *)
Lemma ranking_unique l1 : forall l2,
  ranked l1 -> ranked l2 ->
  (forall s, List.filter (has_score s) l1 = List.filter (has_score s) l2) ->
  l1 = l2.
Proof.
  assert (Hhead : forall a l b l',
             ranked (b :: l') ->
             List.filter (has_score (relevance_score a)) (a :: l)
             = List.filter (has_score (relevance_score a)) (b :: l') ->
             relevance_score a <= relevance_score b).
  { intros a l b l' Hr E. simpl in E.
    rewrite (has_score_refl a) in E.
    destruct (has_score (relevance_score a) b) eqn:Hb.
    - unfold has_score in Hb. lia.
    - assert (In a (List.filter (has_score (relevance_score a)) l')) as Hin
        by (rewrite <- E; left; reflexivity).
      apply List.filter_In in Hin as [Hin _].
      inversion Hr as [|? ? _ Hall]; subst.
      rewrite Forall_forall in Hall. apply Hall, list_elem_of_In, Hin. }
  induction l1 as [|a l1 IH]; intros [|b l2] R1 R2 E.
  - reflexivity.
  - specialize (E (relevance_score b)). simpl in E.
    rewrite (has_score_refl b) in E. discriminate.
  - specialize (E (relevance_score a)). simpl in E.
    rewrite (has_score_refl a) in E. discriminate.
  - assert (relevance_score a = relevance_score b) as Hab.
    { pose proof (Hhead a l1 b l2 R2 (E _)).
      pose proof (Hhead b l2 a l1 R1 (eq_sym (E _))). lia. }
    assert (a = b) as ->.
    { specialize (E (relevance_score a)). simpl in E.
      assert (has_score (relevance_score a) b = true) as Hb
        by (rewrite Hab; apply has_score_refl).
      rewrite (has_score_refl a), Hb in E. congruence. }
    f_equal. apply IH.
    + inversion R1; assumption.
    + inversion R2; assumption.
    + intros s. specialize (E s). simpl in E.
      destruct (has_score s b); congruence.
Qed.

(** C6: the results of a search are in descending order of relevance
    score; the results of one score are the first chunks of that score
    in the order of the store; and these two facts decide the ranked
    list, so the same query on the same store gives the same order. *)
Theorem search_ranking (self : t) (query : list ascii) (top_k : Z) :
  let results := search_documents self query top_k in
  ranked results
  /\ (forall s, 0 < s ->
      exists rest,
        List.filter (fun c => score_chunk (lower query) c =? s) (chunks self)
        = map scored_chunk (List.filter (has_score s) results) ++ rest)
  /\ (forall l,
        ranked l ->
        (forall s, List.filter (has_score s) l
                   = List.filter (has_score s)
                       (scan (lower query) (chunks self))) ->
        results = slice l 0 top_k).
Proof.
  intros results. subst results. unfold search_documents.
  destruct (slice_from_start
              (sorted by_score_desc (scan (lower query) (chunks self)))
              top_k) as [n En].
  split; [|split].
  - rewrite En. apply StronglySorted_firstn, sorted_ranked.
  - intros s Hs. rewrite En.
    rewrite <- (scan_filter (lower query) (chunks self) s Hs).
    rewrite <- (filter_sorted by_score_desc (has_score s)
                  (has_score_class s)).
    destruct (filter_firstn_prefix (has_score s) n
                (sorted by_score_desc (scan (lower query) (chunks self))))
      as [rest E].
    exists (map scored_chunk rest). rewrite E, map_app. reflexivity.
  - intros l Hl E. f_equal. symmetry.
    apply ranking_unique; [exact Hl | apply sorted_ranked |].
    intros s. rewrite E.
    symmetry. apply filter_sorted, has_score_class.
Qed.

(** C7: every result of a search has a strictly positive relevance
    score, which is the score of its chunk, and some word of the query
    occurs in its content; a chunk in which no word of the query
    occurs is not among the results; there are at most [top_k]
    results. *)
Theorem search_results_match (self : t) (query : list ascii) (top_k : Z) :
  0 <= top_k ->
  let results := search_documents self query top_k in
  (forall r, In r results ->
     0 < relevance_score r
     /\ In (scored_chunk r) (chunks self)
     /\ relevance_score r = score_chunk (lower query) (scored_chunk r)
     /\ exists word,
          In word (split (lower query))
          /\ contains (lower (content (scored_chunk r))) word = true)
  /\ (forall c,
        (forall word, In word (split (lower query)) ->
                      contains (lower (content c)) word = false) ->
        forall r, In r results -> scored_chunk r <> c)
  /\ len results <= top_k.
Proof.
  intros Hk results.
  assert (Hres : forall r, In r results ->
     0 < relevance_score r
     /\ In (scored_chunk r) (chunks self)
     /\ relevance_score r = score_chunk (lower query) (scored_chunk r)
     /\ exists word,
          In word (split (lower query))
          /\ contains (lower (content (scored_chunk r))) word = true).
  { intros r Hr. subst results. unfold search_documents in Hr.
    rewrite slice_prefix in Hr by exact Hk.
    apply list_elem_of_In, subseteq_take in Hr.
    rewrite sorted_perm in Hr. apply list_elem_of_In in Hr.
    destruct (scan_in _ _ _ Hr) as (Hpos & Hin & Hscore).
    repeat split; try assumption.
    apply score_positive_word. lia. }
  split; [exact Hres|]. split.
  - intros c Hnone r Hr E. subst c.
    destruct (Hres r Hr) as (_ & _ & _ & word & Hw & Hc).
    rewrite (Hnone word Hw) in Hc. discriminate.
  - subst results. unfold search_documents.
    apply slice_prefix_length, Hk.
Qed.

Lemma search_ranking_witness :
  ranked (search_documents Examples.store (str "fire rating") 2).
Proof. apply (search_ranking Examples.store (str "fire rating") 2). Defined.

Lemma search_results_match_witness :
  len (search_documents Examples.store (str "fire rating") 5) <= 5.
Proof.
  apply (search_results_match Examples.store (str "fire rating") 5). lia.
Defined.

End SearchFacts.

(* ===================================================================== *)
(** * The order of strings and the serialisation of filters *)
(* ===================================================================== *)

Module JsonFacts.
Import Py Notions PyFacts SortedFacts.

Lemma nat_of_ascii_inj a b : nat_of_ascii a = nat_of_ascii b -> a = b.
Proof.
  intros H. rewrite <- (ascii_nat_embedding a), <- (ascii_nat_embedding b).
  congruence.
Qed.

Lemma compare_eq s1 : forall s2, compare s1 s2 = Eq -> s1 = s2.
Proof.
  induction s1 as [|a s1 IH]; intros [|b s2]; simpl; try discriminate.
  - reflexivity.
  - destruct (Nat.compare_spec (nat_of_ascii a) (nat_of_ascii b));
      try discriminate.
    intros H'. f_equal; [apply nat_of_ascii_inj; assumption | apply IH, H'].
Qed.

Lemma compare_antisym s1 : forall s2, compare s2 s1 = CompOpp (compare s1 s2).
Proof.
  induction s1 as [|a s1 IH]; intros [|b s2]; simpl; try reflexivity.
  rewrite (Nat.compare_antisym (nat_of_ascii a) (nat_of_ascii b)).
  destruct (nat_of_ascii a ?= nat_of_ascii b)%nat; simpl;
    [apply IH | reflexivity..].
Qed.

Lemma compare_trans s1 : forall s2 s3,
  compare s1 s2 = Lt -> compare s2 s3 = Lt -> compare s1 s3 = Lt.
Proof.
  induction s1 as [|a s1 IH]; intros [|b s2] [|c s3]; simpl;
    try discriminate; try reflexivity.
  destruct (Nat.compare_spec (nat_of_ascii a) (nat_of_ascii b)),
           (Nat.compare_spec (nat_of_ascii b) (nat_of_ascii c)),
           (Nat.compare_spec (nat_of_ascii a) (nat_of_ascii c));
    try discriminate; try reflexivity; try lia.
  apply IH.
Qed.

Lemma ltb_asym s1 s2 : ltb s1 s2 = true -> ltb s2 s1 = false.
Proof.
  unfold ltb. rewrite (compare_antisym s1 s2).
  destruct (compare s1 s2); simpl; congruence.
Qed.

Lemma ltb_cotrans s1 s2 s3 :
  ltb s1 s3 = true -> ltb s1 s2 = true \/ ltb s2 s3 = true.
Proof.
  unfold ltb. intros H13.
  destruct (compare s1 s2) eqn:E12; [| left; reflexivity |].
  - apply compare_eq in E12. subst s2. right. exact H13.
  - right. destruct (compare s1 s3) eqn:E13; try discriminate.
    rewrite (compare_antisym s2 s1) in E12.
    destruct (compare s2 s1) eqn:E21; try discriminate.
    rewrite (compare_trans s2 s1 s3 E21 E13). reflexivity.
Qed.

Lemma ltb_total s1 s2 : ltb s1 s2 = false -> ltb s2 s1 = false -> s1 = s2.
Proof.
  unfold ltb. rewrite (compare_antisym s1 s2).
  destruct (compare s1 s2) eqn:E; simpl; try discriminate.
  intros _ _. apply compare_eq, E.
Qed.

(** Items with distinct keys are found by their key. *)
Lemma NoDup_keys_inj {V} (l : list (list ascii * V)) a b :
  NoDup (map fst l) -> In a l -> In b l -> fst a = fst b -> a = b.
Proof.
  induction l as [|x l IH]; simpl; [tauto|].
  intros Hnd. apply NoDup_cons in Hnd as [Hx Hnd].
  assert (forall y, In y l -> fst x <> fst y) as Hfresh.
  { intros y Hy E. apply Hx. rewrite E.
    apply list_elem_of_In, in_map, Hy. }
  intros [<-|Ha] [<-|Hb] E; try reflexivity.
  - exfalso. exact (Hfresh b Hb E).
  - exfalso. exact (Hfresh a Ha (eq_sym E)).
  - apply IH; assumption.
Qed.

(** Two lists of items with the same items and distinct keys are
    sorted into the same list. *)
Lemma sorted_items_perm {V} (l1 l2 : list (list ascii * V)) :
  NoDup (map fst l1) -> l1 ≡ₚ l2 ->
  sorted Json.key_before l1 = sorted Json.key_before l2.
Proof.
  intros Hnd Hp.
  apply (StronglySorted_unique_strong
           (fun a b => Json.key_before b a = false)).
  - intros x1 x2 H1 H2 R12 R21.
    rewrite sorted_perm in H1. rewrite sorted_perm, <- Hp in H2.
    apply (NoDup_keys_inj l1); try assumption;
      try (apply list_elem_of_In; assumption).
    apply ltb_total; assumption.
  - apply sorted_sorted; unfold Json.key_before; intros.
    + apply ltb_asym; assumption.
    + apply ltb_cotrans; assumption.
  - apply sorted_sorted; unfold Json.key_before; intros.
    + apply ltb_asym; assumption.
    + apply ltb_cotrans; assumption.
  - rewrite !sorted_perm. exact Hp.
Qed.

(** The serialisation of a dictionary does not depend on the order in
    which its items were inserted. *)
Lemma dumps_dict_perm (items1 items2 : list (list ascii * pyval)) :
  NoDup (map fst items1) -> items1 ≡ₚ items2 ->
  Json.dumps (PDict items1) = Json.dumps (PDict items2).
Proof.
  intros Hnd Hp. simpl. do 4 f_equal.
  apply sorted_items_perm.
  - rewrite map_map. simpl. exact Hnd.
  - apply Permutation_map, Hp.
Qed.

(** An MD5 digest in hexadecimal has 32 characters. *)
Lemma hexdigest_length msg : length (MD5.hexdigest msg) = 32%nat.
Proof.
  unfold MD5.hexdigest, MD5.digest.
  generalize (MD5.blocks (length (MD5.pad msg) / 64) MD5.init (MD5.pad msg)).
  intros s. reflexivity.
Qed.

End JsonFacts.

(* ===================================================================== *)
(** * The query cache *)
(* ===================================================================== *)

Module CacheFacts.
Import Py Notions PyFacts JsonFacts Main.

Lemma cache_key_normalised query query' ws1 ws2 :
  lower query' = lower query -> blank ws1 -> blank ws2 ->
  strip (lower (ws1 ++ query' ++ ws2)) = strip (lower query).
Proof.
  intros Hq B1 B2.
  rewrite !lower_app, Hq, (lower_blank ws1 B1), (lower_blank ws2 B2).
  apply strip_blank_around; assumption.
Qed.

(** Sorting by key commutes with a change of the values. *)
Lemma insert_map_values {V W} (g : list ascii * V -> list ascii * W) x l :
  (forall kv, fst (g kv) = fst kv) ->
  insert Json.key_before (g x) (map g l)
  = map g (insert Json.key_before x l).
Proof.
  intros Hg. induction l as [|y l IH]; simpl; [reflexivity|].
  unfold Json.key_before at 1 3. rewrite !Hg.
  destruct (ltb (fst y) (fst x)); simpl; [rewrite IH|]; reflexivity.
Qed.

Lemma sorted_map_values {V W} (g : list ascii * V -> list ascii * W) l :
  (forall kv, fst (g kv) = fst kv) ->
  sorted Json.key_before (map g l) = map g (sorted Json.key_before l).
Proof.
  intros Hg. induction l as [|x l IH]; simpl; [reflexivity|].
  rewrite IH. apply insert_map_values, Hg.
Qed.

(** The serialisation of a dictionary: its items in the order of
    their keys, each as the key, a colon and the serialised value,
    separated by commas, in braces. *)
Lemma dumps_dict_sorted (items : list (list ascii * pyval)) :
  exists ordered,
    ordered ≡ₚ items
    /\ StronglySorted (fun a b => ltb (fst b) (fst a) = false) ordered
    /\ Json.dumps (PDict items)
       = str "{"
         ++ join (str ", ")
              (map (fun kv =>
                      Json.dump_str (fst kv) ++ str ": "
                      ++ Json.dumps (snd kv))
                 ordered)
         ++ str "}".
Proof.
  exists (sorted Json.key_before items).
  split; [apply SortedFacts.sorted_perm|]. split.
  - apply (SortedFacts.sorted_sorted Json.key_before).
    + intros x y. apply ltb_asym.
    + intros x y z. apply ltb_cotrans.
  - cbn [Json.dumps].
    rewrite (sorted_map_values
               (fun kv : list ascii * pyval => (fst kv, Json.dumps (snd kv))))
      by reflexivity.
    rewrite map_map. reflexivity.
Qed.

(** C9: the fingerprint of a query is the MD5 digest of the UTF-8
    bytes of the lower-cased, stripped query, followed, when there are
    filters, by their serialisation: the items in the order of their
    keys, as [json.dumps] writes them. Queries that differ in letter
    case or in surrounding white space, and filters that differ in the
    order of their keys, have the same fingerprint, and every
    fingerprint has 32 characters. *)
Theorem fingerprint_normalised (query query' ws1 ws2 : list ascii)
    (filters filters' : list (list ascii * pyval)) :
  lower query' = lower query -> blank ws1 -> blank ws2 ->
  NoDup (map fst filters) -> filters ≡ₚ filters' ->
  get_query_hash (ws1 ++ query' ++ ws2) (Some filters')
  = get_query_hash query (Some filters)
  /\ get_query_hash (ws1 ++ query' ++ ws2) None = get_query_hash query None
  /\ get_query_hash query None
     = MD5.hexdigest (encode (strip (lower query)))
  /\ get_query_hash query (Some [])
     = MD5.hexdigest (encode (strip (lower query)))
  /\ (filters <> [] ->
      get_query_hash query (Some filters)
      = MD5.hexdigest
          (encode (strip (lower query) ++ Json.dumps (PDict filters))))
  /\ (exists ordered,
        ordered ≡ₚ filters
        /\ StronglySorted (fun a b => ltb (fst b) (fst a) = false) ordered
        /\ Json.dumps (PDict filters)
           = str "{"
             ++ join (str ", ")
                  (map (fun kv =>
                          Json.dump_str (fst kv) ++ str ": "
                          ++ Json.dumps (snd kv))
                     ordered)
             ++ str "}")
  /\ (forall q f, length (get_query_hash q f) = 32%nat).
Proof.
  intros Hq B1 B2 Hnd Hp.
  split; [|split; [|split; [|split; [|split; [|split]]]]].
  - unfold get_query_hash.
    rewrite (cache_key_normalised query query' ws1 ws2 Hq B1 B2).
    destruct filters as [|item rest].
    + apply Permutation_nil in Hp. subst filters'. reflexivity.
    + destruct filters' as [|item' rest'].
      * symmetry in Hp. apply Permutation_nil in Hp. discriminate.
      * cbv beta iota zeta.
        rewrite (dumps_dict_perm (item :: rest) (item' :: rest') Hnd Hp).
        reflexivity.
  - unfold get_query_hash.
    rewrite (cache_key_normalised query query' ws1 ws2 Hq B1 B2).
    reflexivity.
  - reflexivity.
  - reflexivity.
  - intros Hne. destruct filters; [contradiction | reflexivity].
  - apply dumps_dict_sorted.
  - intros q f. apply hexdigest_length.
Qed.

(** The fingerprint of [  Fire RATING ] with the filters page 2 and
    document a.pdf is the digest that Python computes for
    [fire rating{"document": "a.pdf", "page": 2}]. *)
Lemma fingerprint_normalised_witness :
  get_query_hash (str "  Fire RATING " ) 
    (Some [(str "page", PInt 2); (str "document", PStr (str "a.pdf"))])
  = get_query_hash (str "fire rating")
      (Some [(str "document", PStr (str "a.pdf")); (str "page", PInt 2)])
  /\ get_query_hash (str "fire rating")
       (Some [(str "document", PStr (str "a.pdf")); (str "page", PInt 2)])
     = str "74f04973d42a8556c9c556c23ea0278c"
  /\ get_query_hash (str "fire rating") None
     = str "ebb396c99841784e854a81428a2a1d25".
Proof.
  pose proof (fingerprint_normalised (str "fire rating") (str "Fire RATING")
                (str "  ") (str " ")
                [(str "document", PStr (str "a.pdf")); (str "page", PInt 2)]
                [(str "page", PInt 2); (str "document", PStr (str "a.pdf"))])
    as H.
  destruct H as (H1 & _ & H3 & _ & H5 & _).
  - reflexivity.
  - repeat constructor.
  - repeat constructor.
  - apply (bool_decide_unpack _). vm_compute. exact I.
  - apply perm_swap.
  - split; [exact H1|]. split.
    + rewrite H5 by discriminate. vm_compute. reflexivity.
    + rewrite H3. vm_compute. reflexivity.
Defined.

(** The entry that [chat] stores for a result at the instant [now]. *)
Lemma cache_store_lookup query_cache query_hash r now :
  cache_store query_cache query_hash r now !! query_hash
  = Some (Entry (result_answer r) (result_sources r) (result_confidence r)
            (result_structured_data r) (Iso now)).
Proof. unfold cache_store. apply lookup_insert_eq. Qed.

Lemma cache_lookup_hit query_cache query_hash now e :
  cache_lookup query_cache query_hash now = Some e
  <-> query_cache !! query_hash = Some e
      /\ exists t, timestamp e = Iso t
                   /\ now - t < CACHE_TTL_SECONDS * 1000000.
Proof.
  unfold cache_lookup, is_cache_valid. split.
  - destruct (query_cache !! query_hash) as [e'|]; [|discriminate].
    destruct (timestamp e') as [t|] eqn:Et; [|discriminate].
    case_ltb; [|discriminate].
    intros [= <-]. split; [reflexivity|]. exists t. auto.
  - intros [-> (t & -> & Hlt)]. case_ltb; [|lia].
    reflexivity.
Qed.

(** An expired entry still takes its place in the cache: the
    statistics count it among the cached queries and not among the
    valid ones. *)
Lemma expired_entry_counted (query_cache : gmap (list ascii) entry)
    query_hash now e t :
  query_cache !! query_hash = Some e ->
  timestamp e = Iso t ->
  CACHE_TTL_SECONDS * 1000000 <= now - t ->
  snd (cache_stats query_cache now) < fst (cache_stats query_cache now).
Proof.
  intros He Ht Hge. unfold cache_stats. simpl.
  apply Nat2Z.inj_lt, map_subset_size. split.
  - apply map_filter_subseteq.
  - intros Hsub. pose proof (lookup_weaken _ _ _ _ He Hsub) as Hf.
    apply map_lookup_filter_Some in Hf as [_ Hvalid]. simpl in Hvalid.
    unfold is_cache_valid in Hvalid. rewrite Ht in Hvalid.
    destruct (Z.ltb_spec (now - t) (CACHE_TTL_SECONDS * 1000000));
      [lia | discriminate].
Qed.

(** The bookkeeping of [chat] goes through exactly for countable
    sources, and a response with such sources is valid. *)
Lemma count_sources_ok sources :
  forallb countable sources = true ->
  exists keys, count_sources sources = Ok keys.
Proof.
  induction sources as [|source sources IH]; simpl; [eauto|].
  intros H. apply andb_true_iff in H as [Hs Hrest].
  destruct source; try discriminate. simpl in Hs. rewrite Hs.
  destruct (IH Hrest) as [keys ->]. simpl. eauto.
Qed.

Lemma count_sources_raises sources :
  forallb countable sources = false ->
  exists e, count_sources sources = Raise e.
Proof.
  induction sources as [|source sources IH]; simpl; [discriminate|].
  destruct source; simpl; eauto.
  destruct (hashable (filename_of items)); simpl; [|eauto].
  intros H. destruct (IH H) as [e ->]. simpl. eauto.
Qed.

Lemma validate_countable answer sources conversation_id confidence :
  forallb countable sources = true ->
  validate answer sources conversation_id confidence
  = Some (Response answer sources conversation_id confidence).
Proof.
  intros H. unfold validate.
  replace (forallb _ sources) with true; [reflexivity|].
  symmetry. induction sources as [|source sources IH]; [reflexivity|].
  simpl in H. apply andb_true_iff in H as [Hs Hrest].
  destruct source; try discriminate. simpl. apply IH, Hrest.
Qed.

(** What [chat] does when the lookup misses. *)
Lemma chat_miss process_query query_cache request now later :
  cache_lookup query_cache
    (get_query_hash (message request) (filters request)) now = None ->
  (process_query (message request) (conversation_id request)
     (filters request) = None ->
   chat process_query query_cache request now later = (HTTP500, query_cache))
  /\ (forall r,
        process_query (message request) (conversation_id request)
          (filters request) = Some r ->
        forallb countable (result_sources r) = false ->
        chat process_query query_cache request now later
        = (HTTP500, query_cache))
  /\ (forall r,
        process_query (message request) (conversation_id request)
          (filters request) = Some r ->
        forallb countable (result_sources r) = true ->
        chat process_query query_cache request now later
        = (Reply (Response (result_answer r) (result_sources r)
                    (result_conversation_id r) (result_confidence r)),
           cache_store query_cache
             (get_query_hash (message request) (filters request)) r later)).
Proof.
  intros Hmiss. unfold chat. rewrite Hmiss. split; [|split].
  - intros ->. reflexivity.
  - intros r -> Hs. destruct (count_sources_raises _ Hs) as [e ->].
    reflexivity.
  - intros r -> Hs. destruct (count_sources_ok _ Hs) as [keys ->].
    rewrite (validate_countable _ _ _ _ Hs). reflexivity.
Qed.

(** What [chat] does when the lookup hits. *)
Lemma chat_hit process_query query_cache request now later e :
  cache_lookup query_cache
    (get_query_hash (message request) (filters request)) now = Some e ->
  chat process_query query_cache request now later
  = (respond (validate (answer e) (sources e) None (confidence e)),
     query_cache).
Proof. intros Hit. unfold chat. rewrite Hit. reflexivity. Qed.

(** C3: the cache as [chat] uses it. The lookup at the head of [chat]
    hits exactly when the fingerprint of the request has an entry whose
    age is below the time to live of 3600 seconds; on a hit [chat]
    answers from the entry, without the pipeline, and leaves the cache
    as it is. On a miss [chat] asks the pipeline and stores the result
    under the fingerprint with the time of storing. A request that
    follows with the same fingerprint is answered from that entry while
    less than 3600 seconds have passed since it was stored; after that
    the lookup misses and the pipeline is asked again, but the entry is
    still stored: a request that then fails leaves it where it is, and
    the statistics count it. After [clear_cache] every lookup misses
    and every request goes to the pipeline. *)
Theorem cache_lookup_spec (query_cache : gmap (list ascii) entry)
    (request : ChatRequest) (now : Z) :
  let query_hash := get_query_hash (message request) (filters request) in
  (forall e,
      cache_lookup query_cache query_hash now = Some e
      <-> query_cache !! query_hash = Some e
          /\ exists t, timestamp e = Iso t
                       /\ now - t < CACHE_TTL_SECONDS * 1000000)
  /\ CACHE_TTL_SECONDS = 3600
  /\ (forall process_query later e t,
        query_cache !! query_hash = Some e ->
        timestamp e = Iso t ->
        now - t < CACHE_TTL_SECONDS * 1000000 ->
        chat process_query query_cache request now later
        = (respond (validate (answer e) (sources e) None (confidence e)),
           query_cache)
        /\ (forallb countable (sources e) = true ->
            chat process_query query_cache request now later
            = (Reply (Response (answer e) (sources e) None (confidence e)),
               query_cache)))
  /\ (forall process_query later r,
        cache_lookup query_cache query_hash now = None ->
        process_query (message request) (conversation_id request)
          (filters request) = Some r ->
        forallb countable (result_sources r) = true ->
        chat process_query query_cache request now later
        = (Reply (Response (result_answer r) (result_sources r)
                    (result_conversation_id r) (result_confidence r)),
           <[query_hash :=
               Entry (result_answer r) (result_sources r)
                 (result_confidence r) (result_structured_data r)
                 (Iso later)]> query_cache))
  /\ (forall process_query later,
        cache_lookup query_cache query_hash now = None ->
        (process_query (message request) (conversation_id request)
           (filters request) = None
         \/ exists r,
              process_query (message request) (conversation_id request)
                (filters request) = Some r
              /\ forallb countable (result_sources r) = false) ->
        chat process_query query_cache request now later
        = (HTTP500, query_cache))
  /\ (forall process_query process_query' later r request' now' later',
        cache_lookup query_cache query_hash now = None ->
        process_query (message request) (conversation_id request)
          (filters request) = Some r ->
        forallb countable (result_sources r) = true ->
        get_query_hash (message request') (filters request') = query_hash ->
        let query_cache1 :=
          snd (chat process_query query_cache request now later) in
        (now' - later < CACHE_TTL_SECONDS * 1000000 ->
         chat process_query' query_cache1 request' now' later'
         = (Reply (Response (result_answer r) (result_sources r) None
                     (result_confidence r)),
            query_cache1))
        /\ (CACHE_TTL_SECONDS * 1000000 <= now' - later ->
            cache_lookup query_cache1 query_hash now' = None
            /\ (process_query' (message request') (conversation_id request')
                  (filters request') = None ->
                chat process_query' query_cache1 request' now' later'
                = (HTTP500, query_cache1)
                /\ query_cache1 !! query_hash
                   = Some (Entry (result_answer r) (result_sources r)
                             (result_confidence r)
                             (result_structured_data r) (Iso later))
                /\ snd (cache_stats query_cache1 now')
                   < fst (cache_stats query_cache1 now'))
            /\ (forall r',
                  process_query' (message request')
                    (conversation_id request') (filters request') = Some r' ->
                  forallb countable (result_sources r') = true ->
                  chat process_query' query_cache1 request' now' later'
                  = (Reply (Response (result_answer r') (result_sources r')
                              (result_conversation_id r')
                              (result_confidence r')),
                     <[query_hash :=
                         Entry (result_answer r') (result_sources r')
                           (result_confidence r')
                           (result_structured_data r') (Iso later')]>
                       query_cache1))))
  /\ (forall process_query later,
        cache_lookup (clear_cache query_cache) query_hash now = None
        /\ (process_query (message request) (conversation_id request)
              (filters request) = None ->
            chat process_query (clear_cache query_cache) request now later
            = (HTTP500, ∅))
        /\ (forall r,
              process_query (message request) (conversation_id request)
                (filters request) = Some r ->
              forallb countable (result_sources r) = true ->
              chat process_query (clear_cache query_cache) request now later
              = (Reply (Response (result_answer r) (result_sources r)
                          (result_conversation_id r) (result_confidence r)),
                 <[query_hash :=
                     Entry (result_answer r) (result_sources r)
                       (result_confidence r) (result_structured_data r)
                       (Iso later)]> ∅))).
Proof.
  intros query_hash.
  split; [intros e; apply cache_lookup_hit|].
  split; [reflexivity|].
  split; [|split; [|split; [|split]]].
  - intros process_query later e t He Ht Hlt.
    assert (cache_lookup query_cache query_hash now = Some e) as Hit
      by (apply cache_lookup_hit; eauto).
    rewrite (chat_hit process_query _ _ _ later e Hit).
    split; [reflexivity|]. intros Hs.
    rewrite (validate_countable _ _ _ _ Hs). reflexivity.
  - intros process_query later r Hmiss Hr Hs.
    destruct (chat_miss process_query _ _ _ later Hmiss) as (_ & _ & H).
    exact (H r Hr Hs).
  - intros process_query later Hmiss [Hr|(r & Hr & Hs)];
      destruct (chat_miss process_query _ _ _ later Hmiss) as (H1 & H2 & _);
      [exact (H1 Hr) | exact (H2 r Hr Hs)].
  - intros process_query process_query' later r request' now' later'
      Hmiss Hr Hs Hh.
    destruct (chat_miss process_query _ _ _ later Hmiss) as (_ & _ & H).
    rewrite (H r Hr Hs). cbv zeta. cbn [snd]. fold query_hash.
    split.
    + intros Hfresh.
      assert (cache_lookup (cache_store query_cache query_hash r later)
                (get_query_hash (message request') (filters request')) now'
              = Some (Entry (result_answer r) (result_sources r)
                        (result_confidence r) (result_structured_data r)
                        (Iso later))) as Hit.
      { rewrite Hh. apply cache_lookup_hit.
        split; [apply cache_store_lookup|]. exists later. auto. }
      rewrite (chat_hit process_query' _ _ _ later' _ Hit).
      cbn [answer sources confidence].
      rewrite (validate_countable _ _ _ _ Hs). reflexivity.
    + intros Hold.
      assert (cache_lookup (cache_store query_cache query_hash r later)
                query_hash now' = None) as Hmiss'.
      { unfold cache_lookup. rewrite cache_store_lookup. simpl.
        case_ltb; [lia | reflexivity]. }
      split; [exact Hmiss'|].
      assert (cache_lookup (cache_store query_cache query_hash r later)
                (get_query_hash (message request') (filters request')) now'
              = None) as Hmiss'' by (rewrite Hh; exact Hmiss').
      destruct (chat_miss process_query' _ _ _ later' Hmiss'')
        as (H1 & _ & H3).
      split.
      * intros Hfail. split; [exact (H1 Hfail)|].
        split; [apply cache_store_lookup|].
        apply (expired_entry_counted _ query_hash now' _ later
                 (cache_store_lookup _ _ _ _) eq_refl Hold).
      * intros r' Hr' Hs'. rewrite (H3 r' Hr' Hs'), Hh. reflexivity.
  - intros process_query later.
    assert (cache_lookup (clear_cache query_cache) query_hash now = None)
      as Hmiss.
    { unfold cache_lookup, clear_cache. rewrite lookup_empty. reflexivity. }
    split; [exact Hmiss|].
    destruct (chat_miss process_query _ _ _ later Hmiss) as (H1 & _ & H3).
    split; [exact H1|]. intros r Hr Hs. exact (H3 r Hr Hs).
Qed.

End CacheFacts.

(* ===================================================================== *)
(** * Ingestion *)
(* ===================================================================== *)

Module IngestFacts.
Import Py Notions PyFacts ChunkerFacts DocumentProcessor.

(** The loop over the pages returns. *)
Lemma pages_loop_returns doc_id filename pages : forall page_num chunks,
  exists text_chunks,
    pages_loop doc_id filename pages page_num chunks = Some text_chunks.
Proof.
  induction pages as [|[text|] pages IH]; intros page_num chunks; simpl;
    eauto.
  destruct (strip text); [apply IH|].
  rewrite (chunk_text_returns text 1000 200) by lia. apply IH.
Qed.

Section Disk.
Variable disk : Type.
Variable joinpath : list ascii -> list ascii -> list ascii.
Variable write_upload : disk -> list ascii -> upload -> bool * disk.
Variable write_metadata :
  disk -> list ascii -> gmap (list ascii) metadata -> bool * disk.

Let ingest := process_document joinpath write_upload write_metadata.

Lemma process_document_returns self d file :
  exists outcome self' d', ingest self d file = Some (outcome, self', d').
Proof.
  subst ingest. unfold process_document, _extract_and_chunk_pdf.
  destruct (write_upload d _ file) as [[|] d1]; [|eauto].
  destruct (pages_loop_returns
              (MD5.hexdigest (encode (upload_filename file)))
              (upload_filename file) (pages file) 1 []) as [tc ->].
  destruct (_save_metadata _ _ _ _) as [[|] d2]; eauto.
Qed.

(** The second ingestion of a file, on a disk that takes it again,
    gives the same receipt and leaves [documents] and
    [documents_metadata] as they are, and it appends the chunks of the
    file to [chunks] once more. *)
Lemma process_document_twice self d file receipt self1 d1 d2 d3 :
  ingest self d file = Some (Ok receipt, self1, d1) ->
  write_upload d1 (joinpath (upload_dir self) (upload_filename file)) file
  = (true, d2) ->
  write_metadata d2 (metadata_file joinpath self1) (documents_metadata self1)
  = (true, d3) ->
  exists text_chunks,
    _extract_and_chunk_pdf (pages file)
      (MD5.hexdigest (encode (upload_filename file))) (upload_filename file)
    = Some text_chunks
    /\ ingest self1 d1 file
       = Some (Ok receipt,
               Make (upload_dir self1) (documents self1)
                 (chunks self1 ++ text_chunks) (documents_metadata self1),
               d3)
    /\ chunks self1 = chunks self ++ text_chunks
    /\ receipt_chunks_count receipt = len text_chunks.
Proof.
  subst ingest. unfold process_document.
  destruct (write_upload d _ file) as [[|] d']; [|discriminate].
  destruct (_extract_and_chunk_pdf (pages file)
              (MD5.hexdigest (encode (upload_filename file)))
              (upload_filename file)) as [tc|]; [|discriminate].
  destruct (_save_metadata _ _ _ _) as [[|] d'']; [|discriminate].
  intros [= <- <- <-] Hw Hm. exists tc. cbn [upload_dir].
  rewrite Hw. unfold _save_metadata, metadata_file in *.
  cbn [upload_dir documents documents_metadata chunks] in *.
  rewrite !insert_insert_eq, Hm. auto.
Qed.

End Disk.

(** C1: the code at the failing input. The one-page document
    [spec.pdf] is ingested twice into a fresh processor, on a disk
    that takes every write. Both ingestions return the same receipt
    with the same document id and a chunk count of 1, but after the
    second one the store holds two chunk records with the same id. *)
Theorem reingest_duplicates_chunks :
  let chunk_id :=
    MD5.hexdigest (encode (str "spec.pdf")) ++ str "_page1_chunk0" in
  let ingest :=
    process_document Examples.joinpath Examples.write_upload
      Examples.write_metadata in
  exists receipt self1 disk1 self2 disk2,
    ingest new [] Examples.spec_pdf = Some (Ok receipt, self1, disk1)
    /\ ingest self1 disk1 Examples.spec_pdf = Some (Ok receipt, self2, disk2)
    /\ receipt_chunks_count receipt = 1
    /\ map id (chunks self1) = [chunk_id]
    /\ map id (chunks self2) = [chunk_id; chunk_id]
    /\ len (chunks self1) = 1
    /\ len (chunks self2) = 2.
Proof.
  intros chunk_id ingest.
  destruct (process_document_returns _ Examples.joinpath
              Examples.write_upload Examples.write_metadata new []
              Examples.spec_pdf) as (outcome & self1 & d1 & E1).
  assert (exists receipt, outcome = Ok receipt) as [receipt ->].
  { revert E1. unfold process_document, Examples.write_upload,
      _save_metadata, Examples.write_metadata.
    destruct (_extract_and_chunk_pdf _ _ _); [|discriminate].
    intros [= <- _ _]. eauto. }
  destruct (process_document_twice _ _ _ _ _ _ _ _ _ _ _ _ E1 eq_refl eq_refl)
    as (tc & Etc & E2 & Hc & Hn).
  exists receipt, self1, d1. eexists. eexists.
  split; [exact E1|]. split; [exact E2|].
  vm_compute in Etc. injection Etc as <-.
  simpl chunks. rewrite Hc, Hn. simpl chunks.
  repeat split; vm_compute; reflexivity.
Qed.

End IngestFacts.

(* ===================================================================== *)
(** * The question answering pipeline *)
(* ===================================================================== *)

Module PipelineFacts.
Import Py Notions PyFacts RAGPipeline.

Section Pipeline.
Variable search : list ascii -> Z -> list retrieved.
Variable uuid4 : list ascii.
Variable chat_create : list turn -> chat_completion.
Variable create : list ascii -> StructuredExtractor.completion.
Variable json_loads : list ascii -> option pyval.
Variable prompt :
  StructuredExtractor.extraction_type -> list ascii -> list ascii.
Variable bullet : list ascii.
Variable repr : pyval -> list ascii.

Let run_query :=
  process_query search uuid4 chat_create create json_loads prompt bullet
    repr.




(** A conversation that the caller names but that does not exist
    makes [process_query] fail once the answer is to be recorded. *)
Lemma unseen_id_raises conversations query c cs :
  _is_extraction_request query = false ->
  search query 5 <> [] ->
  conversations !! (c :: cs) = None ->
  run_query conversations query (Some (c :: cs))
  = (Raise KeyError, conversations).
Proof.
  intros Hx Hs Hnone. subst run_query. unfold process_query.
  rewrite Hx. destruct (search query 5); [congruence|].
  rewrite Hnone. reflexivity.
Qed.

(** Without an identifier a conversation is created under a fresh
    one and receives the two turns. *)
Lemma fresh_id_appends conversations query :
  _is_extraction_request query = false ->
  search query 5 <> [] ->
  exists r,
    run_query conversations query None
    = (Ok r,
       <[uuid4 := [Turn (str "user") query;
                   Turn (str "assistant") (answer r)]]> conversations)
    /\ conversation_id r = uuid4.
Proof.
  intros Hx Hs. subst run_query. unfold process_query.
  rewrite Hx. destruct (search query 5) as [|d ds] eqn:E; [congruence|].
  rewrite lookup_insert_eq. eexists (Response _ _ _ _ _). split.
  - rewrite insert_insert_eq. simpl. reflexivity.
  - reflexivity.
Qed.

(** A conversation that exists receives the two turns at its end. *)
Lemma known_id_appends conversations query c cs turns :
  _is_extraction_request query = false ->
  search query 5 <> [] ->
  conversations !! (c :: cs) = Some turns ->
  exists r,
    run_query conversations query (Some (c :: cs))
    = (Ok r,
       <[c :: cs := turns ++ [Turn (str "user") query;
                              Turn (str "assistant") (answer r)]]>
         conversations)
    /\ conversation_id r = c :: cs.
Proof.
  intros Hx Hs Hsome. subst run_query. unfold process_query.
  rewrite Hx. destruct (search query 5) as [|d ds] eqn:E; [congruence|].
  rewrite Hsome. eexists (Response _ _ _ _ _). split; reflexivity.
Qed.
End Pipeline.



(** C5: the code at the failing input. A caller asks a question in a
    conversation [abc] that the pipeline has not seen, and the search
    finds a passage: [process_query] raises [KeyError] and no turn is
    recorded. *)
Theorem supplied_unseen_id_raises :
  process_query Examples.one_hit (str "id-1") Examples.chat_reply
    Examples.create_empty Examples.loads_empty Examples.prompt_context
    (str "*") Examples.repr_none ∅ (str "fire rating") (Some (str "abc"))
  = (Raise KeyError, ∅).
Proof. vm_compute. reflexivity. Qed.

End PipelineFacts.

(* ===================================================================== *)
(** * Parsing the answer of the generation service *)
(* ===================================================================== *)

Module ExtractorFacts.
Import Py Notions StructuredExtractor.

Lemma from_first_head c s s' :
  from_first c s = Some s' -> exists rest, s' = c :: rest.
Proof.
  induction s as [|a s IH]; simpl; [discriminate|].
  destruct (ascii_dec a c) as [->|_]; [|exact IH].
  intros [= <-]. eauto.
Qed.

(** What the regular expression finds starts with a bracket. *)
Lemma json_match_bracket s m :
  json_match s = Some m -> startswith m (str "[") = true.
Proof.
  unfold json_match.
  destruct (from_first "["%char s) as [[|open rest]|] eqn:E;
    try discriminate.
  destruct (from_first_head _ _ _ E) as [rest' [= -> _]].
  destruct (from_first "]"%char (rev rest)); [|discriminate].
  intros [= <-]. unfold str. simpl.
  destruct (ascii_dec "[" "["); [|congruence].
  destruct (rev l); reflexivity.
Qed.







(** The loop over the common keys returns a list when it returns. *)
Lemma scan_keys_list data keys v :
  scan_keys data keys = Ok v -> is_list v = true.
Proof.
  induction keys as [|key keys IH]; simpl.
  - intros [= <-]. reflexivity.
  - destruct (py_in key data) as [[|]|]; simpl; try discriminate; [|exact IH].
    destruct (py_getitem data key) as [w|]; simpl; [|discriminate].
    destruct (is_list w) eqn:Hw; [|exact IH].
    intros [= <-]. exact Hw.
Qed.

Section Parser.
Variable create : list ascii -> completion.
Variable json_loads : list ascii -> option pyval.

(** A text that starts with a bracket is parsed to a list, if it is
    parsed at all. *)
Hypothesis json_loads_array :
  forall s v,
    startswith s (str "[") = true -> json_loads s = Some v ->
    is_list v = true.

Lemma parse_direct_list result_text v :
  parse_direct json_loads result_text = Ok v -> is_list v = true.
Proof.
  unfold parse_direct.
  destruct (json_loads result_text) as [data|]; [|discriminate].
  destruct (is_list data) eqn:Hd.
  - intros [= <-]. exact Hd.
  - apply scan_keys_list.
Qed.

Lemma parse_recover_list result_text v :
  parse_recover json_loads result_text = Ok v -> is_list v = true.
Proof.
  unfold parse_recover.
  destruct (json_match result_text) as [m|] eqn:Em.
  - destruct (json_loads m) as [w|] eqn:Ew; [|discriminate].
    intros [= <-].
    exact (json_loads_array m w (json_match_bracket _ _ Em) Ew).
  - intros [= <-]. reflexivity.
Qed.

(** Whatever the service answers, the result is a list. *)
Lemma extract_with_gpt_list (prompt : list ascii) :
  exists l, _extract_with_gpt create json_loads prompt = Ok (PList l).
Proof.
  unfold _extract_with_gpt.
  destruct (create prompt) as [|[result_text|]]; simpl; eauto.
  destruct (parse_direct json_loads result_text) as [v|e] eqn:Ed; simpl.
  - apply parse_direct_list in Ed. destruct v; try discriminate. eauto.
  - destruct (is_decode_error e); simpl; eauto.
    destruct (parse_recover json_loads result_text) as [v|e'] eqn:Er;
      simpl; eauto.
    apply parse_recover_list in Er. destruct v; try discriminate. eauto.
Qed.

End Parser.


End ExtractorFacts.

(* ===================================================================== *)
(** * More on the chunker *)
(* ===================================================================== *)

Module ChunkerExtras.
Import Py Notions PyFacts ChunkerFacts DocumentProcessor.

(** A slice is a contiguous piece of the list. *)
Lemma slice_infix {A} (l : list A) start stop :
  exists before after, l = before ++ slice l start stop ++ after.
Proof.
  unfold slice.
  set (lo := Z.to_nat (slice_index (len l) start)).
  set (n := Z.to_nat (_ - _)).
  exists (firstn lo l), (skipn n (skipn lo l)).
  rewrite firstn_skipn, firstn_skipn. reflexivity.
Qed.

Lemma strip_infix s :
  exists before after, s = before ++ strip s ++ after.
Proof.
  destruct (strip_split s) as (ws1 & ws2 & E & _). eauto.
Qed.

(** A character that is not white space, in a text between two blank
    texts, lies in the middle text. *)
Lemma visible_inside (ws1 m ws2 : list ascii) (q : nat) c :
  blank ws1 -> blank ws2 ->
  nth_error (ws1 ++ m ++ ws2) q = Some c -> isspace c = false ->
  (length ws1 <= q < length ws1 + length m)%nat
  /\ nth_error m (q - length ws1) = Some c.
Proof.
  intros B1 B2 Hq Hc. unfold blank in *. rewrite List.Forall_forall in B1, B2.
  destruct (Nat.lt_ge_cases q (length ws1)) as [Hlt|Hge].
  - rewrite nth_error_app1 in Hq by exact Hlt.
    apply nth_error_In, B1 in Hq. congruence.
  - rewrite nth_error_app2 in Hq by exact Hge.
    destruct (Nat.lt_ge_cases (q - length ws1) (length m)) as [Hlt'|Hge'].
    + rewrite nth_error_app1 in Hq by exact Hlt'. split; [lia | exact Hq].
    + rewrite nth_error_app2 in Hq by exact Hge'.
      apply nth_error_In, B2 in Hq. congruence.
Qed.

(** X1: with an overlap that is not negative, chunking loses nothing
    but white space, and keeps every other character where it is: the
    character at position [p] of the text, when it is not white space,
    lies in the chunk number [p / (chunk_size - overlap)], which
    occurs in the text at a place that covers the position [p]. *)
Theorem chunks_keep_visible_characters (text : list ascii)
    (chunk_size overlap : Z) (fuel : nat) :
  0 <= overlap -> overlap < chunk_size -> (length text <= fuel)%nat ->
  exists chunks,
    _chunk_text fuel text chunk_size overlap = Some chunks
    /\ forall (p : nat) c,
         nth_error text p = Some c -> isspace c = false ->
         exists chunk before after,
           nth_error chunks (p / Z.to_nat (chunk_size - overlap)) = Some chunk
           /\ text = before ++ chunk ++ after
           /\ (length before <= p < length before + length chunk)%nat
           /\ nth_error chunk (p - length before) = Some c.
Proof.
  intros Ho Hs Hfuel. eexists. split; [apply chunk_text_returns; assumption|].
  intros p c Hp Hc.
  set (s := Z.to_nat (chunk_size - overlap)).
  assert (0 < s)%nat as Hs0 by (subst s; lia).
  set (i := (p / s)%nat).
  assert (p < length text)%nat as Hlen
    by (apply nth_error_Some; congruence).
  pose proof (Nat.div_mod_eq p s) as Hdm.
  pose proof (Nat.mod_upper_bound p s ltac:(lia)) as Hmod.
  fold i in Hdm.
  assert (i * s <= p)%nat as Hlo by lia.
  assert (i < Z.to_nat (ceil_div (len text) (chunk_size - overlap)))%nat
    as Hi.
  { rewrite ceil_div_floor by lia.
    apply Nat2Z.inj_lt. rewrite Z2Nat.id
      by (apply Z.div_pos; unfold len; lia).
    assert (Z.of_nat s = chunk_size - overlap) as Es by (subst s; lia).
    assert (Z.of_nat i + 1
            <= (len text + (chunk_size - overlap) - 1) / (chunk_size - overlap))
      by (apply Z.div_le_lower_bound; [lia | unfold len; nia]).
    lia. }
  set (w := window text chunk_size overlap i).
  assert (w = firstn (Z.to_nat chunk_size) (skipn (i * s) text)) as Ew.
  { subst w. unfold window. rewrite slice_window.
    - do 2 f_equal. subst s. lia.
    - unfold len. subst s. nia.
    - lia. }
  destruct (strip_split w) as (ws1 & ws2 & E & B1 & B2 & _).
  assert (nth_error w (p - i * s) = Some c) as Hq.
  { rewrite Ew. rewrite nth_error_firstn.
    assert ((p - i * s <? Z.to_nat chunk_size)%nat = true) as ->
      by (apply Nat.ltb_lt; subst s; lia).
    rewrite nth_error_skipn. rewrite <- Hp. f_equal. lia. }
  rewrite E in Hq.
  destruct (visible_inside ws1 (strip w) ws2 (p - i * s) c B1 B2 Hq Hc)
    as (Hin & Hnth).
  exists (strip w), (firstn (i * s) text ++ ws1),
    (ws2 ++ skipn (Z.to_nat chunk_size) (skipn (i * s) text)).
  assert (length (firstn (i * s) text) = (i * s)%nat) as Hl
    by (rewrite length_firstn; lia).
  repeat split.
  - rewrite nth_error_map, nth_error_seq.
    assert ((i <? Z.to_nat (ceil_div (len text) (chunk_size - overlap)))%nat
            = true) as -> by (apply Nat.ltb_lt; exact Hi).
    reflexivity.
  - rewrite <- (firstn_skipn (i * s) text) at 1.
    rewrite <- (firstn_skipn (Z.to_nat chunk_size) (skipn (i * s) text)) at 1.
    rewrite <- Ew. rewrite E at 1. rewrite <- !app_assoc. reflexivity.
  - rewrite length_app, Hl. lia.
  - rewrite length_app, Hl. lia.
  - rewrite length_app, Hl. rewrite <- Hnth. f_equal. lia.
Qed.

Lemma chunks_keep_visible_characters_witness :
  exists chunks,
    _chunk_text 5 (str "a b c") 2 0 = Some chunks
    /\ forall (p : nat) c,
         nth_error (str "a b c") p = Some c -> isspace c = false ->
         exists chunk before after,
           nth_error chunks (p / Z.to_nat (2 - 0)) = Some chunk
           /\ str "a b c" = before ++ chunk ++ after
           /\ (length before <= p < length before + length chunk)%nat
           /\ nth_error chunk (p - length before) = Some c.
Proof.
  apply (chunks_keep_visible_characters (str "a b c") 2 0 5);
    [lia | lia | simpl; lia].
Defined.

(** The chunks of that text. *)
Lemma chunks_of_a_b_c :
  _chunk_text 5 (str "a b c") 2 0 = Some [str "a"; str "b"; str "c"].
Proof. reflexivity. Qed.

(** X2: when the overlap is not smaller than the chunk size the window
    never advances, and on a text that is not empty the loop does not
    return, whatever the fuel. *)
Theorem chunk_text_never_returns (text : list ascii) (chunk_size overlap : Z)
    (fuel : nat) :
  chunk_size <= overlap -> text <> [] ->
  _chunk_text fuel text chunk_size overlap = None.
Proof.
  intros Hs Hne. unfold _chunk_text.
  apply chunk_loop_diverges; [exact Hs|].
  destruct text; [congruence | unfold len; simpl; lia].
Qed.

Lemma chunk_text_never_returns_witness :
  _chunk_text 1000 (str "abc") 200 200 = None.
Proof.
  apply (chunk_text_never_returns (str "abc") 200 200 1000);
    [lia | discriminate].
Defined.

(** X3: every chunk is a contiguous piece of the text. *)
Theorem chunks_are_pieces_of_text (text : list ascii) (chunk_size overlap : Z)
    (fuel : nat) :
  overlap < chunk_size -> (length text <= fuel)%nat ->
  exists chunks,
    _chunk_text fuel text chunk_size overlap = Some chunks
    /\ forall chunk, In chunk chunks ->
         exists before after, text = before ++ chunk ++ after.
Proof.
  intros Hs Hfuel. eexists. split; [apply chunk_text_returns; assumption|].
  intros chunk Hin. apply in_map_iff in Hin as (i & <- & _).
  unfold window.
  destruct (slice_infix text
              (Z.of_nat i * (chunk_size - overlap))
              (Z.of_nat i * (chunk_size - overlap) + chunk_size))
    as (b1 & a1 & E1).
  destruct (strip_infix
              (slice text (Z.of_nat i * (chunk_size - overlap))
                 (Z.of_nat i * (chunk_size - overlap) + chunk_size)))
    as (b2 & a2 & E2).
  exists (b1 ++ b2), (a2 ++ a1).
  rewrite E1 at 1. rewrite E2 at 1. rewrite <- !app_assoc. reflexivity.
Qed.

Lemma chunks_are_pieces_of_text_witness :
  exists chunks,
    _chunk_text 5 (str "a b c") 2 0 = Some chunks
    /\ forall chunk, In chunk chunks ->
         exists before after, str "a b c" = before ++ chunk ++ after.
Proof.
  apply (chunks_are_pieces_of_text (str "a b c") 2 0 5); [lia | simpl; lia].
Defined.

End ChunkerExtras.

(* ===================================================================== *)
(** * Decimal numerals *)
(* ===================================================================== *)

Module DecimalFacts.
Import Py.

Lemma list_ascii_of_string_inj s1 s2 :
  list_ascii_of_string s1 = list_ascii_of_string s2 -> s1 = s2.
Proof.
  intros H. rewrite <- (string_of_list_ascii_of_string s1),
    <- (string_of_list_ascii_of_string s2). congruence.
Qed.

Lemma to_int_not_nil n :
  Z.to_int n <> Decimal.Pos Decimal.Nil /\ Z.to_int n <> Decimal.Neg Decimal.Nil.
Proof.
  split; intros H; pose proof (DecimalZ.of_to n) as E; rewrite H in E;
    simpl in E; subst n; discriminate.
Qed.

(** [str] of an integer determines the integer. *)
Lemma str_of_int_inj a b : str_of_int a = str_of_int b -> a = b.
Proof.
  unfold str_of_int, str. intros H. apply list_ascii_of_string_inj in H.
  destruct (to_int_not_nil a) as [Ha1 Ha2].
  destruct (to_int_not_nil b) as [Hb1 Hb2].
  pose proof (NilZero.isi _ Ha1 Ha2) as Ea.
  pose proof (NilZero.isi _ Hb1 Hb2) as Eb.
  rewrite H in Ea. rewrite Ea in Eb. injection Eb as Eb.
  rewrite <- (DecimalZ.of_to a), <- (DecimalZ.of_to b). congruence.
Qed.

Lemma uint_no_underscore d :
  ~ In "_"%char (list_ascii_of_string (NilEmpty.string_of_uint d)).
Proof.
  induction d; simpl; [tauto|..]; intros [H|H]; solve [discriminate | tauto].
Qed.

(** A numeral has no underscore. *)
Lemma str_of_int_no_underscore n : ~ In "_"%char (str_of_int n).
Proof.
  unfold str_of_int, str, NilZero.string_of_int, NilZero.string_of_uint.
  destruct (Z.to_int n) as [d|d]; destruct d; simpl;
    intros H; repeat (destruct H as [H|H]; [discriminate|]);
    try (exact H); try (revert H; apply uint_no_underscore);
    try (destruct H as [H|H]; [discriminate|]).
Qed.

(** Two texts that agree up to and after a separator which neither
    head contains have the same heads and the same tails. *)
Lemma split_at_separator {A} (c : A) a : forall a' b b',
  ~ In c a -> ~ In c a' -> a ++ c :: b = a' ++ c :: b' -> a = a' /\ b = b'.
Proof.
  induction a as [|x a IH]; intros [|x' a'] b b' Ha Ha' E; simpl in *.
  - injection E as ->. auto.
  - injection E as <- _. tauto.
  - injection E as -> _. tauto.
  - injection E as -> E. destruct (IH a' b b') as [-> ->]; tauto.
Qed.

End DecimalFacts.

(* ===================================================================== *)
(** * More on ingestion *)
(* ===================================================================== *)

Module IngestExtras.
Import Py Notions PyFacts ChunkerFacts ChunkerExtras DecimalFacts.
Import DocumentProcessor IngestFacts.

(** The identifier of a chunk determines its page and its index. *)
Lemma chunk_id_inj doc_id p i p' i' :
  doc_id ++ str "_page" ++ str_of_int p ++ str "_chunk" ++ str_of_int i
  = doc_id ++ str "_page" ++ str_of_int p' ++ str "_chunk" ++ str_of_int i' ->
  p = p' /\ i = i'.
Proof.
  intros E. apply app_inv_head in E. apply (app_inv_head (str "_page")) in E.
  change (str "_chunk") with ("_"%char :: str "chunk") in E.
  apply split_at_separator in E as [Ep Ei];
    try apply str_of_int_no_underscore.
  apply app_inv_head in Ei.
  split; apply str_of_int_inj; assumption.
Qed.

(** The records of one page. *)
Lemma page_records_in doc_id fn p page_chunks : forall i0 c,
  In c (page_records doc_id fn p i0 page_chunks) ->
  document_id c = doc_id /\ filename c = fn /\ page_number c = p
  /\ i0 <= chunk_index c
  /\ id c = doc_id ++ str "_page" ++ str_of_int (page_number c)
            ++ str "_chunk" ++ str_of_int (chunk_index c)
  /\ In (content c) page_chunks.
Proof.
  induction page_chunks as [|t rest IH]; intros i0 c; simpl; [tauto|].
  intros [<-|Hin]; simpl.
  - repeat split; auto. lia.
  - destruct (IH _ _ Hin) as (?&?&?&?&?&?). repeat split; auto. lia.
Qed.

Lemma page_records_keys doc_id fn p page_chunks : forall i0,
  NoDup (map (fun c => (page_number c, chunk_index c))
           (page_records doc_id fn p i0 page_chunks)).
Proof.
  induction page_chunks as [|t rest IH]; intros i0; simpl;
    constructor; [|apply IH].
  intros Hin. apply list_elem_of_In, in_map_iff in Hin as (c & E & Hc).
  apply page_records_in in Hc as (_&_&_&Hi&_). injection E as _ E. lia.
Qed.

Lemma extracted_shift doc_id fn first page pages c :
  extracted doc_id fn (first + 1) pages c ->
  extracted doc_id fn first (page :: pages) c.
Proof.
  intros (?&?&?&?&?&?&?&text&b&a&Hn&E).
  do 7 (split; [first [assumption | lia]|]).
  exists text, b, a. split; [|exact E].
  replace (Z.to_nat (page_number c - first))
    with (S (Z.to_nat (page_number c - (first + 1)))) by lia.
  exact Hn.
Qed.

(** The loop over the pages returns the chunks it was given followed
    by new ones; the new ones are well formed and no two of them have
    the same page and index. *)
Lemma pages_loop_extracted doc_id fn pages : forall page_num chunks,
  exists new,
    pages_loop doc_id fn pages page_num chunks = Some (chunks ++ new)
    /\ (forall c, In c new -> extracted doc_id fn page_num pages c)
    /\ NoDup (map (fun c => (page_number c, chunk_index c)) new).
Proof.
  induction pages as [|[text|] pages IH]; intros page_num chunks.
  - exists []. simpl. rewrite app_nil_r.
    split; [reflexivity|]. split; [intros c []|constructor].
  - simpl. destruct (strip text) eqn:Es.
    + destruct (IH (page_num + 1) chunks) as (new & E & Hnew & Hnd).
      exists new. split; [exact E|]. split; [|exact Hnd].
      intros c Hc. apply extracted_shift, Hnew, Hc.
    + rewrite (chunk_text_returns text 1000 200) by lia.
      set (page_chunks := map _ _).
      destruct (IH (page_num + 1)
                  (chunks ++ page_records doc_id fn page_num 0 page_chunks))
        as (new & E & Hnew & Hnd).
      exists (page_records doc_id fn page_num 0 page_chunks ++ new).
      split; [rewrite E, <- app_assoc; reflexivity|]. split.
      * intros c Hc. apply in_app_iff in Hc as [Hc|Hc].
        -- apply page_records_in in Hc as (Hd&Hf&Hp&Hi&Hid&Hin).
           subst page_chunks. apply in_map_iff in Hin as (i & Hi' & Hseq).
           apply in_seq in Hseq.
           assert (i < Z.to_nat (ceil_div (len text) (1000 - 200)))%nat
             as Hlt by lia.
           pose proof (window_starts_inside text 1000 200 ltac:(lia) i Hlt)
             as Hstart.
           do 5 (split; [first [assumption | lia]|]).
           split; [|split].
           ++ rewrite <- Hi'. apply strip_trimmed.
           ++ rewrite <- Hi'. etransitivity; [apply strip_length|].
              unfold window. rewrite slice_window_length by lia. lia.
           ++ unfold window in Hi'.
              destruct (slice_infix text (Z.of_nat i * (1000 - 200))
                          (Z.of_nat i * (1000 - 200) + 1000))
                as (b1 & a1 & E1).
              destruct (strip_infix
                          (slice text (Z.of_nat i * (1000 - 200))
                             (Z.of_nat i * (1000 - 200) + 1000)))
                as (b2 & a2 & E2).
              exists text, (b1 ++ b2), (a2 ++ a1). split.
              ** rewrite Hp, Z.sub_diag. reflexivity.
              ** rewrite <- Hi'. rewrite E1 at 1. rewrite E2 at 1.
                 rewrite <- !app_assoc. reflexivity.
        -- apply extracted_shift, Hnew, Hc.
      * rewrite map_app. apply NoDup_app. split; [apply page_records_keys|].
        split; [|exact Hnd].
        intros k Hk Hk'.
        apply list_elem_of_In, in_map_iff in Hk as (c & <- & Hc).
        apply list_elem_of_In, in_map_iff in Hk' as (c' & Ek & Hc').
        apply page_records_in in Hc as (_&_&Hp&_).
        apply Hnew in Hc' as (_&_&_&_&Hp'&_).
        injection Ek as Ek _. lia.
  - exists []. simpl. rewrite app_nil_r.
    split; [reflexivity|]. split; [intros c []|constructor].
Qed.

(** Distinct pages and indices give distinct identifiers. *)
Lemma ids_distinct doc_id fn first pages (l : list chunk) :
  (forall c, In c l -> extracted doc_id fn first pages c) ->
  NoDup (map (fun c => (page_number c, chunk_index c)) l) ->
  NoDup (map id l).
Proof.
  induction l as [|c l IH]; simpl; intros Hall Hnd; [constructor|].
  apply NoDup_cons in Hnd as [Hc Hnd]. constructor.
  - intros Hin. apply Hc.
    apply list_elem_of_In, in_map_iff in Hin as (c' & E & Hc').
    apply list_elem_of_In, in_map_iff. exists c'. split; [|exact Hc'].
    destruct (Hall c (or_introl eq_refl)) as (_&_&Hid&_).
    destruct (Hall c' (or_intror Hc')) as (Hd'&_&Hid'&_).
    rewrite Hid, Hid' in E.
    apply chunk_id_inj in E as [-> ->]. reflexivity.
  - apply IH; auto.
Qed.

Lemma pages_loop_unreadable doc_id fn rest before : forall page_num chunks,
  pages_loop doc_id fn (before ++ None :: rest) page_num chunks
  = pages_loop doc_id fn before page_num chunks.
Proof.
  induction before as [|[text|] before IH]; intros page_num chunks; simpl;
    try reflexivity.
  destruct (strip text); [apply IH|].
  destruct (_chunk_text (length text) text 1000 200); [apply IH|reflexivity].
Qed.

(** X4: a page that cannot be read ends the extraction: the chunks of
    the pages before it are returned and the pages after it are left
    out, without an error. *)
Theorem unreadable_page_ends_extraction
    (before rest : list (option (list ascii))) (doc_id fn : list ascii) :
  _extract_and_chunk_pdf (before ++ None :: rest) doc_id fn
  = _extract_and_chunk_pdf before doc_id fn.
Proof. apply pages_loop_unreadable. Qed.

(** X5: the extraction returns, and each of its chunks carries the
    identifier and the name of the document, an identifier made of the
    document identifier, its page and its index, a page number that
    starts at 1, and a content that is trimmed, has at most 1000
    characters and is a contiguous piece of the text of its page. *)
Theorem extracted_chunks_well_formed (pages : list (option (list ascii)))
    (doc_id fn : list ascii) :
  exists chunks,
    _extract_and_chunk_pdf pages doc_id fn = Some chunks
    /\ forall c, In c chunks -> extracted doc_id fn 1 pages c.
Proof.
  unfold _extract_and_chunk_pdf.
  destruct (pages_loop_extracted doc_id fn pages 1 []) as (new & E & H & _).
  exists new. split; [exact E | exact H].
Qed.

(** X6: within one extraction no two chunks have the same identifier. *)
Theorem extracted_ids_distinct (pages : list (option (list ascii)))
    (doc_id fn : list ascii) :
  exists chunks,
    _extract_and_chunk_pdf pages doc_id fn = Some chunks
    /\ NoDup (map id chunks).
Proof.
  unfold _extract_and_chunk_pdf.
  destruct (pages_loop_extracted doc_id fn pages 1 []) as (new & E & H & Hnd).
  exists new. split; [exact E|]. exact (ids_distinct _ _ _ _ _ H Hnd).
Qed.

Section Disk.
Variable disk : Type.
Variable joinpath : list ascii -> list ascii -> list ascii.
Variable write_upload : disk -> list ascii -> upload -> bool * disk.
Variable write_metadata :
  disk -> list ascii -> gmap (list ascii) metadata -> bool * disk.


End Disk.

End IngestExtras.

(* ===================================================================== *)
(** * More on the keyword search *)
(* ===================================================================== *)

Module SearchExtras.
Import Py Notions PyFacts SortedFacts SearchFacts DocumentProcessor.

Lemma count_from_nonneg w s : forall skip, 0 <= count_from s w skip.
Proof.
  induction s as [|c s IH]; intros skip; [simpl; lia|].
  cbn [count_from]. destruct skip; [|apply IH].
  destruct (startswith (c :: s) w); [|apply IH].
  pose proof (IH (length w - 1)%nat). lia.
Qed.

(** A word that occurs in a text is counted at least once. *)
Lemma contains_count s w :
  w <> [] -> contains s w = true -> 1 <= count s w.
Proof.
  intros Hw. destruct w as [|a w]; [congruence|]. unfold count. clear Hw.
  induction s as [|c s IH]; [simpl; discriminate|].
  cbn [contains count_from].
  destruct (startswith (c :: s) (a :: w)) eqn:Hs.
  - intros _.
    pose proof (count_from_nonneg (a :: w) s (length (a :: w) - 1)%nat).
    lia.
  - simpl. exact IH.
Qed.

(** The words of a text are not empty. *)
Lemma split_from_nonempty s : forall cur w,
  In w (split_from s cur) -> w <> [].
Proof.
  assert (Hrev : forall (c : ascii) l, rev (c :: l) <> []).
  { intros c l E. apply (f_equal (@length ascii)) in E.
    rewrite length_rev in E. discriminate. }
  induction s as [|c s IH]; intros cur w; simpl.
  - destruct cur; [tauto|]. intros [<-|[]]. apply Hrev.
  - destruct (isspace c); [|apply IH].
    destruct cur; [apply IH|].
    intros [<-|Hin]; [apply Hrev | exact (IH _ _ Hin)].
Qed.

(** A text of white space has no word. *)
Lemma split_blank s : blank s -> split s = [].
Proof.
  unfold split. induction 1 as [|c s Hc _ IH]; simpl; [reflexivity|].
  rewrite Hc. exact IH.
Qed.

(** The score grows with every word that occurs. *)
Lemma score_fold_ge content_lower words : forall score,
  score <= fold_left
             (fun score word =>
                if contains content_lower word
                then score + count content_lower word else score)
             words score.
Proof.
  induction words as [|w words IH]; intros score; simpl; [lia|].
  etransitivity; [|apply IH].
  destruct (contains content_lower w) eqn:Hc; [|lia].
  destruct w as [|a w].
  - unfold count. unfold len. lia.
  - pose proof (contains_count content_lower (a :: w) ltac:(discriminate) Hc).
    lia.
Qed.

Lemma score_fold_word content_lower words word : forall score,
  In word words -> word <> [] -> contains content_lower word = true ->
  score + 1 <= fold_left
                 (fun score word =>
                    if contains content_lower word
                    then score + count content_lower word else score)
                 words score.
Proof.
  induction words as [|w words IH]; intros score Hin Hne Hc; simpl;
    [destruct Hin|].
  destruct Hin as [->|Hin].
  - rewrite Hc. etransitivity; [|apply score_fold_ge].
    pose proof (contains_count content_lower word Hne Hc). lia.
  - etransitivity; [|apply IH; assumption].
    pose proof (score_fold_ge content_lower [w] score) as H. simpl in H. lia.
Qed.

(** The score of a chunk is positive exactly when the chunk matches. *)
Lemma score_positive_iff query c :
  0 < score_chunk (lower query) c <-> matches query c = true.
Proof.
  unfold matches. rewrite existsb_exists. split.
  - intros H. apply score_positive_word in H as (word & Hin & Hc). eauto.
  - intros (word & Hin & Hc). unfold score_chunk.
    pose proof (score_fold_word (lower (content c)) (split (lower query))
                  word 0 Hin (split_from_nonempty _ _ _ Hin) Hc). lia.
Qed.

(** The scan keeps every chunk of positive score. *)
Lemma scan_complete query_lower cs c :
  In c cs -> 0 < score_chunk query_lower c ->
  In (Scored c (score_chunk query_lower c)) (scan query_lower cs).
Proof.
  induction cs as [|c' cs IH]; simpl; [tauto|].
  intros [->|Hin] Hpos.
  - destruct (Z.ltb_spec 0 (score_chunk query_lower c)); [|lia]. left.
    reflexivity.
  - destruct (Z.ltb_spec 0 (score_chunk query_lower c')); [right|]; auto.
Qed.

(** The scan keeps as many chunks as match. *)
Lemma scan_matches query cs :
  length (scan (lower query) cs) = length (List.filter (matches query) cs).
Proof.
  induction cs as [|c' cs IH]; simpl; [reflexivity|].
  destruct (Z.ltb_spec 0 (score_chunk (lower query) c')) as [Hp|Hp].
  - apply score_positive_iff in Hp. rewrite Hp. simpl. f_equal. exact IH.
  - destruct (matches query c') eqn:Hm'; [|exact IH].
    apply score_positive_iff in Hm'. lia.
Qed.



(** X9: a chunk has a positive score exactly when a word of the query
    occurs in its content, and when [top_k] is not smaller than the
    number of matching chunks every matching chunk of the store is
    returned. *)
Theorem search_finds_every_match (self : t) (query : list ascii) (top_k : Z) :
  len (List.filter (matches query) (chunks self)) <= top_k ->
  (forall c, 0 < score_chunk (lower query) c <-> matches query c = true)
  /\ forall c,
       In c (chunks self) -> matches query c = true ->
       In (Scored c (score_chunk (lower query) c))
         (search_documents self query top_k).
Proof.
  intros Hk. split; [intros c; apply score_positive_iff|].
  intros c Hin Hm. apply score_positive_iff in Hm.
  pose proof (scan_matches query (chunks self)) as Hlen.
  unfold search_documents.
  rewrite slice_prefix by (pose proof (len_nonneg
    (List.filter (matches query) (chunks self))); lia).
  rewrite firstn_all2.
  - apply list_elem_of_In. rewrite sorted_perm.
    apply list_elem_of_In, scan_complete; assumption.
  - rewrite (Permutation_length
               (sorted_perm by_score_desc (scan (lower query) (chunks self)))).
    unfold len in *. lia.
Qed.

Lemma search_finds_every_match_witness :
  In (Scored Examples.door_chunk
        (score_chunk (lower (str "fire rating")) Examples.door_chunk))
    (search_documents Examples.store (str "fire rating") 5).
Proof.
  apply (search_finds_every_match Examples.store (str "fire rating") 5).
  - vm_compute. discriminate.
  - simpl. auto.
  - vm_compute. reflexivity.
Defined.

(** X10: a query without a word, empty or made of white space, finds
    nothing, whatever the store holds. *)
Theorem blank_query_finds_nothing (self : t) (query : list ascii) (top_k : Z) :
  blank query -> search_documents self query top_k = [].
Proof.
  intros B. unfold search_documents.
  assert (scan (lower query) (chunks self) = []) as ->.
  { induction (chunks self) as [|c cs IH]; simpl; [reflexivity|].
    unfold score_chunk at 1.
    rewrite (lower_blank query B), (split_blank query B). simpl.
    rewrite (lower_blank query B) in IH. exact IH. }
  simpl. unfold slice. simpl. destruct (Z.to_nat _); reflexivity.
Qed.

Lemma blank_query_finds_nothing_witness :
  search_documents Examples.store (str "   ") 5 = [].
Proof.
  apply (blank_query_finds_nothing Examples.store (str "   ") 5).
  repeat constructor.
Defined.

End SearchExtras.

(* ===================================================================== *)
(** * More on the query cache *)
(* ===================================================================== *)

Module CacheExtras.
Import Py Notions PyFacts CacheFacts Main.

(** The fingerprint depends on the message through its normal form. *)
Lemma get_query_hash_key query query' filters :
  strip (lower query') = strip (lower query) ->
  get_query_hash query' filters = get_query_hash query filters.
Proof. intros H. unfold get_query_hash. rewrite H. reflexivity. Qed.

Section Handler.
Variable process_query :
  text -> option (list ascii) -> option (list (list ascii * pyval))
  -> option result.

(** X11: an answered request is served from the cache afterwards. When
    [chat] has computed and stored an answer at the instant [later] (the
    pipeline returned a result whose sources can be counted), a request
    with the same filters whose message has the same normal form (lower
    case, trimmed), made less than 3600 seconds after that instant,
    gets the stored answer, sources and confidence with no
    conversation id, whatever the pipeline would do, and the cache is
    left as it is. When the sources of the result cannot be counted,
    the first request is answered with status 500 and nothing is
    stored. *)
Theorem repeated_request_served_from_cache
    (process_query' :
       text -> option (list ascii) -> option (list (list ascii * pyval))
       -> option result)
    (query_cache : gmap (list ascii) entry) (request request' : ChatRequest)
    (now later now' later' : Z) (r : result) :
  cache_lookup query_cache
    (get_query_hash (message request) (filters request)) now = None ->
  process_query (message request) (conversation_id request) (filters request)
  = Some r ->
  strip (lower (message request')) = strip (lower (message request)) ->
  filters request' = filters request ->
  now' - later < CACHE_TTL_SECONDS * 1000000 ->
  (forallb countable (result_sources r) = true ->
   exists query_cache1,
     chat process_query query_cache request now later
     = (Reply (Response (result_answer r) (result_sources r)
                 (result_conversation_id r) (result_confidence r)),
        query_cache1)
     /\ chat process_query' query_cache1 request' now' later'
        = (Reply (Response (result_answer r) (result_sources r) None
                    (result_confidence r)),
           query_cache1))
  /\ (forallb countable (result_sources r) = false ->
      chat process_query query_cache request now later
      = (HTTP500, query_cache)).
Proof.
  intros Hmiss Hr Hkey Hf Hfresh.
  destruct (chat_miss process_query _ _ _ later Hmiss) as (_ & H2 & H3).
  split.
  - intros Hs. eexists. split; [exact (H3 r Hr Hs)|].
    unfold chat. rewrite Hf, (get_query_hash_key _ _ _ Hkey).
    unfold cache_lookup. rewrite cache_store_lookup. simpl.
    case_ltb; [|lia].
    rewrite (validate_countable _ _ _ _ Hs). reflexivity.
  - intros Hs. exact (H2 r Hr Hs).
Qed.

(** X12: an expired entry is replaced. When the entry of a request is
    3600 seconds old or older, [chat] asks the pipeline again; with a
    result whose sources can be counted it answers with the new result
    and stores it under the same fingerprint with the time of storage,
    and the number of cached queries stays the same; with a result
    whose sources cannot be counted it answers with status 500 and the
    old entry stays. *)
Theorem expired_entry_replaced
    (query_cache : gmap (list ascii) entry) (request : ChatRequest)
    (now later : Z) (e : entry) (t : Z) (r : result) :
  query_cache !! get_query_hash (message request) (filters request) = Some e ->
  timestamp e = Iso t ->
  CACHE_TTL_SECONDS * 1000000 <= now - t ->
  process_query (message request) (conversation_id request) (filters request)
  = Some r ->
  (forallb countable (result_sources r) = true ->
   exists query_cache1,
     chat process_query query_cache request now later
     = (Reply (Response (result_answer r) (result_sources r)
                 (result_conversation_id r) (result_confidence r)),
        query_cache1)
     /\ query_cache1 !! get_query_hash (message request) (filters request)
        = Some (Entry (result_answer r) (result_sources r)
                  (result_confidence r) (result_structured_data r)
                  (Iso later))
     /\ fst (cache_stats query_cache1 later)
        = fst (cache_stats query_cache now))
  /\ (forallb countable (result_sources r) = false ->
      chat process_query query_cache request now later
      = (HTTP500, query_cache)).
Proof.
  intros He Ht Hold Hr.
  assert (cache_lookup query_cache
            (get_query_hash (message request) (filters request)) now = None)
    as Hmiss.
  { unfold cache_lookup, is_cache_valid. rewrite He, Ht.
    case_ltb; [lia | reflexivity]. }
  destruct (chat_miss process_query _ _ _ later Hmiss) as (_ & H2 & H3).
  split.
  - intros Hs. eexists. split; [exact (H3 r Hr Hs)|]. split.
    + apply cache_store_lookup.
    + unfold cache_stats, cache_store. simpl. f_equal.
      apply map_size_insert_Some. rewrite He. eauto.
  - intros Hs. exact (H2 r Hr Hs).
Qed.

(** X13: [chat] touches one entry. Whatever the request and the
    pipeline do, the entries under other fingerprints are the same
    afterwards, no entry disappears and at most one is added. *)
Theorem chat_touches_one_entry
    (query_cache : gmap (list ascii) entry) (request : ChatRequest)
    (now later : Z) :
  (forall query_hash,
      query_hash <> get_query_hash (message request) (filters request) ->
      snd (chat process_query query_cache request now later) !! query_hash
      = query_cache !! query_hash)
  /\ (forall query_hash,
        is_Some (query_cache !! query_hash) ->
        is_Some (snd (chat process_query query_cache request now later)
                   !! query_hash))
  /\ fst (cache_stats query_cache now)
     <= fst (cache_stats
               (snd (chat process_query query_cache request now later)) later)
     <= fst (cache_stats query_cache now) + 1.
Proof.
  unfold chat.
  set (h := get_query_hash (message request) (filters request)).
  destruct (cache_lookup query_cache h now) as [hit|]; simpl.
  { split; [reflexivity|]. split; [auto | lia]. }
  destruct (process_query _ _ _) as [r|]; simpl.
  2:{ split; [reflexivity|]. split; [auto | lia]. }
  destruct (count_sources (result_sources r)) as [keys|e]; simpl.
  2:{ split; [reflexivity|]. split; [auto | lia]. }
  unfold cache_store. split; [|split].
  - intros query_hash Hne. apply lookup_insert_ne. congruence.
  - intros query_hash Hs. destruct (decide (h = query_hash)) as [<-|Hne].
    + rewrite lookup_insert_eq. eauto.
    + rewrite lookup_insert_ne by exact Hne. exact Hs.
  - destruct (query_cache !! h) as [e|] eqn:He.
    + rewrite map_size_insert_Some by eauto. lia.
    + rewrite map_size_insert_None by exact He. lia.
Qed.

End Handler.

Lemma repeated_request_served_from_cache_witness :
  exists query_cache1,
    chat Examples.answered ∅ (Request (str "Fire rating") None None) 0 1
    = (Reply (Response (str "1 HR") [Examples.page_one] (Some (str "id-1"))
                (Some (str "high"))),
       query_cache1)
    /\ chat Examples.unavailable query_cache1
         (Request (str "  fire RATING ") (Some (str "id-1")) None) 2 3
       = (Reply (Response (str "1 HR") [Examples.page_one] None
                   (Some (str "high"))),
          query_cache1).
Proof.
  apply (repeated_request_served_from_cache Examples.answered
           Examples.unavailable ∅ (Request (str "Fire rating") None None)
           (Request (str "  fire RATING ") (Some (str "id-1")) None)
           0 1 2 3
           (Result (str "1 HR") [Examples.page_one] (Some (str "id-1"))
              (Some (str "high")) None)).
  - unfold cache_lookup. rewrite lookup_empty. reflexivity.
  - reflexivity.
  - vm_compute. reflexivity.
  - reflexivity.
  - vm_compute. reflexivity.
  - reflexivity.
Defined.

Lemma expired_entry_replaced_witness :
  exists query_cache1,
    chat Examples.answered Examples.stale_cache
      (Request (str "Fire rating") None None) 3600000000 3600000001
    = (Reply (Response (str "1 HR") [Examples.page_one] (Some (str "id-1"))
                (Some (str "high"))),
       query_cache1)
    /\ query_cache1 !! get_query_hash (str "Fire rating") None
       = Some (Entry (str "1 HR") [Examples.page_one] (Some (str "high")) None
                 (Iso 3600000001))
    /\ fst (cache_stats query_cache1 3600000001)
       = fst (cache_stats Examples.stale_cache 3600000000).
Proof.
  apply (expired_entry_replaced Examples.answered Examples.stale_cache
           (Request (str "Fire rating") None None) 3600000000 3600000001
           (Entry (str "2 HR") [] None None (Iso 0)) 0
           (Result (str "1 HR") [Examples.page_one] (Some (str "id-1"))
              (Some (str "high")) None)).
  - apply lookup_insert_eq.
  - reflexivity.
  - vm_compute. discriminate.
  - reflexivity.
  - reflexivity.
Defined.

(** An entry is counted as valid exactly when a lookup would hit. *)
Lemma valid_entries_all (query_cache : gmap (list ascii) entry) now :
  size (filter (fun kv => is_cache_valid now (timestamp kv.2) = true)
          query_cache) = size query_cache
  <-> forall query_hash e,
        query_cache !! query_hash = Some e ->
        is_cache_valid now (timestamp e) = true.
Proof.
  split.
  - intros Hsize query_hash e He.
    destruct (is_cache_valid now (timestamp e)) eqn:Hv; [reflexivity|].
    exfalso.
    assert (filter (fun kv => is_cache_valid now (timestamp kv.2) = true)
              query_cache ⊂ query_cache) as Hsub.
    { split; [apply map_filter_subseteq|].
      intros Hsub. pose proof (lookup_weaken _ _ _ _ He Hsub) as Hf.
      apply map_lookup_filter_Some in Hf as [_ Hvalid]. simpl in Hvalid.
      congruence. }
    apply map_subset_size in Hsub. lia.
  - intros Hall. f_equal. apply map_filter_id.
    intros query_hash e He. simpl. eauto.
Qed.

(** X14: the statistics of the cache. The number of valid entries lies
    between zero and the number of cached queries, and equals it
    exactly when every cached entry is younger than 3600 seconds. *)
Theorem cache_stats_bounds (query_cache : gmap (list ascii) entry) (now : Z) :
  0 <= snd (cache_stats query_cache now) <= fst (cache_stats query_cache now)
  /\ (snd (cache_stats query_cache now) = fst (cache_stats query_cache now)
      <-> forall query_hash e,
            query_cache !! query_hash = Some e ->
            exists t, timestamp e = Iso t
                      /\ now - t < CACHE_TTL_SECONDS * 1000000).
Proof.
  unfold cache_stats. simpl. split.
  - split; [lia|]. apply Nat2Z.inj_le, map_subseteq_size, map_filter_subseteq.
  - rewrite Nat2Z.inj_iff, valid_entries_all.
    split; intros H query_hash e He; specialize (H query_hash e He).
    + unfold is_cache_valid in H. destruct (timestamp e) as [t|];
        [|discriminate].
      exists t. split; [reflexivity|]. revert H. case_ltb; [auto|discriminate].
    + destruct H as (t & -> & Hlt). unfold is_cache_valid.
      case_ltb; [reflexivity | lia].
Qed.

End CacheExtras.

(* ===================================================================== *)
(** * The sources of an answer *)
(* ===================================================================== *)

Module SourceFacts.
Import Py Notions PyFacts DecimalFacts.

(** The key [f"{filename}_{page}"] determines the file and the page:
    the numeral has no underscore, so the last underscore of the key
    is the separator. *)
Lemma source_key_inj filename page filename' page' :
  filename ++ str "_" ++ str_of_int page
  = filename' ++ str "_" ++ str_of_int page' ->
  filename = filename' /\ page = page'.
Proof.
  intros E. apply (f_equal (@rev ascii)) in E.
  rewrite !rev_app_distr in E. cbn [str list_ascii_of_string rev app] in E.
  rewrite <- !app_assoc in E. cbn [app] in E.
  apply split_at_separator in E as [E1 E2].
  - apply (f_equal (@rev ascii)) in E1, E2.
    rewrite !rev_involutive in E1, E2.
    split; [exact E2 | exact (str_of_int_inj _ _ E1)].
  - rewrite <- in_rev. apply str_of_int_no_underscore.
  - rewrite <- in_rev. apply str_of_int_no_underscore.
Qed.

Lemma source_key_origin doc doc' :
  source_key doc = source_key doc' <-> origin doc = origin doc'.
Proof.
  unfold source_key, origin. split.
  - intros E. apply source_key_inj in E as [-> ->]. reflexivity.
  - intros [= -> ->]. reflexivity.
Qed.

(** The loop of [_format_sources], from any set of keys seen. *)
Lemma format_sources_loop docs : forall seen,
  (exists kept,
      kept `sublist_of` docs
      /\ map cited (RAGPipeline.sources_loop docs seen) = map origin kept
      /\ forall doc, doc ∈ kept -> source_key doc ∉ seen)
  /\ (forall doc, doc ∈ docs ->
        source_key doc ∈ seen
        \/ origin doc ∈ map cited (RAGPipeline.sources_loop docs seen))
  /\ (forall s, s ∈ RAGPipeline.sources_loop docs seen ->
        exists doc preview,
          doc ∈ docs
          /\ s = Source (hit_filename doc) (hit_page doc) (Some preview)
          /\ len preview <= 203
          /\ (len (hit_text doc) <= 200 -> preview = hit_text doc)).
Proof.
  induction docs as [|doc docs IH]; intros seen.
  - simpl. split; [|split].
    + exists []. split; [constructor|]. split; [reflexivity|].
      intros doc H. inversion H.
    + intros doc H. inversion H.
    + intros s H. inversion H.
  - cbn [RAGPipeline.sources_loop]. fold (source_key doc).
    destruct (bool_decide_reflect (source_key doc ∈ seen)) as [Hin|Hout].
    + destruct (IH seen) as ((kept & Hsub & Hmap & Hnew) & Hcov & Hpre).
      split; [|split].
      * exists kept. split; [apply sublist_cons, Hsub|]. auto.
      * intros d Hd. apply elem_of_cons in Hd as [->|Hd]; auto.
      * intros s Hs. destruct (Hpre s Hs) as (d & p & Hd & Hrest).
        exists d, p. split; [apply elem_of_cons; auto | exact Hrest].
    + destruct (IH (source_key doc :: seen))
        as ((kept & Hsub & Hmap & Hnew) & Hcov & Hpre).
      split; [|split].
      * exists (doc :: kept). split; [apply sublist_skip, Hsub|].
        split; [simpl; f_equal; exact Hmap|].
        intros d Hd. apply elem_of_cons in Hd as [->|Hd]; [exact Hout|].
        intros Hs. apply (Hnew d Hd). apply elem_of_cons. auto.
      * intros d Hd. simpl. apply elem_of_cons in Hd as [->|Hd].
        { right. apply elem_of_cons. left. reflexivity. }
        destruct (Hcov d Hd) as [Hs|Hs].
        { apply elem_of_cons in Hs as [Hs|Hs]; [|auto].
          right. apply elem_of_cons. left.
          apply source_key_origin in Hs. exact Hs. }
        { right. apply elem_of_cons. auto. }
      * intros s Hs. apply elem_of_cons in Hs as [->|Hs].
        { eexists doc, _. split; [apply elem_of_cons; auto|].
          split; [reflexivity|]. split.
          - case_ltb.
            + rewrite slice_prefix by lia. unfold len.
              rewrite length_app, length_firstn.
              change (length (str "...")) with 3%nat.
              change (Z.to_nat 200) with 200%nat. lia.
            + lia.
          - intros Hle. case_ltb; [lia | reflexivity]. }
        destruct (Hpre s Hs) as (d & p & Hd & Hrest).
        exists d, p. split; [apply elem_of_cons; auto | exact Hrest].
Qed.

(** No file and page is named twice. *)
Lemma format_sources_distinct docs : forall seen,
  NoDup (map cited (RAGPipeline.sources_loop docs seen)).
Proof.
  induction docs as [|doc docs IH]; intros seen; [constructor|].
  cbn [RAGPipeline.sources_loop]. fold (source_key doc).
  destruct (bool_decide_reflect (source_key doc ∈ seen)); [apply IH|].
  simpl. apply NoDup_cons. split; [|apply IH].
  destruct (format_sources_loop docs (source_key doc :: seen))
    as ((kept & _ & Hmap & Hnew) & _).
  rewrite Hmap. intros Hin. apply list_elem_of_fmap in Hin as (d & Hd & Hk).
  apply (Hnew d Hk). apply elem_of_cons. left.
  apply source_key_origin. symmetry. exact Hd.
Qed.

(** The loop of [_extract_sources] names the same sources, without
    the preview. *)
Lemma extract_sources_loop docs : forall seen,
  StructuredExtractor.sources_loop docs seen
  = map (fun s => Source (source_filename s) (source_page s) None)
      (RAGPipeline.sources_loop docs seen).
Proof.
  induction docs as [|doc docs IH]; intros seen; [reflexivity|].
  cbn [StructuredExtractor.sources_loop RAGPipeline.sources_loop].
  destruct (bool_decide _); [apply IH|].
  simpl. f_equal. apply IH.
Qed.

Lemma extract_sources_cited docs seen :
  map cited (StructuredExtractor.sources_loop docs seen)
  = map cited (RAGPipeline.sources_loop docs seen).
Proof.
  rewrite extract_sources_loop, map_map. reflexivity.
Qed.

End SourceFacts.

Module SourceExtras.
Import Py Notions PyFacts SourceFacts.

(** X15: the sources of an answer. [_format_sources] names every file
    and page of the retrieved passages once, in the order of their
    first passage: the pages named are those of a sub-sequence of the
    passages, no page is named twice, none is left out, and every
    source carries a preview of at most 203 characters, which is the
    text of a passage when that text has at most 200 characters. *)
Theorem format_sources_once_per_page (retrieved_docs : list retrieved) :
  (exists kept,
      kept `sublist_of` retrieved_docs
      /\ map cited (RAGPipeline._format_sources retrieved_docs)
         = map origin kept)
  /\ NoDup (map cited (RAGPipeline._format_sources retrieved_docs))
  /\ (forall doc,
        In doc retrieved_docs ->
        In (origin doc)
          (map cited (RAGPipeline._format_sources retrieved_docs)))
  /\ (forall s,
        In s (RAGPipeline._format_sources retrieved_docs) ->
        exists doc preview,
          In doc retrieved_docs
          /\ s = Source (hit_filename doc) (hit_page doc) (Some preview)
          /\ len preview <= 203
          /\ (len (hit_text doc) <= 200 -> preview = hit_text doc)).
Proof.
  unfold RAGPipeline._format_sources.
  destruct (format_sources_loop retrieved_docs [])
    as ((kept & Hsub & Hmap & _) & Hcov & Hpre).
  split; [eauto|]. split; [apply format_sources_distinct|]. split.
  - intros doc Hd. apply list_elem_of_In.
    destruct (Hcov doc (proj2 (list_elem_of_In _ _) Hd)) as [H|H];
      [inversion H | exact H].
  - intros s Hs. apply list_elem_of_In in Hs.
    destruct (Hpre s Hs) as (d & p & Hd & Hrest).
    exists d, p. split; [apply list_elem_of_In, Hd | exact Hrest].
Qed.

(** X16: the sources of an extraction. [_extract_sources] returns at
    most ten sources without preview; they name the files and pages of
    a sub-sequence of the passages, none twice, and no page is left
    out unless ten sources are returned. *)
Theorem extract_sources_at_most_ten (docs : list retrieved) :
  len (StructuredExtractor._extract_sources docs) <= 10
  /\ (exists kept,
        kept `sublist_of` docs
        /\ StructuredExtractor._extract_sources docs
           = map (fun doc => Source (hit_filename doc) (hit_page doc) None)
               kept)
  /\ NoDup (map cited (StructuredExtractor._extract_sources docs))
  /\ (len (StructuredExtractor._extract_sources docs) = 10
      \/ forall doc,
           In doc docs ->
           In (origin doc)
             (map cited (StructuredExtractor._extract_sources docs))).
Proof.
  unfold StructuredExtractor._extract_sources.
  split; [apply slice_prefix_length; lia|].
  rewrite slice_prefix by lia. change (Z.to_nat 10) with 10%nat.
  destruct (format_sources_loop docs [])
    as ((kept & Hsub & Hmap & _) & Hcov & Hpre).
  assert (StructuredExtractor.sources_loop docs []
          = map (fun doc => Source (hit_filename doc) (hit_page doc) None)
              kept) as Hall.
  { rewrite extract_sources_loop.
    revert Hmap. generalize (RAGPipeline.sources_loop docs []).
    clear. induction kept as [|d kept IH]; intros [|s l]; simpl;
      try discriminate; [reflexivity|].
    intros [= E1 E2 E]. rewrite E1, E2. f_equal. apply IH, E. }
  split; [|split].
  - exists (take 10 kept). split.
    + etransitivity; [apply sublist_take | exact Hsub].
    + rewrite Hall. apply firstn_map.
  - apply (sublist_NoDup _ (map cited (StructuredExtractor.sources_loop docs []))).
    + rewrite extract_sources_cited. apply format_sources_distinct.
    + rewrite <- firstn_map. apply sublist_take.
  - destruct (Z.le_gt_cases 10
                (len (StructuredExtractor.sources_loop docs []))) as [Hl|Hl].
    + left. unfold len in *. rewrite length_firstn. lia.
    + right. intros doc Hd. rewrite firstn_all2 by (unfold len in Hl; lia).
      rewrite extract_sources_cited. apply list_elem_of_In.
      destruct (Hcov doc (proj2 (list_elem_of_In _ _) Hd)) as [H|H];
        [inversion H | exact H].
Qed.

End SourceExtras.

(* ===================================================================== *)
(** * More on the question answering pipeline *)
(* ===================================================================== *)

Module PipelineExtras.
Import Py Notions PyFacts RAGPipeline SourceFacts.



Lemma startswith_app s w post :
  startswith s w = true -> startswith (s ++ post) w = true.
Proof.
  revert s. induction w as [|a w IH]; intros [|b s]; simpl.
  - destruct post; reflexivity.
  - reflexivity.
  - discriminate.
  - destruct (ascii_dec a b); [apply IH | discriminate].
Qed.

Lemma contains_app_r s w post :
  contains s w = true -> contains (s ++ post) w = true.
Proof.
  induction s as [|c s IH]; simpl.
  - rewrite orb_false_r. destruct w; [|discriminate].
    intros _. destruct post; reflexivity.
  - intros H. apply orb_true_iff in H as [H|H]; apply orb_true_iff.
    + left. apply (startswith_app (c :: s) w post H).
    + right. apply IH, H.
Qed.

Lemma contains_app_l pre s w :
  contains s w = true -> contains (pre ++ s) w = true.
Proof.
  intros H. induction pre as [|c pre IH]; simpl; [exact H|].
  apply orb_true_iff. right. exact IH.
Qed.

(** A word of a text occurs in every text around it. *)
Lemma contains_around pre s post w :
  contains s w = true -> contains (pre ++ s ++ post) w = true.
Proof. intros H. apply contains_app_l, contains_app_r, H. Qed.

Section Pipeline.
Variable search : list ascii -> Z -> list retrieved.
Variable uuid4 : list ascii.
Variable chat_create : list turn -> chat_completion.
Variable create : list ascii -> StructuredExtractor.completion.
Variable json_loads : list ascii -> option pyval.
Variable prompt :
  StructuredExtractor.extraction_type -> list ascii -> list ascii.
Variable bullet : list ascii.
Variable repr : pyval -> list ascii.


(** X18: an extraction request is recognised inside any text and in
    any letter case. *)
Theorem extraction_request_recognised (query query' before after : list ascii) :
  _is_extraction_request query = true ->
  lower query' = lower query ->
  _is_extraction_request (before ++ query' ++ after) = true.
Proof.
  unfold _is_extraction_request. rewrite !existsb_exists.
  intros (keyword & Hin & Hc) Hq. exists keyword. split; [exact Hin|].
  rewrite !lower_app, Hq. apply contains_around, Hc.
Qed.

Lemma field_object items key :
  exists v, field repr (PDict items) key = Ok v.
Proof. unfold field, get. simpl. eauto. Qed.

Lemma field_other item key :
  is_object item = false -> field repr item key = Raise AttributeError.
Proof. destruct item; simpl; solve [discriminate | reflexivity]. Qed.

Lemma format_item_object extraction_type items :
  exists line, format_item bullet repr extraction_type (PDict items) = Ok line.
Proof.
  unfold format_item.
  repeat match goal with
         | |- context [decide ?P] => destruct (decide P)
         end;
    repeat match goal with
           | |- context [field repr (PDict items) ?k] =>
               let v := fresh "v" in
               let E := fresh "E" in
               destruct (field_object items k) as [v E]; rewrite E;
               cbn [bind]
           end; eauto.
Qed.

Lemma format_item_other extraction_type item :
  is_object item = false ->
  format_item bullet repr extraction_type item = Raise AttributeError.
Proof.
  intros H. unfold format_item.
  repeat match goal with
         | |- context [decide ?P] => destruct (decide P)
         end; rewrite (field_other item _ H); reflexivity.
Qed.

Lemma format_items_objects extraction_type data : forall text,
  forallb is_object data = true ->
  exists text', format_items bullet repr extraction_type data text = Ok text'.
Proof.
  induction data as [|item data IH]; intros text; simpl; [eauto|].
  intros H. apply andb_true_iff in H as [Hi Hd].
  destruct item; try discriminate.
  destruct (format_item_object extraction_type items) as [line ->].
  cbn [bind]. apply IH, Hd.
Qed.

Lemma format_items_other extraction_type data : forall text,
  forallb is_object data = false ->
  format_items bullet repr extraction_type data text = Raise AttributeError.
Proof.
  induction data as [|item data IH]; intros text; simpl; [discriminate|].
  destruct (is_object item) eqn:Hi; simpl.
  - intros Hd. destruct item; try discriminate.
    destruct (format_item_object extraction_type items) as [line ->].
    cbn [bind]. apply IH, Hd.
  - intros _. rewrite (format_item_other _ _ Hi). reflexivity.
Qed.

(** X19: the extracted data is rendered when every item is an object,
    and else the rendering raises [AttributeError]: an item that is a
    string, a number, a list or null has no [get]. *)
Theorem format_extraction_needs_objects (data : list pyval)
    (extraction_type : list ascii) :
  if forallb is_object data
  then exists text,
         _format_extraction_as_text bullet repr data extraction_type = Ok text
  else _format_extraction_as_text bullet repr data extraction_type
       = Raise AttributeError.
Proof.
  destruct (forallb is_object data) eqn:H.
  - unfold _format_extraction_as_text. destruct data as [|item data];
      [eauto|]. apply format_items_objects, H.
  - unfold _format_extraction_as_text. destruct data as [|item data];
      [discriminate|]. apply format_items_other, H.
Qed.

Let run_query :=
  process_query search uuid4 chat_create create json_loads prompt bullet
    repr.

(** X20: the conversations only grow. When the fresh identifier is
    not in use, a query leaves every stored conversation as it is or
    appends to it: the turns recorded before stay, and what is added is
    nothing, or the question and the answer of this query, and then
    only to the conversation that the caller named. *)
Theorem conversations_only_grow
    (conversations : gmap (list ascii) (list turn))
    (query : list ascii) (conversation_id : option (list ascii))
    (id : list ascii) (turns : list turn) :
  conversations !! uuid4 = None ->
  conversations !! id = Some turns ->
  exists added,
    snd (run_query conversations query conversation_id) !! id
    = Some (turns ++ added)
    /\ (added = []
        \/ conversation_id = Some id
           /\ exists r,
                fst (run_query conversations query conversation_id) = Ok r
                /\ added = [Turn (str "user") query;
                            Turn (str "assistant") (answer r)]).
Proof.
  intros Hfresh Hid. subst run_query. unfold process_query.
  assert (id <> uuid4) as Hne by congruence.
  assert (<[uuid4 := []]> conversations !! id = Some turns) as Hid'.
  { rewrite lookup_insert_ne by congruence. exact Hid. }
  destruct conversation_id as [[|c cs]|];
    (destruct (_is_extraction_request query); simpl;
     [exists []; rewrite app_nil_r; auto|]);
    (destruct (search query 5) as [|doc docs] eqn:Hs; simpl;
     [exists []; rewrite app_nil_r; auto|]).
  - rewrite lookup_insert_eq. simpl. rewrite lookup_insert_ne by congruence.
    exists []. rewrite app_nil_r. auto.
  - destruct (conversations !! (c :: cs)) as [turns0|] eqn:Hc; simpl.
    2:{ exists []. rewrite app_nil_r. auto. }
    destruct (decide (c :: cs = id)) as [E|Hd].
    + rewrite E, lookup_insert_eq. rewrite E, Hid in Hc. injection Hc as <-.
      eexists. split; [reflexivity|]. right. split; [reflexivity|].
      eexists. split; reflexivity.
    + rewrite lookup_insert_ne by exact Hd. exists []. rewrite app_nil_r.
      auto.
  - rewrite lookup_insert_eq. simpl. rewrite lookup_insert_ne by congruence.
    exists []. rewrite app_nil_r. auto.
Qed.

End Pipeline.


Lemma extraction_request_recognised_witness :
  _is_extraction_request
    (str "Please " ++ str "Generate a DOOR Schedule" ++ str " now") = true.
Proof.
  apply (extraction_request_recognised (str "generate a door schedule")
           (str "Generate a DOOR Schedule") (str "Please ") (str " now")).
  - vm_compute. reflexivity.
  - vm_compute. reflexivity.
Defined.

Lemma conversations_only_grow_witness :
  exists added,
    snd (process_query Examples.one_hit (str "id-1") Examples.chat_reply
           Examples.create_empty Examples.loads_empty Examples.prompt_context
           (str "*") Examples.repr_none Examples.talk (str "fire rating")
           (Some (str "c1"))) !! str "c1"
    = Some (Examples.earlier ++ added)
    /\ (added = []
        \/ Some (str "c1") = Some (str "c1")
           /\ exists r,
                fst (process_query Examples.one_hit (str "id-1")
                       Examples.chat_reply Examples.create_empty
                       Examples.loads_empty Examples.prompt_context
                       (str "*") Examples.repr_none Examples.talk
                       (str "fire rating") (Some (str "c1"))) = Ok r
                /\ added = [Turn (str "user") (str "fire rating");
                            Turn (str "assistant") (answer r)]).
Proof.
  apply (conversations_only_grow Examples.one_hit (str "id-1")
           Examples.chat_reply Examples.create_empty Examples.loads_empty
           Examples.prompt_context (str "*") Examples.repr_none
           Examples.talk (str "fire rating") (Some (str "c1")) (str "c1")
           Examples.earlier).
  - unfold Examples.talk. rewrite lookup_insert_ne by discriminate.
    apply lookup_empty.
  - apply lookup_insert_eq.
Defined.

End PipelineExtras.

(* ===================================================================== *)
(** * The context given to the model *)
(* ===================================================================== *)

Module ContextExtras.
Import Py Notions PyFacts PipelineExtras.

Lemma startswith_self s : startswith s s = true.
Proof.
  induction s as [|c s IH]; simpl; [reflexivity|].
  destruct (ascii_dec c c); [exact IH | contradiction].
Qed.

Lemma contains_self s : contains s s = true.
Proof.
  destruct s as [|c s]; [reflexivity|].
  cbn [contains]. rewrite startswith_self. reflexivity.
Qed.

Lemma contains_inside pre s post : contains (pre ++ s ++ post) s = true.
Proof. apply contains_around, contains_self. Qed.

(** Each part of a joined text is a piece of it. *)
Lemma join_member {A} sep (f : A -> list ascii) l x :
  In x l -> exists pre post, join sep (map f l) = pre ++ f x ++ post.
Proof.
  induction l as [|y l IH]; [intros []|].
  intros [->|Hin].
  - destruct l as [|z l].
    + exists [], []. simpl. rewrite app_nil_r. reflexivity.
    + exists [], (sep ++ join sep (map f (z :: l))). reflexivity.
  - destruct (IH Hin) as (pre & post & E).
    destruct l as [|z l]; [destruct Hin|].
    exists (f y ++ sep ++ pre), post.
    change (join sep (map f (y :: z :: l)))
      with (f y ++ sep ++ join sep (map f (z :: l))).
    rewrite E, <- !app_assoc. reflexivity.
Qed.

(** X21: the context of an extraction. [_build_extraction_context]
    renders the first fifteen passages as [_build_context] renders the
    passages of a question; passages after the fifteenth do not reach
    the prompt; and the file name and the text of each of the first
    fifteen occur in the context. *)
Theorem extraction_context_first_fifteen (docs : list retrieved) :
  StructuredExtractor._build_extraction_context docs
  = RAGPipeline._build_context (firstn 15 docs)
  /\ (forall more,
        (15 <= length docs)%nat ->
        StructuredExtractor._build_extraction_context (docs ++ more)
        = StructuredExtractor._build_extraction_context docs)
  /\ (forall doc,
        In doc (firstn 15 docs) ->
        contains (StructuredExtractor._build_extraction_context docs)
          (hit_text doc) = true
        /\ contains (StructuredExtractor._build_extraction_context docs)
             (hit_filename doc) = true).
Proof.
  unfold StructuredExtractor._build_extraction_context,
    RAGPipeline._build_context.
  rewrite slice_prefix by lia. change (Z.to_nat 15) with 15%nat.
  split; [reflexivity|]. split.
  - intros more Hlen. rewrite slice_prefix by lia.
    change (Z.to_nat 15) with 15%nat.
    rewrite firstn_app.
    replace (15 - length docs)%nat with 0%nat by lia.
    rewrite firstn_O, app_nil_r. reflexivity.
  - intros doc Hin.
    destruct (join_member [newline; newline]
                (fun doc => str "[" ++ hit_filename doc ++ str ", Page "
                            ++ str_of_int (hit_page doc) ++ str "]"
                            ++ [newline] ++ hit_text doc)
                (firstn 15 docs) doc Hin) as (pre & post & E).
    rewrite E. split.
    + replace (pre ++ (str "[" ++ hit_filename doc ++ str ", Page "
                       ++ str_of_int (hit_page doc) ++ str "]" ++ [newline]
                       ++ hit_text doc) ++ post)
        with ((pre ++ str "[" ++ hit_filename doc ++ str ", Page "
                   ++ str_of_int (hit_page doc) ++ str "]" ++ [newline])
              ++ hit_text doc ++ post)
        by (rewrite <- !app_assoc; reflexivity).
      apply contains_inside.
    + replace (pre ++ (str "[" ++ hit_filename doc ++ str ", Page "
                       ++ str_of_int (hit_page doc) ++ str "]" ++ [newline]
                       ++ hit_text doc) ++ post)
        with ((pre ++ str "[")
              ++ hit_filename doc
              ++ (str ", Page " ++ str_of_int (hit_page doc) ++ str "]"
                  ++ [newline] ++ hit_text doc) ++ post)
        by (rewrite <- !app_assoc; reflexivity).
      apply contains_inside.
Qed.

End ContextExtras.

(* ===================================================================== *)
(** * More on the structured extractor *)
(* ===================================================================== *)

Module ExtractorExtras.
Import Py Notions PyFacts StructuredExtractor ExtractorFacts SourceFacts.

Lemma assoc_dict_set_eq {V} key (v : V) items :
  assoc key (dict_set key v items) = Some v.
Proof.
  induction items as [|[k v'] items IH]; simpl.
  - destruct (decide (key = key)); congruence.
  - destruct (decide (k = key)) as [->|Hne]; simpl.
    + destruct (decide (key = key)); congruence.
    + destruct (decide (k = key)); [contradiction | exact IH].
Qed.

Lemma assoc_dict_set_ne {V} key key' (v : V) items :
  key' <> key -> assoc key' (dict_set key v items) = assoc key' items.
Proof.
  intros Hne. induction items as [|[k v'] items IH]; simpl.
  - destruct (decide (key = key')); congruence.
  - destruct (decide (k = key)) as [->|Hk]; simpl.
    + destruct (decide (key = key')); congruence.
    + destruct (decide (k = key')); [reflexivity | exact IH].
Qed.

Lemma assoc_In {V} key (v : V) items :
  assoc key items = Some v -> In (key, v) items.
Proof.
  induction items as [|[k v'] items IH]; simpl; [discriminate|].
  destruct (decide (k = key)) as [->|_]; [intros [= ->]|]; auto.
Qed.

Lemma assoc_None {V} key (items : list (list ascii * V)) :
  assoc key items = None <-> ~ In key (map fst items).
Proof.
  induction items as [|[k v'] items IH]; simpl; [tauto|].
  destruct (decide (k = key)) as [->|Hne].
  - split; [discriminate | tauto].
  - rewrite IH. tauto.
Qed.

Lemma dict_set_In {V} key (v : V) items k v' :
  In (k, v') (dict_set key v items) ->
  (k = key /\ v' = v) \/ In (k, v') items.
Proof.
  induction items as [|[k0 v0] items IH]; simpl.
  - intros [[= <- <-]|[]]. auto.
  - destruct (decide (k0 = key)) as [->|Hne]; simpl.
    + intros [[= <- <-]|H]; auto.
    + intros [H|H]; [auto|]. apply IH in H. tauto.
Qed.

Lemma dict_set_keys {V} key (v : V) items :
  NoDup (map fst items) -> NoDup (map fst (dict_set key v items)).
Proof.
  induction items as [|[k0 v0] items IH]; simpl.
  - intros _. apply NoDup_cons. split; [apply not_elem_of_nil | constructor].
  - intros H. apply NoDup_cons in H as [Hk H].
    destruct (decide (k0 = key)) as [->|Hne]; simpl.
    + apply NoDup_cons. auto.
    + apply NoDup_cons. split; [|apply IH, H].
      intros Hin. apply list_elem_of_In, in_map_iff in Hin
        as ([k v'] & E & Hin). simpl in E. subst k.
      apply dict_set_In in Hin as [[E _]|Hin]; [congruence|].
      apply Hk, list_elem_of_In, in_map_iff. exists (k0, v'). auto.
Qed.

(** The dictionary that the comprehension builds from [items]. *)
Lemma unique_docs_fold all_docs : forall items,
  NoDup (map fst items) ->
  (forall k doc, In (k, doc) items -> hit_text doc = k) ->
  let d := fold_left (fun d doc => dict_set (hit_text doc) doc d)
             all_docs items in
  NoDup (map fst d)
  /\ (forall k doc, In (k, doc) d ->
        hit_text doc = k /\ (In doc all_docs \/ In (k, doc) items))
  /\ (forall k doc,
        assoc k items = Some doc ->
        (forall doc', In doc' all_docs -> hit_text doc' <> k) ->
        assoc k d = Some doc).
Proof.
  induction all_docs as [|doc0 docs IH]; intros items Hnd Hkeys; simpl.
  - split; [exact Hnd|]. split; [|auto].
    intros k doc H. split; [apply Hkeys, H | auto].
  - destruct (IH (dict_set (hit_text doc0) doc0 items)) as (H1 & H2 & H3).
    + apply dict_set_keys, Hnd.
    + intros k doc H. apply dict_set_In in H as [[-> ->]|H];
        [reflexivity | apply Hkeys, H].
    + split; [exact H1|]. split.
      * intros k doc H. destruct (H2 k doc H) as [Hk [Hd|Hd]].
        { auto. }
        { split; [exact Hk|]. apply dict_set_In in Hd as [[_ ->]|Hd]; auto. }
      * intros k doc Ha Hnone. apply H3.
        { rewrite assoc_dict_set_ne; [exact Ha|].
          intros E. apply (Hnone doc0); [auto | congruence]. }
        { intros doc' Hd. apply Hnone. auto. }
Qed.

(** X22: the duplicates among the passages are removed by text. The
    passages kept for an extraction have pairwise different texts, each
    of them is one of the passages found, and of the passages with the
    same text the last one found is the one kept. *)
Theorem unique_docs_by_text (all_docs : list retrieved) :
  NoDup (map hit_text (unique_docs all_docs))
  /\ (forall doc, In doc (unique_docs all_docs) -> In doc all_docs)
  /\ (forall before doc after,
        all_docs = before ++ doc :: after ->
        (forall doc', In doc' after -> hit_text doc' <> hit_text doc) ->
        In doc (unique_docs all_docs)).
Proof.
  unfold unique_docs.
  destruct (unique_docs_fold all_docs [] NoDup_nil_2
              (fun _ _ (H : In _ []) => match H with end))
    as (H1 & H2 & _).
  split; [|split].
  - rewrite map_map.
    erewrite map_ext_in; [exact H1|].
    intros [k doc] H. simpl. apply H2, H.
  - intros doc H. apply in_map_iff in H as ([k doc'] & E & H).
    simpl in E. subst doc'. destruct (H2 k doc H) as [_ [Hd|[]]]. exact Hd.
  - intros before doc after -> Hlast.
    rewrite fold_left_app. simpl.
    set (items := fold_left _ before []).
    destruct (unique_docs_fold before [] NoDup_nil_2
                (fun _ _ (H : In _ []) => match H with end))
      as (B1 & B2 & _). fold items in B1, B2.
    destruct (unique_docs_fold after
                (dict_set (hit_text doc) doc items)) as (_ & _ & A3).
    + apply dict_set_keys, B1.
    + intros k d H. apply dict_set_In in H as [[-> ->]|H];
        [reflexivity | apply B2, H].
    + apply in_map_iff. exists (hit_text doc, doc). split; [reflexivity|].
      apply assoc_In, A3; [apply assoc_dict_set_eq | exact Hlast].
Qed.

(** The scan of the common keys in an object. *)
Lemma scan_keys_object items keys :
  (forall before key after l,
      keys = before ++ key :: after ->
      assoc key items = Some (PList l) ->
      (forall k l', In k before -> assoc k items <> Some (PList l')) ->
      scan_keys (PDict items) keys = Ok (PList l))
  /\ ((forall k l', In k keys -> assoc k items <> Some (PList l')) ->
      scan_keys (PDict items) keys = Ok (PList [])).
Proof.
  assert (forall key,
             (exists l, assoc key items = Some (PList l)
                        /\ forall rest,
                             scan_keys (PDict items) (key :: rest)
                             = Ok (PList l))
             \/ ((forall l, assoc key items <> Some (PList l))
                 /\ forall rest,
                      scan_keys (PDict items) (key :: rest)
                      = scan_keys (PDict items) rest)) as Hstep.
  { intros key. cbn [scan_keys py_in py_getitem bind].
    destruct (assoc key items) as [v|] eqn:Ha.
    - assert (bool_decide (key ∈ map fst items) = true) as ->.
      { apply bool_decide_eq_true.
        destruct (decide (key ∈ map fst items)) as [H|H]; [exact H|].
        exfalso. rewrite list_elem_of_In in H. apply assoc_None in H.
        congruence. }
      cbn [bind]. destruct v; simpl;
        try (right; split; [intros l'; discriminate | reflexivity]).
      left. eauto.
    - right. split; [discriminate|]. intros rest.
      assert (bool_decide (key ∈ map fst items) = false) as ->.
      { apply bool_decide_eq_false. intros H. apply list_elem_of_In in H.
        apply assoc_None in Ha. contradiction. }
      reflexivity. }
  split.
  - intros before. revert keys.
    induction before as [|k before IH]; intros keys key after l -> Ha Hb.
    + cbn [app]. destruct (Hstep key) as [(l' & Hl & ->)|[Hn _]];
        [congruence | exfalso; exact (Hn l Ha)].
    + cbn [app]. destruct (Hstep k) as [(l' & Hl & _)|[_ ->]].
      * exfalso. apply (Hb k l'); simpl; auto.
      * apply (IH _ key after l eq_refl Ha).
        intros k' l' Hk. apply Hb. simpl. auto.
  - induction keys as [|k keys IH]; intros Hn; [reflexivity|].
    destruct (Hstep k) as [(l' & Hl & _)|[_ ->]].
    + exfalso. apply (Hn k l'); simpl; auto.
    + apply IH. intros k' l' Hk. apply Hn. simpl. auto.
Qed.

(** The scan of the common keys in a value that is neither an array
    nor an object. *)
Lemma scan_keys_scalar v keys :
  is_list v = false -> is_object v = false ->
  scan_keys v keys = Ok (PList [])
  \/ scan_keys v keys = Raise TypeError.
Proof.
  intros Hl Ho. induction keys as [|key keys IH]; simpl; [auto|].
  destruct v; try discriminate; simpl; auto.
  destruct (contains s key); simpl; auto.
Qed.

Section Parser.
Variable search : list ascii -> Z -> list retrieved.
Variable create : list ascii -> completion.
Variable json_loads : list ascii -> option pyval.
Variable template : extraction_type -> list ascii -> list ascii.

(** X23: a response that is not an array. When the response of the
    generation service parses to an object, [_extract_with_gpt] returns
    the list under the first of the keys data, items, results, doors,
    rooms, equipment that holds a list, and the empty list when none
    does; a response that parses to a string, a number, a truth value
    or null gives the empty list. *)
Theorem response_without_array (prompt result_text : list ascii) (v : pyval) :
  create prompt = Content (Some result_text) ->
  json_loads result_text = Some v ->
  is_list v = false ->
  (forall items before key after l,
      v = PDict items ->
      common_keys = before ++ key :: after ->
      assoc key items = Some (PList l) ->
      (forall k l', In k before -> assoc k items <> Some (PList l')) ->
      _extract_with_gpt create json_loads prompt = Ok (PList l))
  /\ (forall items,
        v = PDict items ->
        (forall k l', In k common_keys -> assoc k items <> Some (PList l')) ->
        _extract_with_gpt create json_loads prompt = Ok (PList []))
  /\ (is_object v = false ->
      _extract_with_gpt create json_loads prompt = Ok (PList [])).
Proof.
  intros Hc Hv Hl. unfold _extract_with_gpt, parse_direct.
  rewrite Hc, Hv, Hl. split; [|split].
  - intros items before key after l -> Hk Ha Hb.
    destruct (scan_keys_object items common_keys) as [H _].
    rewrite (H before key after l Hk Ha Hb). reflexivity.
  - intros items -> Hn.
    destruct (scan_keys_object items common_keys) as [_ H].
    rewrite (H Hn). reflexivity.
  - intros Ho.
    destruct (scan_keys_scalar v common_keys Hl Ho) as [->| ->];
      reflexivity.
Qed.

Hypothesis json_loads_array :
  forall s v,
    startswith s (str "[") = true -> json_loads s = Some v ->
    is_list v = true.

Lemma run_outcome t :
  exists data sources,
    run search create json_loads template t = Ok (PList data, sources)
    /\ len sources <= 10.
Proof.
  unfold run.
  destruct (extract_with_gpt_list create json_loads json_loads_array
              (template t
                 (_build_extraction_context
                    (unique_docs
                       (flat_map (fun query => search query 10)
                          (queries t)))))) as [l ->].
  simpl. eexists _, _. split; [reflexivity|].
  unfold _extract_sources. apply slice_prefix_length. lia.
Qed.

(** X24: the extraction types. [extract] runs for the three supported
    names, and then returns a list of data and at most ten sources
    without raising; for every other name it raises [ValueError]. *)
Theorem extract_supported_types (name : list ascii) :
  (In name [str "door_schedule"; str "room_summary"; str "equipment_list"] ->
   exists data sources,
     extract search create json_loads template name
     = Ok (PList data, sources)
     /\ len sources <= 10)
  /\ (~ In name [str "door_schedule"; str "room_summary";
                 str "equipment_list"] ->
      extract search create json_loads template name = Raise ValueError).
Proof.
  unfold extract, type_of_name. split.
  - intros [<-|[<-|[<-|[]]]]; simpl; apply run_outcome.
  - intros Hn. simpl in Hn.
    repeat match goal with
           | |- context [decide ?P] =>
               destruct (decide P); [exfalso; apply Hn; auto|]
           end.
    reflexivity.
Qed.

End Parser.

Lemma response_without_array_witness :
  _extract_with_gpt Examples.create_object Examples.loads_object
    (str "Extract ALL doors")
  = Ok (PList [PDict []]).
Proof.
  apply (response_without_array Examples.create_object Examples.loads_object
           (str "Extract ALL doors") Examples.object_text
           (PDict [(str "doors", PList [PDict []])]) eq_refl)
    with (items := [(str "doors", PList [PDict []])])
         (before := [str "data"; str "items"; str "results"])
         (key := str "doors")
         (after := [str "rooms"; str "equipment"]).
  - vm_compute. reflexivity.
  - reflexivity.
  - reflexivity.
  - reflexivity.
  - vm_compute. reflexivity.
  - intros k l' [<-|[<-|[<-|[]]]]; vm_compute; discriminate.
Defined.

Lemma extract_supported_types_witness :
  extract Examples.no_hit Examples.create_empty Examples.loads_empty
    Examples.prompt_context (str "window_schedule")
  = Raise ValueError.
Proof.
  apply (extract_supported_types Examples.no_hit Examples.create_empty
           Examples.loads_empty Examples.prompt_context).
  - intros s v _. unfold Examples.loads_empty.
    destruct (decide (s = str "[]")); [|discriminate].
    intros [= <-]. reflexivity.
  - simpl. intros [H|[H|[H|[]]]]; discriminate H.
Defined.

End ExtractorExtras.

(* ===================================================================== *)
(** * The failures of a query *)
(* ===================================================================== *)

Module FailureExtras.
Import Py Notions PyFacts RAGPipeline SourceFacts PipelineExtras.
Import ExtractorExtras.

Section Pipeline.
Variable search : list ascii -> Z -> list retrieved.
Variable uuid4 : list ascii.
Variable chat_create : list turn -> chat_completion.
Variable create : list ascii -> StructuredExtractor.completion.
Variable json_loads : list ascii -> option pyval.
Variable prompt :
  StructuredExtractor.extraction_type -> list ascii -> list ascii.
Variable bullet : list ascii.
Variable repr : pyval -> list ascii.

Hypothesis json_loads_array :
  forall s v,
    startswith s (str "[") = true -> json_loads s = Some v ->
    StructuredExtractor.is_list v = true.

(** An extraction request is answered, or its rendering fails on an
    item that is not an object. *)
Lemma handle_extraction_outcome query conversation_id :
  exists t data sources,
    StructuredExtractor.run search create json_loads prompt t
    = Ok (PList data, sources)
    /\ if forallb is_object data
       then exists answer,
              _handle_extraction_request search create json_loads prompt
                bullet repr query conversation_id
              = Ok (Response answer sources conversation_id
                      (Some (PList data)) None)
       else _handle_extraction_request search create json_loads prompt
              bullet repr query conversation_id
            = Raise AttributeError.
Proof.
  unfold _handle_extraction_request.
  set (name := if contains (lower query) (str "door") then _ else _).
  assert (exists t, StructuredExtractor.type_of_name name = Some t) as [t Ht].
  { subst name. destruct (contains _ (str "door")); [eauto|].
    destruct (contains _ (str "room")); eauto. }
  unfold StructuredExtractor.extract. rewrite Ht.
  destruct (run_outcome search create json_loads prompt json_loads_array t)
    as (data & sources & Hrun & _).
  exists t, data, sources. split; [exact Hrun|]. rewrite Hrun.
  cbn [bind fst snd].
  destruct (forallb is_object data) eqn:Hobj.
  - unfold _format_extraction_as_text. destruct data as [|item data].
    + cbn [bind]. eauto.
    + destruct (format_items_objects bullet repr name (item :: data)
                  (if decide (name = str "door_schedule")
                   then (str "I found " ++ str_of_int (len (item :: data)))
                        ++ str " doors in the documents:" ++ [newline; newline]
                   else if decide (name = str "room_summary")
                   then (str "I found " ++ str_of_int (len (item :: data)))
                        ++ str " rooms in the documents:" ++ [newline; newline]
                   else (str "I found " ++ str_of_int (len (item :: data)))
                        ++ str " equipment items:" ++ [newline; newline])
                  Hobj) as [text E].
      cbv zeta. rewrite E. cbn [bind]. eauto.
  - unfold _format_extraction_as_text. destruct data as [|item data];
      [discriminate|].
    cbv zeta. rewrite (format_items_other bullet repr name _ _ Hobj).
    reflexivity.
Qed.

Let run_query :=
  process_query search uuid4 chat_create create json_loads prompt bullet
    repr.

(** X25: the failures of a query. [process_query] raises in two cases
    only: [KeyError], when the caller names a conversation that is not
    stored and the query is an ordinary question for which passages
    are found; and [AttributeError], when the query is an extraction
    request and the extracted list has an item that is not an object.
    After the [KeyError] the conversations are as they were. *)
Theorem process_query_failures
    (conversations : gmap (list ascii) (list turn))
    (query : list ascii) (conversation_id : option (list ascii)) (e : exn) :
  fst (run_query conversations query conversation_id) = Raise e ->
  (e = KeyError
   /\ _is_extraction_request query = false
   /\ search query 5 <> []
   /\ (exists c cs,
          conversation_id = Some (c :: cs)
          /\ conversations !! (c :: cs) = None)
   /\ snd (run_query conversations query conversation_id) = conversations)
  \/ (e = AttributeError
      /\ _is_extraction_request query = true
      /\ exists t data sources,
           StructuredExtractor.run search create json_loads prompt t
           = Ok (PList data, sources)
           /\ forallb is_object data = false).
Proof.
  subst run_query. unfold process_query.
  assert (forall cid,
             _is_extraction_request query = true ->
             _handle_extraction_request search create json_loads prompt
               bullet repr query cid = Raise e ->
             e = AttributeError
             /\ exists t data sources,
                  StructuredExtractor.run search create json_loads prompt t
                  = Ok (PList data, sources)
                  /\ forallb is_object data = false) as Hx.
  { intros cid _ Hr.
    destruct (handle_extraction_outcome query cid)
      as (t & data & sources & Hrun & Hout).
    destruct (forallb is_object data) eqn:Hobj.
    - destruct Hout as [answer Hout]. congruence.
    - split; [congruence|]. eauto 6. }
  destruct conversation_id as [[|c cs]|];
    destruct (_is_extraction_request query) eqn:Hq; simpl.
  - intros Hr. right. destruct (Hx uuid4 eq_refl Hr). auto.
  - destruct (search query 5); simpl; [discriminate|].
    rewrite lookup_insert_eq. simpl. discriminate.
  - intros Hr. right. destruct (Hx (c :: cs) eq_refl Hr). auto.
  - destruct (search query 5) as [|doc docs] eqn:Hs; simpl; [discriminate|].
    destruct (conversations !! (c :: cs)) eqn:Hc; simpl; [discriminate|].
    intros [= <-]. left. split; [reflexivity|]. split; [reflexivity|].
    split; [discriminate|]. split; [eauto | reflexivity].
  - intros Hr. right. destruct (Hx uuid4 eq_refl Hr). auto.
  - destruct (search query 5); simpl; [discriminate|].
    rewrite lookup_insert_eq. simpl. discriminate.
Qed.

End Pipeline.

Lemma process_query_failures_witness :
  (KeyError = KeyError
   /\ _is_extraction_request (str "fire rating") = false
   /\ Examples.one_hit (str "fire rating") 5 <> []
   /\ (exists c cs,
          Some (str "abc") = Some (c :: cs)
          /\ (∅ : gmap (list ascii) (list turn)) !! (c :: cs) = None)
   /\ snd (process_query Examples.one_hit (str "id-1") Examples.chat_reply
             Examples.create_empty Examples.loads_empty
             Examples.prompt_context (str "*") Examples.repr_none ∅
             (str "fire rating") (Some (str "abc"))) = ∅)
  \/ (KeyError = AttributeError
      /\ _is_extraction_request (str "fire rating") = true
      /\ exists t data sources,
           StructuredExtractor.run Examples.one_hit Examples.create_empty
             Examples.loads_empty Examples.prompt_context t
           = Ok (PList data, sources)
           /\ forallb is_object data = false).
Proof.
  apply (process_query_failures Examples.one_hit (str "id-1")
           Examples.chat_reply Examples.create_empty Examples.loads_empty
           Examples.prompt_context (str "*") Examples.repr_none).
  - intros s v _. unfold Examples.loads_empty.
    destruct (decide (s = str "[]")); [|discriminate].
    intros [= <-]. reflexivity.
  - vm_compute. reflexivity.
Defined.

End FailureExtras.

(* ===================================================================== *)
(** * The summary of an evaluation *)
(* ===================================================================== *)

Module EvaluationFacts.
Import Py Notions PyFacts Evaluation.

Lemma tally_cons {A} (p : A -> bool) x l :
  tally p (x :: l) = (if p x then 1 else 0) + tally p l.
Proof.
  unfold tally, len. simpl. destruct (p x); simpl; lia.
Qed.

Lemma tally_bound {A} (p : A -> bool) l : 0 <= tally p l <= len l.
Proof.
  induction l as [|x l IH]; [unfold tally, len; simpl; lia|].
  rewrite tally_cons. unfold len in *. simpl length. destruct (p x); lia.
Qed.

Lemma increment_lookup key summary n :
  summary !! key = Some n ->
  exists summary',
    increment key summary = Ok summary'
    /\ forall k,
         summary' !! k
         = (fun m => m + (if bool_decide (k = key) then 1 else 0))
             <$> summary !! k.
Proof.
  intros H. unfold increment. rewrite H. eexists. split; [reflexivity|].
  intros k. destruct (bool_decide_reflect (k = key)) as [->|Hne].
  - rewrite lookup_insert_eq, H. reflexivity.
  - rewrite lookup_insert_ne by congruence.
    destruct (summary !! k); simpl; f_equal. lia.
Qed.

Lemma count_result_lookup summary r :
  is_Some (summary !! str "total_with_sources") ->
  exists summary',
    count_result summary r = Ok summary'
    /\ forall k, summary' !! k = (fun m => m + added k r) <$> summary !! k.
Proof.
  intros [n Hn]. unfold count_result, added, judged.
  destruct (summary !! correctness r) as [m|] eqn:Hc.
  - destruct (increment_lookup _ _ _ Hc) as (s1 & -> & H1). cbn [bind].
    destruct (has_sources r).
    + assert (is_Some (s1 !! str "total_with_sources")) as [n1 Hn1].
      { rewrite H1, Hn. simpl. eauto. }
      destruct (increment_lookup _ _ _ Hn1) as (s2 & -> & H2).
      eexists. split; [reflexivity|]. intros k. rewrite H2, H1.
      rewrite (bool_decide_ext (correctness r = k) (k = correctness r))
        by (split; congruence).
      destruct (summary !! k); simpl; [|reflexivity]. f_equal.
      rewrite andb_true_r. lia.
    + eexists. split; [reflexivity|]. intros k. rewrite H1.
      rewrite (bool_decide_ext (correctness r = k) (k = correctness r))
        by (split; congruence).
      destruct (summary !! k); simpl; [|reflexivity]. f_equal.
      rewrite andb_false_r. lia.
  - cbn [bind]. destruct (has_sources r).
    + destruct (increment_lookup _ _ _ Hn) as (s2 & -> & H2).
      eexists. split; [reflexivity|]. intros k. rewrite H2.
      destruct (summary !! k) eqn:Hk; simpl; [|reflexivity]. f_equal.
      rewrite andb_true_r.
      destruct (bool_decide_reflect (correctness r = k)) as [E|_];
        [congruence | lia].
    + eexists. split; [reflexivity|]. intros k.
      destruct (summary !! k) eqn:Hk; simpl; [|reflexivity]. f_equal.
      rewrite andb_false_r.
      destruct (bool_decide_reflect (correctness r = k)) as [E|_];
        [congruence | lia].
Qed.

Lemma summary_loop_lookup results : forall summary,
  is_Some (summary !! str "total_with_sources") ->
  exists summary',
    summary_loop results summary = Ok summary'
    /\ forall k,
         summary' !! k
         = (fun m =>
              m + tally (judged k) results
              + (if bool_decide (k = str "total_with_sources")
                 then tally has_sources results else 0))
             <$> summary !! k.
Proof.
  induction results as [|r results IH]; intros summary Hs.
  - eexists. split; [reflexivity|]. intros k.
    destruct (summary !! k); cbn [fmap option_fmap option_map];
      [|reflexivity]. f_equal.
    unfold tally, len. simpl. destruct (bool_decide _); lia.
  - cbn [summary_loop].
    destruct (count_result_lookup summary r Hs) as (s1 & -> & H1).
    cbn [bind].
    destruct (IH s1) as (s2 & -> & H2).
    { rewrite H1. destruct Hs as [n ->]. simpl. eauto. }
    eexists. split; [reflexivity|]. intros k. rewrite H2, H1.
    destruct (summary !! k); cbn [fmap option_fmap option_map];
      [|reflexivity]. f_equal.
    rewrite !tally_cons. unfold added.
    destruct (bool_decide (k = str "total_with_sources")); simpl;
      destruct (has_sources r); destruct (judged k r); lia.
Qed.

Ltac other_key :=
  let H := fresh in intros H; vm_compute in H; discriminate H.

Lemma empty_summary_lookup key :
  empty_summary !! key
  = if bool_decide
         (In key [str "correct"; str "partially_correct"; str "incorrect";
                  str "error"; str "total_with_sources"])
    then Some 0 else None.
Proof.
  unfold empty_summary.
  destruct (bool_decide_reflect
              (In key [str "correct"; str "partially_correct";
                       str "incorrect"; str "error";
                       str "total_with_sources"])) as [H|H].
  - simpl in H.
    destruct H as [<-|[<-|[<-|[<-|[<-|[]]]]]];
      repeat first [ apply lookup_insert_eq
                   | rewrite lookup_insert_ne by other_key ].
  - simpl in H.
    repeat (rewrite lookup_insert_ne by (intros E; apply H; auto 10)).
    apply lookup_empty.
Qed.

(** The verdicts add up when each result has one of the four. *)
Lemma verdicts_add_up results :
  Forall (fun r => In (correctness r)
                     [str "correct"; str "partially_correct";
                      str "incorrect"; str "error"]) results ->
  tally (judged (str "correct")) results
  + tally (judged (str "partially_correct")) results
  + tally (judged (str "incorrect")) results
  + tally (judged (str "error")) results = len results
  /\ tally (judged (str "total_with_sources")) results = 0.
Proof.
  induction 1 as [|r results Hr _ IH]; [split; reflexivity|].
  rewrite !tally_cons. unfold len in *. simpl length. unfold judged at 1 3 5 7 9.
  simpl in Hr. destruct Hr as [<-|[<-|[<-|[<-|[]]]]];
    repeat match goal with
           | |- context [bool_decide (?a = ?b)] =>
               let E := fresh in
               destruct (bool_decide_reflect (a = b)) as [E|E];
               [try (exfalso; vm_compute in E; discriminate E)
               |try (exfalso; apply E; reflexivity)]
           end; lia.
Qed.

(** The counters of the summary, read by key. *)
Lemma summary_lookup (results : list result) :
  exists summary,
    _calculate_summary results = Ok summary
    /\ (forall key,
          is_Some (summary !! key)
          <-> In key [str "correct"; str "partially_correct";
                      str "incorrect"; str "error";
                      str "total_with_sources"])
    /\ (forall verdict,
          In verdict [str "correct"; str "partially_correct";
                      str "incorrect"; str "error"] ->
          summary !! verdict = Some (tally (judged verdict) results))
    /\ summary !! str "total_with_sources"
       = Some (tally has_sources results
               + tally (judged (str "total_with_sources")) results).
Proof.
  unfold _calculate_summary.
  destruct (summary_loop_lookup results empty_summary) as (summary & E & H).
  { rewrite empty_summary_lookup.
    rewrite bool_decide_eq_true_2 by (simpl; auto 10). eauto. }
  assert (forall verdict,
             In verdict [str "correct"; str "partially_correct";
                         str "incorrect"; str "error"] ->
             summary !! verdict = Some (tally (judged verdict) results))
    as Hverdict.
  { intros verdict Hv. pose proof (empty_summary_lookup verdict) as He.
    rewrite bool_decide_eq_true_2 in He
      by (simpl in Hv |- *; tauto).
    rewrite H, He. simpl.
    rewrite bool_decide_eq_false_2.
    - f_equal. lia.
    - intros ->. simpl in Hv.
      destruct Hv as [E'|[E'|[E'|[E'|[]]]]]; vm_compute in E';
        discriminate E'. }
  assert (summary !! str "total_with_sources"
          = Some (tally has_sources results
                  + tally (judged (str "total_with_sources")) results))
    as Htotal.
  { pose proof (empty_summary_lookup (str "total_with_sources")) as He.
    rewrite bool_decide_eq_true_2 in He by (simpl; auto 10).
    rewrite H, He. cbn [fmap option_fmap option_map].
    rewrite bool_decide_eq_true_2 by reflexivity. f_equal. lia. }
  exists summary. split; [exact E|]. split; [|split].
  - intros key. rewrite H, empty_summary_lookup.
    destruct (bool_decide_reflect
                (In key [str "correct"; str "partially_correct";
                         str "incorrect"; str "error";
                         str "total_with_sources"])) as [Hk|Hk]; simpl.
    + split; [intros _; exact Hk | eauto].
    + split; [intros [x Hx]; discriminate | contradiction].
  - exact Hverdict.
  - exact Htotal.
Qed.

(** The counters add up when every result has one of the four
    verdicts. *)
Lemma summary_adds_up (results : list result) (summary : gmap (list ascii) Z) :
  (forall verdict,
      In verdict [str "correct"; str "partially_correct";
                  str "incorrect"; str "error"] ->
      summary !! verdict = Some (tally (judged verdict) results)) ->
  summary !! str "total_with_sources"
  = Some (tally has_sources results
          + tally (judged (str "total_with_sources")) results) ->
  Forall (fun r => In (correctness r)
                     [str "correct"; str "partially_correct";
                      str "incorrect"; str "error"]) results ->
  exists correct partially incorrect error total,
    summary !! str "correct" = Some correct
    /\ summary !! str "partially_correct" = Some partially
    /\ summary !! str "incorrect" = Some incorrect
    /\ summary !! str "error" = Some error
    /\ summary !! str "total_with_sources" = Some total
    /\ correct + partially + incorrect + error = len results
    /\ 0 <= total <= len results.
Proof.
  intros Hverdict Htotal Hall.
  destruct (verdicts_add_up results Hall) as [Hsum Hzero].
  eexists _, _, _, _, _.
  split; [apply Hverdict; simpl; auto|].
  split; [apply Hverdict; simpl; auto|].
  split; [apply Hverdict; simpl; auto|].
  split; [apply Hverdict; simpl; auto 10|].
  split; [exact Htotal|].
  split; [exact Hsum|]. rewrite Hzero.
  pose proof (tally_bound has_sources results). lia.
Qed.

(** X26: the summary of an evaluation. [_calculate_summary] returns
    without raising a dictionary with the five keys it starts from.
    Under each of the four verdicts it holds the number of results with
    that verdict, and under total_with_sources the number of results
    that have sources (plus the results whose verdict is that very
    key: the test [correctness in summary] accepts it). When every
    result has one of the four verdicts the four counters add up to the
    number of results and total_with_sources is at most that number. *)
Theorem summary_counts (results : list result) :
  exists summary,
    _calculate_summary results = Ok summary
    /\ (forall key,
          is_Some (summary !! key)
          <-> In key [str "correct"; str "partially_correct";
                      str "incorrect"; str "error";
                      str "total_with_sources"])
    /\ (forall verdict,
          In verdict [str "correct"; str "partially_correct";
                      str "incorrect"; str "error"] ->
          summary !! verdict = Some (tally (judged verdict) results))
    /\ summary !! str "total_with_sources"
       = Some (tally has_sources results
               + tally (judged (str "total_with_sources")) results)
    /\ (Forall (fun r => In (correctness r)
                           [str "correct"; str "partially_correct";
                            str "incorrect"; str "error"]) results ->
        exists correct partially incorrect error total,
          summary !! str "correct" = Some correct
          /\ summary !! str "partially_correct" = Some partially
          /\ summary !! str "incorrect" = Some incorrect
          /\ summary !! str "error" = Some error
          /\ summary !! str "total_with_sources" = Some total
          /\ correct + partially + incorrect + error = len results
          /\ 0 <= total <= len results).
Proof.
  destruct (summary_lookup results) as (summary & E & Hkeys & Hverdict & Htotal).
  exists summary. split; [exact E|]. split; [exact Hkeys|].
  split; [exact Hverdict|]. split; [exact Htotal|].
  apply summary_adds_up; assumption.
Qed.

End EvaluationFacts.

(* ===================================================================== *)
(** * The verdicts of an evaluation *)
(* ===================================================================== *)

Module VerdictFacts.
Import Py Notions PyFacts Evaluation EvaluationFacts.

Lemma failed_judged_well test_case : judged_well (failed test_case).
Proof.
  unfold judged_well, failed. simpl.
  split; [auto 10|]. split; [discriminate|]. split; [reflexivity|].
  split; [discriminate | lia].
Qed.

Lemma judge_judged_well test_case response :
  judged_well (judge test_case response).
Proof.
  unfold judge. destruct (true_div _ _) as [keyword_score|];
    [|apply failed_judged_well].
  cbv zeta. unfold judged_well. cbn [correctness has_sources sources_count].
  assert ((0 <? len (RAGPipeline.sources response)) = true
          <-> 0 < len (RAGPipeline.sources response)) as Hs
    by apply Z.ltb_lt.
  destruct (PrimFloat.leb 0.3 keyword_score);
    destruct (0 <? len (RAGPipeline.sources response));
    destruct ((20 <? len (lower (RAGPipeline.answer response)))
              && negb (contains (lower (lower (RAGPipeline.answer response)))
                         (str "error")));
    destruct (PrimFloat.leb 0.2 keyword_score);
    cbn [andb];
    (split; [simpl; auto 10|]);
    (split; [first [reflexivity | discriminate | intros _; reflexivity]|]);
    (split; [first [discriminate | intros E; vm_compute in E; discriminate E]
            |exact Hs]).
Qed.

Section Evaluation.
Variable search : list ascii -> Z -> list retrieved.
Variable chat_create : list RAGPipeline.turn -> RAGPipeline.chat_completion.
Variable create : list ascii -> StructuredExtractor.completion.
Variable json_loads : list ascii -> option pyval.
Variable prompt :
  StructuredExtractor.extraction_type -> list ascii -> list ascii.
Variable bullet : list ascii.
Variable repr : pyval -> list ascii.

Lemma evaluate_query_judged_well uuid4 conversations test_case :
  judged_well
    (fst (_evaluate_query search chat_create create json_loads prompt bullet
            repr uuid4 conversations test_case))
  /\ result_query
       (fst (_evaluate_query search chat_create create json_loads prompt
               bullet repr uuid4 conversations test_case))
     = query test_case.
Proof.
  unfold _evaluate_query.
  destruct (RAGPipeline.process_query _ _ _ _ _ _ _ _ _ _ _)
    as [[response|e] conversations'];
    cbn [fst].
  - split; [apply judge_judged_well|]. unfold judge.
    destruct (true_div _ _); reflexivity.
  - split; [apply failed_judged_well | reflexivity].
Qed.

Lemma evaluation_loop_results uuids test_queries :
  forall round conversations results,
    Forall judged_well results ->
    Forall judged_well
      (fst (evaluation_loop search chat_create create json_loads prompt
              bullet repr uuids round test_queries conversations results))
    /\ map result_query
         (fst (evaluation_loop search chat_create create json_loads prompt
                 bullet repr uuids round test_queries conversations results))
       = map result_query results ++ map query test_queries.
Proof.
  induction test_queries as [|test_case rest IH];
    intros round conversations results Hall.
  - simpl. rewrite app_nil_r. auto.
  - cbn [evaluation_loop].
    pose proof (evaluate_query_judged_well (uuids round) conversations
                  test_case) as [Hj Hq].
    destruct (_evaluate_query _ _ _ _ _ _ _ _ _ _) as [result conversations'].
    cbn [fst] in Hj, Hq.
    destruct (IH (S round) conversations' (results ++ [result])) as [H1 H2].
    { apply Forall_app. split; [exact Hall|]. constructor; [exact Hj|].
      constructor. }
    split; [exact H1|]. rewrite H2, map_app, <- app_assoc. simpl.
    rewrite Hq. reflexivity.
Qed.

(** X27: the report of an evaluation adds up. [run_evaluation] never
    raises, whatever the pipeline does: every test case gets a result,
    in the order of the test cases; every result has one of the four
    verdicts, is judged correct only when it has sources and has no
    sources when the query failed; and in the summary the four
    counters add up to [total_queries], which is the number of test
    cases, while total_with_sources is at most that number. *)
Theorem evaluation_adds_up (uuids : nat -> list ascii)
    (test_queries : list test_case)
    (conversations : gmap (list ascii) (list RAGPipeline.turn)) :
  exists report,
    fst (run_evaluation search chat_create create json_loads prompt bullet
           repr uuids test_queries conversations) = Ok report
    /\ total_queries report = len test_queries
    /\ map result_query (results report) = map query test_queries
    /\ Forall judged_well (results report)
    /\ exists correct partially incorrect error with_sources,
         summary report !! str "correct" = Some correct
         /\ summary report !! str "partially_correct" = Some partially
         /\ summary report !! str "incorrect" = Some incorrect
         /\ summary report !! str "error" = Some error
         /\ summary report !! str "total_with_sources" = Some with_sources
         /\ correct + partially + incorrect + error = total_queries report
         /\ 0 <= with_sources <= total_queries report.
Proof.
  unfold run_evaluation.
  destruct (evaluation_loop_results uuids test_queries 0 conversations []
              (Forall_nil_2 _)) as [Hall Hq].
  destruct (evaluation_loop _ _ _ _ _ _ _ _ _ _ _ _)
    as [results conversations'].
  cbn [fst] in *. simpl in Hq.
  destruct (summary_lookup results) as (summary & E & _ & Hverdict & Htotal).
  rewrite E. cbn [bind]. eexists. split; [reflexivity|].
  cbn [total_queries Evaluation.results Evaluation.summary].
  assert (len results = len test_queries) as Hlen.
  { unfold len. f_equal.
    rewrite <- (length_map result_query results), Hq. apply length_map. }
  split; [exact Hlen|]. split; [exact Hq|]. split; [exact Hall|].
  apply summary_adds_up; [exact Hverdict | exact Htotal |].
  eapply Forall_impl; [exact Hall|]. intros r Hr. apply Hr.
Qed.

(** X28: a failed generation is judged incorrect. When the chat model
    fails, the pipeline answers an ordinary question for which passages
    are found with the text of the failure; [_evaluate_query] then
    finds the word error in the answer and gives the verdict incorrect
    (not error), with sources, whatever the expected keywords are. *)
Theorem failed_generation_judged_incorrect (uuid4 : list ascii)
    (conversations : gmap (list ascii) (list RAGPipeline.turn))
    (test_case : test_case) :
  (forall messages, exists e, chat_create messages = RAGPipeline.ChatFailure e) ->
  RAGPipeline._is_extraction_request (query test_case) = false ->
  search (query test_case) 5 <> [] ->
  expected_keywords test_case <> [] ->
  correctness
    (fst (_evaluate_query search chat_create create json_loads prompt bullet
            repr uuid4 conversations test_case)) = str "incorrect"
  /\ has_sources
       (fst (_evaluate_query search chat_create create json_loads prompt
               bullet repr uuid4 conversations test_case)) = true.
Proof.
  intros Hdown Hx Hs Hk. unfold _evaluate_query, RAGPipeline.process_query.
  rewrite Hx. destruct (search (query test_case) 5) as [|doc docs];
    [contradiction|].
  rewrite lookup_insert_eq. cbn [fst].
  unfold RAGPipeline._generate_answer.
  match goal with
  | |- context [chat_create ?m] => destruct (Hdown m) as [e ->]
  end.
  unfold judge. cbn [RAGPipeline.answer RAGPipeline.sources].
  unfold true_div.
  destruct (Z.eqb_spec (len (expected_keywords test_case)) 0) as [E|_].
  { destruct (expected_keywords test_case); [contradiction|].
    unfold len in E. simpl in E. lia. }
  cbv zeta. cbn [correctness has_sources].
  assert (contains
            (lower (lower (str "Error generating answer: " ++ e)))
            (str "error") = true) as ->.
  { rewrite !lower_app. apply PipelineExtras.contains_app_r.
    vm_compute. reflexivity. }
  assert ((0 <? len (RAGPipeline._format_sources (doc :: docs))) = true)
    as ->.
  { unfold RAGPipeline._format_sources. cbn [RAGPipeline.sources_loop].
    rewrite bool_decide_eq_false_2 by apply not_elem_of_nil.
    unfold len. simpl length. apply Z.ltb_lt. lia. }
  cbn [negb]. rewrite !andb_false_r. split; reflexivity.
Qed.

End Evaluation.

Lemma failed_generation_judged_incorrect_witness :
  correctness
    (fst (_evaluate_query Examples.one_hit Examples.chat_down
            Examples.create_empty Examples.loads_empty
            Examples.prompt_context (str "*") Examples.repr_none (str "id-1")
            ∅ (TestCase (str "What are the door dimensions?")
                 [str "door"; str "dimension"] (str "dimensions"))))
  = str "incorrect"
  /\ has_sources
       (fst (_evaluate_query Examples.one_hit Examples.chat_down
               Examples.create_empty Examples.loads_empty
               Examples.prompt_context (str "*") Examples.repr_none
               (str "id-1") ∅
               (TestCase (str "What are the door dimensions?")
                  [str "door"; str "dimension"] (str "dimensions"))))
     = true.
Proof.
  apply (failed_generation_judged_incorrect Examples.one_hit
           Examples.chat_down Examples.create_empty Examples.loads_empty
           Examples.prompt_context (str "*") Examples.repr_none (str "id-1")
           ∅ (TestCase (str "What are the door dimensions?")
                [str "door"; str "dimension"] (str "dimensions"))).
  - intros messages. eexists. reflexivity.
  - vm_compute. reflexivity.
  - discriminate.
  - discriminate.
Defined.

End VerdictFacts.
